(** * Volume lifecycle of the Azure backend and of the IBM stub backend

    A shallow embedding of the five volume operations of the Azure
    provider (package [lepton]) and of the stub backend of
    [provider/ibm/ibm_volume.go], with the properties of the volume
    specification stated and proved over it.

    Conventions of the embedding:
    - Go's [int] is the 64-bit signed integer of the usual build targets;
      [int32] wrap-around is written out ([int32]).
    - Go strings are byte strings: [string] of [ascii].
    - A Go pointer that may be [nil] is an [option]; dereferencing [None]
      panics ([Panics]).
    - The Azure SDK, the local-image collaborator and the upload
      collaborator are not part of the repository: they are the fields of
      the record [Cloud], over an abstract provider state [World]. *)

From Stdlib Require Import ZArith List String Ascii Bool Lia.
From Stdlib Require Import DecimalString.
From Stdlib Require DecimalPos.
Import ListNotations.
Open Scope string_scope.
Open Scope Z_scope.

Set Implicit Arguments.

(* ================================================================== *)
(** ** Go primitives used by the source *)
(* ================================================================== *)

Module Go.

(** [int32(x)]: conversion of an [int] to 32 bits keeps the low 32 bits,
    read as a two's complement number. *)
Definition int32 (x : Z) : Z := (x + 2 ^ 31) mod 2 ^ 32 - 2 ^ 31.

Definition maxInt64 : Z := 2 ^ 63 - 1.
Definition maxUint64 : Z := 2 ^ 64 - 1.

(** The two sentinel errors of [strconv]. *)
Inductive NumErr : Type := ErrSyntax | ErrRange.

(** Go [error] values met by the source.
    - [NumError]: the [*strconv.NumError] of [strconv.Atoi];
    - [errorString]: an error handed back by the SDK or by a collaborator,
      identified by its message;
    - [Errorf]: [fmt.Errorf(format, cause)] for a format made of a fixed
      prefix followed by one [%v] verb; [format] is that prefix. *)
Inductive error : Type :=
| NumError (Func Num : string) (Err : NumErr)
| errorString (msg : string)
| Errorf (format : string) (cause : error).

Definition NumErrMsg (k : NumErr) : string :=
  match k with
  | ErrSyntax => "invalid syntax"
  | ErrRange => "value out of range"
  end.

Section Rendering.
(** [strconv.Quote] is left abstract: no operation of the source inspects
    a rendered message. *)
Variable Quote : string -> string.

(** [err.Error()]. *)
Fixpoint Error (e : error) : string :=
  match e with
  | NumError f num k =>
      "strconv." ++ f ++ ": parsing " ++ Quote num ++ ": " ++ NumErrMsg k
  | errorString msg => msg
  | Errorf format cause => format ++ Error cause
  end.
End Rendering.

(** *** [strconv.Atoi] *)

Definition digitOf (c : ascii) : option Z :=
  let n := Z.of_nat (nat_of_ascii c) in
  if (48 <=? n) && (n <=? 57) then Some (n - 48) else None.

Inductive ScanResult : Type :=
| ScanOk (n : Z)
| ScanSyntax
| ScanRange.

(** The digit loop of [strconv.ParseUint(s, 10, 64)]: every byte must be a
    decimal digit (no underscore in base 10); the range check runs before
    each multiplication and after each addition. *)
Fixpoint scanUint (s : string) (n : Z) : ScanResult :=
  match s with
  | EmptyString => ScanOk n
  | String c s' =>
      match digitOf c with
      | None => ScanSyntax
      | Some d =>
          if n >=? maxUint64 / 10 + 1 then ScanRange
          else
            let n1 := n * 10 + d in
            if n1 >? maxUint64 then ScanRange else scanUint s' n1
      end
  end.

Definition ParseUint (s : string) : ScanResult :=
  match s with
  | EmptyString => ScanSyntax
  | _ => scanUint s 0
  end.

Definition isPlus (c : ascii) : bool := Ascii.eqb c "+"%char.
Definition isMinus (c : ascii) : bool := Ascii.eqb c "-"%char.

(** [strconv.ParseInt(s, 10, 0)] with the 64-bit [int]. *)
Definition ParseInt (s : string) : NumErr + Z :=
  match s with
  | EmptyString => inl ErrSyntax
  | String c rest =>
      let neg := isMinus c in
      let body := if isPlus c || isMinus c then rest else s in
      match ParseUint body with
      | ScanSyntax => inl ErrSyntax
      | ScanRange => inl ErrRange
      | ScanOk un =>
          if negb neg && (un >=? 2 ^ 63) then inl ErrRange
          else if neg && (un >? 2 ^ 63) then inl ErrRange
          else inr (if neg then - un else un)
      end
  end.

(** The digit loop of the fast path of [Atoi]. *)
Fixpoint scanSmall (s : string) (n : Z) : option Z :=
  match s with
  | EmptyString => Some n
  | String c s' =>
      match digitOf c with
      | None => None
      | Some d => scanSmall s' (n * 10 + d)
      end
  end.

(** [strconv.Atoi]: a fast path for inputs of 1 to 18 bytes, [ParseInt]
    otherwise; the [Func] of the error is always ["Atoi"] and its [Num] the
    whole input. *)
Definition Atoi (s : string) : error + Z :=
  let sLen := String.length s in
  match s with
  | String c rest =>
      if (sLen <? 19)%nat then
        let signed := isMinus c || isPlus c in
        let body := if signed then rest else s in
        if signed && (String.length body <? 1)%nat
        then inl (NumError "Atoi" s ErrSyntax)
        else
          match scanSmall body 0 with
          | None => inl (NumError "Atoi" s ErrSyntax)
          | Some n => inr (if isMinus c then - n else n)
          end
      else
        match ParseInt s with
        | inl k => inl (NumError "Atoi" s k)
        | inr n => inr n
        end
  | EmptyString =>
      match ParseInt s with
      | inl k => inl (NumError "Atoi" s k)
      | inr n => inr n
      end
  end.

(** [strconv.Itoa]: decimal digits, with a leading [-] for a negative
    number. *)
Definition Itoa (n : Z) : string :=
  NilZero.string_of_int (Z.to_int n).

(** *** [strings.Split] for a separator of one byte

    [Split s sep] is [strings.Split(s, string(sep))]: the substrings of [s]
    between the occurrences of [sep]; it has one more element than [s] has
    separators. *)
Fixpoint Split (s : string) (sep : ascii) : list string :=
  match s with
  | EmptyString => [EmptyString]
  | String c s' =>
      if Ascii.eqb c sep then EmptyString :: Split s' sep
      else
        match Split s' sep with
        | [] => [String c EmptyString]
        | w :: ws => String c w :: ws
        end
  end.

(** [xs[i]] on a slice; [None] stands for the index-out-of-range panic. *)
Definition index {A : Type} (xs : list A) (i : Z) : option A :=
  if i <? 0 then None else nth_error xs (Z.to_nat i).

(** [len(xs)]. *)
Definition len {A : Type} (xs : list A) : Z := Z.of_nat (List.length xs).

End Go.

(* ================================================================== *)
(** ** Data model *)
(* ================================================================== *)

Import Go.

(** [lepton.NanosVolume], the provider-neutral volume record. *)
Record NanosVolume : Type := {
  Name : string;
  Status : string;
  Size : string;
  Path : string;
  CreatedAt : string;
  AttachedTo : string
}.

(** [var vol NanosVolume]: the zero value. *)
Definition zeroVolume : NanosVolume :=
  {| Name := ""; Status := ""; Size := ""; Path := "";
     CreatedAt := ""; AttachedTo := "" |}.

(** The part of [lepton.Config] the volume operations read or write. *)
Record CloudConfig : Type := {
  ImageName : string;
  BucketName : string;
  Zone : string
}.

Record Config : Type := { CloudConfig_ : CloudConfig }.

(** [config.CloudConfig.ImageName = name]. *)
Definition setImageName (name : string) (c : Config) : Config :=
  {| CloudConfig_ :=
       {| ImageName := name;
          BucketName := BucketName (CloudConfig_ c);
          Zone := Zone (CloudConfig_ c) |} |}.

(** The fields of the receiver [*Azure] the volume operations read. *)
Record Azure : Type := {
  subID : string;
  groupName : string;
  storageAccount : string
}.

(** The resource descriptors of the SDK package [compute]; a field whose Go
    type is a pointer is an [option]. *)
Module compute.

Definition DefaultBaseURI : string := "https://management.azure.com".

(** [compute.BaseClient], embedded by [DisksClient] and
    [VirtualMachinesClient]. *)
Record BaseClient : Type := {
  BaseURI : string;
  SubscriptionID : string;
  Authorizer : option string;
  UserAgent : string
}.

(** [date.Time]; [String()] gives its RFC 3339 text. *)
Record Time : Type := { Time_String : string }.

Record CreationData : Type := {
  CreateOption : string;
  SourceURI : option string;
  StorageAccountID : option string
}.

Record DiskProperties : Type := {
  TimeCreated : option Time;
  HyperVGeneration : string;
  DiskSizeGB : option Z;
  DiskState : string;
  CreationData_ : option CreationData
}.

Record Disk : Type := {
  Disk_ID : option string;
  Disk_Name : option string;
  Disk_Location : option string;
  ManagedBy : option string;
  DiskProperties_ : option DiskProperties
}.

Definition V1 : string := "V1".
Definition DiskCreateOptionTypesAttach : string := "Attach".
Definition InstanceView : string := "instanceView".

Record ManagedDiskParameters : Type := { MDP_ID : option string }.

Record DataDisk : Type := {
  Lun : option Z;
  DataDisk_Name : option string;
  DataDisk_CreateOption : string;
  Caching : string;
  DataDisk_DiskSizeGB : option Z;
  ManagedDisk : option ManagedDiskParameters
}.

Record StorageProfile : Type := {
  ImageReference : option string;
  OsDisk : option string;
  DataDisks : option (list DataDisk)
}.

Record VirtualMachineProperties : Type := {
  VMID : option string;
  ProvisioningState : option string;
  StorageProfile_ : option StorageProfile
}.

Record VirtualMachine : Type := {
  VM_ID : option string;
  VM_Name : option string;
  VM_Location : option string;
  VirtualMachineProperties_ : option VirtualMachineProperties
}.

(** The handle of a long-running operation
    ([VirtualMachinesCreateOrUpdateFuture]). *)
Record Future : Type := { PollingURL : string }.

End compute.
Import compute.

(** The descriptor [vm], of properties [props] and storage profile
    [profile], with [dataDisks] as its data-disk list and every other field
    as it was. *)
Definition withDataDisks (vm : VirtualMachine)
    (props : VirtualMachineProperties) (profile : StorageProfile)
    (dataDisks : list DataDisk) : VirtualMachine :=
  {| VM_ID := VM_ID vm;
     VM_Name := VM_Name vm;
     VM_Location := VM_Location vm;
     VirtualMachineProperties_ :=
       Some {| VMID := VMID props;
               ProvisioningState := ProvisioningState props;
               StorageProfile_ :=
                 Some {| ImageReference := ImageReference profile;
                         OsDisk := OsDisk profile;
                         DataDisks := Some dataDisks |} |} |}.

(* ================================================================== *)
(** ** Effects: provider calls, the caller's [Config], panics *)
(* ================================================================== *)

(** One entry per call that leaves the process, in the order the calls are
    made, with the arguments of the call ([context.TODO()] and the client
    value are left out). *)
Inductive Event : Type :=
| EvCreateLocalVolume (config : Config) (name data size provider : string)
| EvCopyToBucket (config : Config) (path : string)
| EvDisksCreateOrUpdate (group name : string) (disk : Disk)
| EvDisksList
| EvPageNext
| EvDisksDelete (group name : string)
| EvDisksGet (group name : string)
| EvVMGet (group image expand : string)
| EvVMCreateOrUpdate (group image : string) (vm : VirtualMachine)
| EvWaitForCompletionRef (future : Future)
| EvPrintln (msg : string).

Inductive RuntimeError : Type := NilDereference | IndexOutOfRange.

(** How a Go call ends: it returns, it panics, or the model ran out of fuel
    in a loop that has no bound in the source. *)
Inductive Outcome (A : Type) : Type :=
| Returns (a : A)
| Panics (why : RuntimeError)
| Spins.
Arguments Panics {A} why.
Arguments Spins {A}.

(** What the SDK and the two collaborators do is not in the repository: it
    is given by the fields of [Cloud], each a transition of the provider
    state [World].  A collaborator that receives [*Config] may write to it,
    so it hands back the configuration it leaves.  [Page] is the SDK's
    [DiskListPage]: [Page_Values] is [Values()] ([None] for the [nil]
    slice) and [Page_Next] is [Next()], which returns the page it leaves in
    the variable. *)
Record Cloud (World Page : Type) : Type := {
  userAgent : string;
  getLocation : Azure -> Config -> string;
  GetResourceManagementAuthorizer : Azure -> option string;
  getVMClient : Azure -> BaseClient;
  CreateLocalVolume :
    Config -> string -> string -> string -> string ->
    World -> (Config * (NanosVolume * option error)) * World;
  CopyToBucket : Config -> string -> World -> (Config * option error) * World;
  Disks_CreateOrUpdate :
    BaseClient -> string -> string -> Disk -> World -> option error * World;
  Disks_List : BaseClient -> World -> (error + Page) * World;
  Page_Values : Page -> option (list Disk);
  Page_Next : Page -> World -> (option error * Page) * World;
  Disks_Delete : BaseClient -> string -> string -> World -> option error * World;
  Disks_Get : BaseClient -> string -> string -> World -> (error + Disk) * World;
  VM_Get :
    BaseClient -> string -> string -> string ->
    World -> (error + VirtualMachine) * World;
  VM_CreateOrUpdate :
    BaseClient -> string -> string -> VirtualMachine ->
    World -> (error + Future) * World;
  WaitForCompletionRef : Future -> BaseClient -> World -> option error * World
}.

Section Monad.
Variable World : Type.

(** The state an operation runs in: the provider, the [Config] the
    caller's pointer refers to, and the calls made so far. *)
Record St : Type := {
  world : World;
  conf : Config;
  log : list Event
}.

Definition M (A : Type) : Type := St -> Outcome A * St.

Definition ret {A : Type} (a : A) : M A := fun st => (Returns a, st).

Definition bind {A B : Type} (m : M A) (k : A -> M B) : M B :=
  fun st =>
    match m st with
    | (Returns a, st') => k a st'
    | (Panics why, st') => (Panics why, st')
    | (Spins, st') => (Spins, st')
    end.

Definition panic {A : Type} (why : RuntimeError) : M A :=
  fun st => (Panics why, st).

Definition spin {A : Type} : M A := fun st => (Spins, st).

(** [*p] for a pointer [p]. *)
Definition deref {A : Type} (p : option A) : M A :=
  match p with
  | Some a => ret a
  | None => panic NilDereference
  end.

Definition getConfig : M Config := fun st => (Returns (conf st), st).

Definition putConfig (c : Config) : M unit :=
  fun st => (Returns tt, {| world := world st; conf := c; log := log st |}).

(** A call that leaves the process: it is logged, then the provider
    moves. *)
Definition perform {A : Type} (ev : Event) (f : World -> A * World) : M A :=
  fun st =>
    let (a, w') := f (world st) in
    (Returns a, {| world := w'; conf := conf st; log := (log st ++ [ev])%list |}).

(** A call that is handed the caller's [*Config]. *)
Definition performOnConfig {A : Type} (ev : Config -> Event)
    (f : Config -> World -> (Config * A) * World) : M A :=
  fun st =>
    let '((c', a), w') := f (conf st) (world st) in
    (Returns a,
     {| world := w'; conf := c'; log := (log st ++ [ev (conf st)])%list |}).

End Monad.

Arguments ret {World A} a.
Arguments bind {World A B} m k.
Arguments panic {World A} why.
Arguments spin {World A}.
Arguments deref {World A} p.
Arguments getConfig {World}.
Arguments putConfig {World} c.
Arguments perform {World A} ev f.
Arguments performOnConfig {World A} ev f.

Declare Scope go_scope.
Delimit Scope go_scope with go.
Notation "x <- m ;; k" := (bind m (fun x => k))
  (at level 61, m at next level, right associativity) : go_scope.
Notation "' pat <- m ;; k" := (bind m (fun x => match x with pat => k end))
  (at level 61, pat pattern, m at next level, right associativity) : go_scope.
Notation "m ;;; k" := (bind m (fun _ => k))
  (at level 61, right associativity) : go_scope.
Open Scope go_scope.

(* ================================================================== *)
(** ** The Azure backend (package [lepton]) *)
(* ================================================================== *)

Section AzureVolume.
Variables World Page : Type.
Variable cloud : Cloud World Page.
Variable a : Azure.

(** [getDisksClient]: a disks client on the default endpoint for the
    subscription of the receiver. *)
Definition getDisksClient : BaseClient :=
  {| BaseURI := DefaultBaseURI;
     SubscriptionID := subID a;
     Authorizer := GetResourceManagementAuthorizer cloud a;
     UserAgent := userAgent cloud |}.

(** [int32(sizeInt / 1000 / 1000)]: Go's [/] on integers truncates toward
    zero ([Z.quot]). *)
Definition sizeInGB (sizeInt : Z) : Z := int32 (sizeInt ÷ 1000 ÷ 1000).

(** The [compute.Disk] literal of [CreateVolume]. *)
Definition diskParams (location name bucket : string) (sizeInt : Z) : Disk :=
  let container := "quickstart-nanos" in
  let disk := name ++ ".vhd" in
  let sourceURI :=
    "https://" ++ bucket ++ ".blob.core.windows.net/" ++ container
    ++ "/" ++ disk in
  {| Disk_ID := None;
     Disk_Name := Some name;
     Disk_Location := Some location;
     ManagedBy := None;
     DiskProperties_ :=
       Some {| TimeCreated := None;
               HyperVGeneration := V1;
               DiskSizeGB := Some (sizeInGB sizeInt);
               DiskState := "";
               CreationData_ :=
                 Some {| CreateOption := "Import";
                         SourceURI := Some sourceURI;
                         StorageAccountID :=
                           Some ("/subscriptions/" ++ subID a
                                 ++ "/resourceGroups/" ++ groupName a
                                 ++ "/providers/Microsoft.Storage/storageAccounts/"
                                 ++ bucket) |} |} |}.

(** The bucket the disk is imported from: the configured one, or the
    storage account of the receiver when none is configured. *)
Definition bucketOf (c : Config) : string :=
  if String.eqb (BucketName (CloudConfig_ c)) "" then storageAccount a
  else BucketName (CloudConfig_ c).

(** [CreateVolume] uploads the volume raw file and creates a disk from
    it. *)
Definition CreateVolume (name data size provider : string)
  : M World (NanosVolume * option error) :=
  let vol := zeroVolume in
  let disksClient := getDisksClient in
  config <- getConfig ;;
  let location := getLocation cloud a config in
  match Atoi size with
  | inl err => ret (vol, Some err)
  | inr sizeInt =>
      '(vol, err) <-
        performOnConfig
          (fun c => EvCreateLocalVolume c name data size provider)
          (fun c => CreateLocalVolume cloud c name data size provider) ;;
      match err with
      | Some e => ret (vol, Some (Errorf "create local volume: " e))
      | None =>
          config <- getConfig ;;
          putConfig (setImageName name config) ;;;
          err <-
            performOnConfig
              (fun c => EvCopyToBucket c (Path vol))
              (fun c => CopyToBucket cloud c (Path vol)) ;;
          match err with
          | Some e =>
              ret (vol,
                   Some (Errorf "copy volume archive to azure bucket: " e))
          | None =>
              config <- getConfig ;;
              let bucket := BucketName (CloudConfig_ config) in
              let bucket :=
                if String.eqb bucket "" then storageAccount a else bucket in
              let params := diskParams location name bucket sizeInt in
              err <-
                perform (EvDisksCreateOrUpdate (groupName a) name params)
                  (Disks_CreateOrUpdate cloud disksClient (groupName a)
                     name params) ;;
              match err with
              | Some e => ret (vol, Some e)
              | None => ret (vol, None)
              end
          end
      end
  end.

(** The body of [if disk.ManagedBy != nil { ... }]: the last element of
    the reference split at ["/"]. *)
Definition attachedToOf (managedBy : option string) : M World string :=
  match managedBy with
  | None => ret ""
  | Some ref =>
      let instanceURLParts := Split ref "/" in
      match index instanceURLParts (len instanceURLParts - 1) with
      | Some part => ret part
      | None => panic IndexOutOfRange
      end
  end.

(** The [NanosVolume] literal of [GetAllVolumes];  [disk.DiskState],
    [disk.DiskSizeGB] and [disk.TimeCreated] are fields of the embedded
    [*DiskProperties]. *)
Definition volumeOfDisk (disk : Disk) : M World NanosVolume :=
  attachedTo <- attachedToOf (ManagedBy disk) ;;
  name <- deref (Disk_Name disk) ;;
  props <- deref (DiskProperties_ disk) ;;
  sizeGB <- deref (DiskSizeGB props) ;;
  created <- deref (TimeCreated props) ;;
  ret {| Name := name;
         Status := DiskState props;
         Size := Itoa sizeGB;
         Path := "";
         CreatedAt := Time_String created;
         AttachedTo := attachedTo |}.

(** [azureDisksPage.Next()], the returned error dropped. *)
Definition pageNext (page : Page) : M World Page :=
  '(_, page') <- perform EvPageNext (Page_Next cloud page) ;;
  ret page'.

(** [for _, disk := range disks { ... }]: one volume appended and one
    [Next()] per disk of the slice read before the loop. *)
Fixpoint rangeDisks (disks : list Disk) (page : Page)
    (vols : list NanosVolume) : M World (Page * list NanosVolume) :=
  match disks with
  | [] => ret (page, vols)
  | disk :: rest =>
      vol <- volumeOfDisk disk ;;
      let vols := (vols ++ [vol])%list in
      page <- pageNext page ;;
      rangeDisks rest page vols
  end.

(** The unbounded [for { ... }] of [GetAllVolumes]; [fuel] bounds the
    number of rounds the model follows. *)
Fixpoint pagesLoop (fuel : nat) (page : Page) (vols : list NanosVolume)
  : M World (list NanosVolume) :=
  match fuel with
  | O => spin
  | S fuel' =>
      match Page_Values cloud page with
      | None => ret vols
      | Some disks =>
          '(page, vols) <- rangeDisks disks page vols ;;
          pagesLoop fuel' page vols
      end
  end.

(** [GetAllVolumes] returns all volumes in [NanosVolume] format; the
    first component is the [*[]NanosVolume] ([None] for [nil]). *)
Definition GetAllVolumes (fuel : nat)
  : M World (option (list NanosVolume) * option error) :=
  let vols := [] in
  let volumesService := getDisksClient in
  r <- perform EvDisksList (Disks_List cloud volumesService) ;;
  match r with
  | inl err => ret (None, Some err)
  | inr azureDisksPage =>
      vols <- pagesLoop fuel azureDisksPage vols ;;
      ret (Some vols, None)
  end.

(** [DeleteVolume] deletes an existing volume. *)
Definition DeleteVolume (name : string) : M World (option error) :=
  let volumesService := getDisksClient in
  err <-
    perform (EvDisksDelete (groupName a) name)
      (Disks_Delete cloud volumesService (groupName a) name) ;;
  match err with
  | Some e => ret (Some e)
  | None => ret None
  end.

(** [vm.StorageProfile.DataDisks = dataDisks]: [StorageProfile] is a
    field of the embedded [*VirtualMachineProperties]; both pointers are
    dereferenced. *)
Definition setDataDisks (vm : VirtualMachine) (dataDisks : list DataDisk)
  : M World VirtualMachine :=
  props <- deref (VirtualMachineProperties_ vm) ;;
  profile <- deref (StorageProfile_ props) ;;
  ret (withDataDisks vm props profile dataDisks).

(** [*vm.StorageProfile.DataDisks]. *)
Definition getDataDisks (vm : VirtualMachine) : M World (list DataDisk) :=
  props <- deref (VirtualMachineProperties_ vm) ;;
  profile <- deref (StorageProfile_ props) ;;
  deref (DataDisks profile).

(** The tail shared by [AttachVolume] and [DetachVolume]: submit the
    descriptor, print the notice, wait for the operation. *)
Definition updateAndWait (vmClient : BaseClient) (image : string)
    (vm : VirtualMachine) (notice : string) : M World (option error) :=
  r <-
    perform (EvVMCreateOrUpdate (groupName a) image vm)
      (VM_CreateOrUpdate cloud vmClient (groupName a) image vm) ;;
  match r with
  | inl err => ret (Some (Errorf "cannot update vm: " err))
  | inr future =>
      perform (EvPrintln notice) (fun w => (tt, w)) ;;;
      err <-
        perform (EvWaitForCompletionRef future)
          (WaitForCompletionRef cloud future vmClient) ;;
      match err with
      | Some e =>
          ret (Some
                 (Errorf
                    "cannot get the vm create or update future response: "
                    e))
      | None => ret None
      end
  end.

(** [AttachVolume] attaches a volume to an instance. *)
Definition AttachVolume (image name mount : string) : M World (option error) :=
  let vmClient := getVMClient cloud a in
  r <-
    perform (EvVMGet (groupName a) image InstanceView)
      (VM_Get cloud vmClient (groupName a) image InstanceView) ;;
  match r with
  | inl err => ret (Some err)
  | inr vm =>
      let disksClient := getDisksClient in
      r <-
        perform (EvDisksGet (groupName a) name)
          (Disks_Get cloud disksClient (groupName a) name) ;;
      match r with
      | inl err => ret (Some err)
      | inr disk =>
          id <- deref (Disk_ID disk) ;;
          vm <-
            setDataDisks vm
              [ {| Lun := Some 0;
                   DataDisk_Name := Some name;
                   DataDisk_CreateOption := DiskCreateOptionTypesAttach;
                   Caching := "";
                   DataDisk_DiskSizeGB := None;
                   ManagedDisk := Some {| MDP_ID := Some id |} |} ] ;;
          updateAndWait vmClient image vm
            "attaching the volume - this can take a few minutes - you can ctrl-c this after a bit"
      end
  end.

(** The filter loop of [DetachVolume]: the entries whose name differs
    from [name], in order. *)
Fixpoint keepOthers (name : string) (disks dataDisks : list DataDisk)
  : M World (list DataDisk) :=
  match disks with
  | [] => ret dataDisks
  | disk :: rest =>
      diskName <- deref (DataDisk_Name disk) ;;
      if negb (String.eqb diskName name)
      then keepOthers name rest (dataDisks ++ [disk])%list
      else keepOthers name rest dataDisks
  end.

(** [DetachVolume] detaches a volume from an instance. *)
Definition DetachVolume (image name : string) : M World (option error) :=
  let vmClient := getVMClient cloud a in
  r <-
    perform (EvVMGet (groupName a) image InstanceView)
      (VM_Get cloud vmClient (groupName a) image InstanceView) ;;
  match r with
  | inl err => ret (Some err)
  | inr vm =>
      disks <- getDataDisks vm ;;
      dataDisks <- keepOthers name disks [] ;;
      vm <- setDataDisks vm dataDisks ;;
      updateAndWait vmClient image vm
        "detaching the volume - this can take a few minutes - you can ctrl-c this after a bit"
  end.

End AzureVolume.

(* ================================================================== *)
(** ** The stub backend ([provider/ibm/ibm_volume.go]) *)
(* ================================================================== *)

Module ibm.
Section Stub.
(** The receiver [*IBM] and [*lepton.Context] are declared elsewhere in
    the repository; no stub reads them. *)
Variables World IBM Context : Type.

(** [CreateVolume] is a stub to satisfy the [VolumeService] interface. *)
Definition CreateVolume (v : IBM) (ctx : Context)
    (name data provider : string) : M World (NanosVolume * option error) :=
  let vol := zeroVolume in
  ret (vol, None).

(** [GetAllVolumes] is a stub to satisfy the [VolumeService] interface. *)
Definition GetAllVolumes (v : IBM) (ctx : Context)
  : M World (option (list NanosVolume) * option error) :=
  ret (None, None).

(** [DeleteVolume] is a stub to satisfy the [VolumeService] interface. *)
Definition DeleteVolume (v : IBM) (ctx : Context) (name : string)
  : M World (option error) :=
  ret None.

(** [AttachVolume] is a stub to satisfy the [VolumeService] interface. *)
Definition AttachVolume (v : IBM) (ctx : Context) (image name : string)
    (attachID : Z) : M World (option error) :=
  ret None.

(** [DetachVolume] is a stub to satisfy the [VolumeService] interface. *)
Definition DetachVolume (v : IBM) (ctx : Context) (image name : string)
  : M World (option error) :=
  ret None.
End Stub.
End ibm.

(* ================================================================== *)
(** ** A simulated provider

    An instance of [Cloud] to run the operations on: an account holds its
    disks in the pages the provider lists them in and its instances by
    name, and [faults] schedules the outcome of the requests to come
    ([Some e]: the request fails with [e] and changes nothing). *)
(* ================================================================== *)

Module Sim.

Record World : Type := {
  pages : list (list Disk);
  vms : list (string * VirtualMachine);
  faults : list (option error)
}.

(** The page variable: the current page followed by the pages after
    it. *)
Definition Page : Type := list (list Disk).

Definition request {A : Type} (w : World) (failed : error -> A)
    (served : World -> A * World) : A * World :=
  match faults w with
  | Some e :: rest =>
      (failed e, {| pages := pages w; vms := vms w; faults := rest |})
  | None :: rest =>
      served {| pages := pages w; vms := vms w; faults := rest |}
  | [] => served w
  end.

Definition hasName (name : string) (d : Disk) : bool :=
  match Disk_Name d with
  | Some n => String.eqb n name
  | None => false
  end.

Definition findVM (image : string) (w : World) : option VirtualMachine :=
  match find (fun kv => String.eqb (fst kv) image) (vms w) with
  | Some kv => Some (snd kv)
  | None => None
  end.

Definition notFound : error := errorString "ResourceNotFound".

Definition localVolume (name size : string) : NanosVolume :=
  {| Name := name; Status := ""; Size := size;
     Path := "/tmp/" ++ name ++ ".raw"; CreatedAt := ""; AttachedTo := "" |}.

Definition cloud : Cloud World Page :=
  {| userAgent := "ops";
     getLocation := fun _ c => Zone (CloudConfig_ c);
     GetResourceManagementAuthorizer := fun _ => None;
     getVMClient := fun a =>
       {| BaseURI := DefaultBaseURI; SubscriptionID := subID a;
          Authorizer := None; UserAgent := "ops" |};
     CreateLocalVolume := fun c name data size provider w =>
       request w (fun e => (c, (zeroVolume, Some e)))
         (fun w' => ((c, (localVolume name size, None)), w'));
     CopyToBucket := fun c path w =>
       request w (fun e => (c, Some e)) (fun w' => ((c, None), w'));
     Disks_CreateOrUpdate := fun _ group name disk w =>
       request w (fun e => Some e)
         (fun w' =>
            (None,
             {| pages := (pages w' ++ [[disk]])%list; vms := vms w';
                faults := faults w' |}));
     Disks_List := fun _ w =>
       request w (fun e => inl e) (fun w' => (inr (pages w'), w'));
     Page_Values := fun p =>
       match p with
       | (d :: ds) :: _ => Some (d :: ds)
       | _ => None
       end;
     Page_Next := fun p w =>
       match p with
       | _ :: next :: rest =>
           request w (fun e => (Some e, p))
             (fun w' => ((None, next :: rest), w'))
       | _ => ((None, []), w)
       end;
     Disks_Delete := fun _ group name w =>
       request w (fun e => Some e)
         (fun w' =>
            if existsb (hasName name) (List.concat (pages w'))
            then
              (None,
               {| pages :=
                    map (filter (fun d => negb (hasName name d))) (pages w');
                  vms := vms w'; faults := faults w' |})
            else (Some notFound, w'));
     Disks_Get := fun _ group name w =>
       request w (fun e => inl e)
         (fun w' =>
            match find (hasName name) (List.concat (pages w')) with
            | Some d => (inr d, w')
            | None => (inl notFound, w')
            end);
     VM_Get := fun _ group image expand w =>
       request w (fun e => inl e)
         (fun w' =>
            match findVM image w' with
            | Some vm => (inr vm, w')
            | None => (inl notFound, w')
            end);
     VM_CreateOrUpdate := fun _ group image vm w =>
       request w (fun e => inl e)
         (fun w' =>
            (inr {| PollingURL := image |},
             {| pages := pages w';
                vms :=
                  (image, vm)
                  :: filter (fun kv => negb (String.eqb (fst kv) image))
                       (vms w');
                faults := faults w' |}));
     WaitForCompletionRef := fun _ _ w =>
       request w (fun e => Some e) (fun w' => (None, w')) |}.

Definition azure : Azure :=
  {| subID := "sub-1"; groupName := "rg-1"; storageAccount := "store1" |}.

Definition config : Config :=
  {| CloudConfig_ :=
       {| ImageName := "img"; BucketName := ""; Zone := "westus2" |} |}.

Definition start (w : World) : St World :=
  {| world := w; conf := config; log := [] |}.

(** A disk descriptor with every field the listing reads. *)
Definition disk (name : string) (sizeGB : Z) (managedBy : option string)
  : Disk :=
  {| Disk_ID := Some ("/subscriptions/sub-1/disks/" ++ name);
     Disk_Name := Some name;
     Disk_Location := Some "westus2";
     ManagedBy := managedBy;
     DiskProperties_ :=
       Some {| TimeCreated := Some {| Time_String := "2020-06-01T00:00:00Z" |};
               HyperVGeneration := V1;
               DiskSizeGB := Some sizeGB;
               DiskState :=
                 match managedBy with
                 | Some _ => "Attached"
                 | None => "Unattached"
                 end;
               CreationData_ := None |} |}.

Definition dataDisk (lun : Z) (name : string) : DataDisk :=
  {| Lun := Some lun;
     DataDisk_Name := Some name;
     DataDisk_CreateOption := DiskCreateOptionTypesAttach;
     Caching := "ReadWrite";
     DataDisk_DiskSizeGB := Some 1;
     ManagedDisk :=
       Some {| MDP_ID := Some ("/subscriptions/sub-1/disks/" ++ name) |} |}.

Definition vm (name : string) (dataDisks : option (list DataDisk))
  : VirtualMachine :=
  {| VM_ID := Some ("/subscriptions/sub-1/virtualMachines/" ++ name);
     VM_Name := Some name;
     VM_Location := Some "westus2";
     VirtualMachineProperties_ :=
       Some {| VMID := Some "vmid-1";
               ProvisioningState := Some "Succeeded";
               StorageProfile_ :=
                 Some {| ImageReference := Some "nanos-image";
                         OsDisk := Some "osdisk";
                         DataDisks := dataDisks |} |} |}.

Definition d1 : Disk := disk "vol1" 1 None.
Definition d2 : Disk :=
  disk "vol2" 2 (Some "/subscriptions/sub-1/virtualMachines/web").
Definition d3 : Disk := disk "vol3" 3 None.

(** A disk descriptor without its name. *)
Definition nameless : Disk :=
  {| Disk_ID := Disk_ID d1; Disk_Name := None;
     Disk_Location := Disk_Location d1; ManagedBy := None;
     DiskProperties_ := DiskProperties_ d1 |}.

(** A data-disk entry without its name. *)
Definition unnamed : DataDisk :=
  {| Lun := Some 1; DataDisk_Name := None;
     DataDisk_CreateOption := DiskCreateOptionTypesAttach;
     Caching := "ReadWrite"; DataDisk_DiskSizeGB := Some 1;
     ManagedDisk := None |}.

(** An account of two instances: ["web"], with the data disks ["vol2"]
    and ["vol9"], and ["db"], one of whose data disks has no name. *)
Definition account (ps : list (list Disk)) (fs : list (option error))
  : World :=
  {| pages := ps;
     vms :=
       [("web", vm "web" (Some [dataDisk 0 "vol2"; dataDisk 1 "vol9"]));
        ("db", vm "db" (Some [dataDisk 0 "vol2"; unnamed]))];
     faults := fs |}.

(** The volume records the listing makes of [d1], [d2], [d3]. *)
Definition v1 : NanosVolume :=
  {| Name := "vol1"; Status := "Unattached"; Size := "1"; Path := "";
     CreatedAt := "2020-06-01T00:00:00Z"; AttachedTo := "" |}.
Definition v2 : NanosVolume :=
  {| Name := "vol2"; Status := "Attached"; Size := "2"; Path := "";
     CreatedAt := "2020-06-01T00:00:00Z"; AttachedTo := "web" |}.
Definition v3 : NanosVolume :=
  {| Name := "vol3"; Status := "Unattached"; Size := "3"; Path := "";
     CreatedAt := "2020-06-01T00:00:00Z"; AttachedTo := "" |}.

Definition throttled : error := errorString "TooManyRequests".

End Sim.

(* ================================================================== *)
(** ** Observations on a run *)
(* ================================================================== *)

(** The disks of the disk-creation requests in a list of calls. *)
Fixpoint createdDisks (evs : list Event) : list Disk :=
  match evs with
  | [] => []
  | EvDisksCreateOrUpdate _ _ d :: rest => d :: createdDisks rest
  | _ :: rest => createdDisks rest
  end.

(** The instance descriptors of the update requests in a list of calls. *)
Fixpoint submittedVMs (evs : list Event) : list VirtualMachine :=
  match evs with
  | [] => []
  | EvVMCreateOrUpdate _ _ vm :: rest => vm :: submittedVMs rest
  | _ :: rest => submittedVMs rest
  end.

(** [disk.DiskSizeGB], read without panicking. *)
Definition diskSizeGB (d : Disk) : option Z :=
  match DiskProperties_ d with
  | Some props => DiskSizeGB props
  | None => None
  end.

(** [vm.StorageProfile.DataDisks], read without panicking. *)
Definition dataDisksOf (vm : VirtualMachine) : option (list DataDisk) :=
  match VirtualMachineProperties_ vm with
  | Some props =>
      match StorageProfile_ props with
      | Some profile => DataDisks profile
      | None => None
      end
  | None => None
  end.

(** The entry [AttachVolume] builds for the disk [name] of identifier
    [id]. *)
Definition attachment (name id : string) : DataDisk :=
  {| Lun := Some 0;
     DataDisk_Name := Some name;
     DataDisk_CreateOption := DiskCreateOptionTypesAttach;
     Caching := "";
     DataDisk_DiskSizeGB := None;
     ManagedDisk := Some {| MDP_ID := Some id |} |}.

(** Two instance descriptors that differ at most in their data-disk
    list. *)
Definition sameButDataDisks (vm vm' : VirtualMachine) : Prop :=
  VM_ID vm' = VM_ID vm /\ VM_Name vm' = VM_Name vm
  /\ VM_Location vm' = VM_Location vm
  /\ exists props props' profile profile',
      VirtualMachineProperties_ vm = Some props
      /\ VirtualMachineProperties_ vm' = Some props'
      /\ VMID props' = VMID props
      /\ ProvisioningState props' = ProvisioningState props
      /\ StorageProfile_ props = Some profile
      /\ StorageProfile_ props' = Some profile'
      /\ ImageReference profile' = ImageReference profile
      /\ OsDisk profile' = OsDisk profile.

(** A byte string without the byte [c]. *)
Fixpoint lacks (c : ascii) (s : string) : bool :=
  match s with
  | EmptyString => true
  | String c' s' => negb (Ascii.eqb c' c) && lacks c s'
  end.

(** [seg] is the trailing path segment of [ref]: what follows the last
    ["/"] of [ref], or the whole of [ref] when it has none. *)
Definition trailingSegment (ref seg : string) : Prop :=
  lacks "/" seg = true
  /\ (ref = seg \/ exists front, ref = front ++ "/" ++ seg).

(** The fields of a disk descriptor the listing dereferences. *)
Definition listable (d : Disk) : bool :=
  match Disk_Name d, DiskProperties_ d with
  | Some _, Some props =>
      match DiskSizeGB props, TimeCreated props with
      | Some _, Some _ => true
      | _, _ => false
      end
  | _, _ => false
  end.

(** The field of a data-disk entry the detach filter dereferences. *)
Definition named (d : DataDisk) : bool :=
  match DataDisk_Name d with
  | Some _ => true
  | None => false
  end.

(** A data-disk entry whose name is present and is not [name]. *)
Definition namedOtherThan (name : string) (d : DataDisk) : Prop :=
  exists n, DataDisk_Name d = Some n /\ n <> name.

Definition attachNotice : string :=
  "attaching the volume - this can take a few minutes - you can ctrl-c this after a bit".
Definition detachNotice : string :=
  "detaching the volume - this can take a few minutes - you can ctrl-c this after a bit".

(** The volume record [v] is what the listing makes of the descriptor
    [d]: name, state, size in decimal and creation time are those of the
    descriptor, [Path] is empty, and [AttachedTo] is the trailing segment
    of the managed-by reference, or empty when there is none. *)
Definition listedAs (d : Disk) (v : NanosVolume) : Prop :=
  Disk_Name d = Some (Name v)
  /\ (exists props sizeGB created,
        DiskProperties_ d = Some props
        /\ DiskSizeGB props = Some sizeGB
        /\ TimeCreated props = Some created
        /\ Status v = DiskState props
        /\ Size v = Itoa sizeGB
        /\ CreatedAt v = Time_String created)
  /\ Path v = ""
  /\ match ManagedBy d with
     | Some ref => trailingSegment ref (AttachedTo v)
     | None => AttachedTo v = ""
     end.

(** The test of the detach filter: the entry has a name other than
    [name]. *)
Definition keeps (name : string) (d : DataDisk) : bool :=
  match DataDisk_Name d with
  | Some n => negb (String.eqb n name)
  | None => false
  end.

(** The page variable and the provider after [n] calls of [Next()], the
    returned errors dropped. *)
Fixpoint advance {World Page : Type} (cloud : Cloud World Page) (n : nat)
    (page : Page) (w : World) : Page * World :=
  match n with
  | O => (page, w)
  | S n' =>
      let '((_, page'), w') := Page_Next cloud page w in
      advance cloud n' page' w'
  end.

(** The calls of a list of calls that change something at the provider or
    on the local disk: everything but the reads ([List], [Next], the two
    [Get]), the wait and the notice. *)
Fixpoint mutations (evs : list Event) : list Event :=
  match evs with
  | [] => []
  | ev :: rest =>
      match ev with
      | EvDisksList | EvPageNext | EvDisksGet _ _ | EvVMGet _ _ _
      | EvWaitForCompletionRef _ | EvPrintln _ => mutations rest
      | _ => ev :: mutations rest
      end
  end.

(** A computation that leaves the caller's [Config] as it found it,
    however it ends. *)
Definition keepsConfig {World A : Type} (m : M World A) : Prop :=
  forall st, conf (snd (m st)) = conf st.

(** The instance descriptor has the two pointers [StorageProfile] is
    reached through. *)
Definition hasStorageProfile (vm : VirtualMachine) : bool :=
  match VirtualMachineProperties_ vm with
  | Some props =>
      match StorageProfile_ props with
      | Some _ => true
      | None => false
      end
  | None => false
  end.

(** More inputs for the simulated provider: a disk descriptor without
    identifier, an instance descriptor without data-disk list, and an
    account that holds them. *)
Definition diskWithoutID : Disk :=
  {| Disk_ID := None; Disk_Name := Some "vol1";
     Disk_Location := Disk_Location Sim.d1; ManagedBy := None;
     DiskProperties_ := DiskProperties_ Sim.d1 |}.

Definition bareAccount (fs : list (option error)) : Sim.World :=
  {| Sim.pages := [[diskWithoutID]];
     Sim.vms := [("bare", Sim.vm "bare" None)];
     Sim.faults := fs |}.

(* ================================================================== *)
(** ** The nightly flag and the release version (package [cmd]) *)
(* ================================================================== *)

Module cmd.

(** *** The pieces of [unicode/utf8], [fmt] and [os] the file relies on *)

Definition byteOf (c : ascii) : Z := Z.of_nat (nat_of_ascii c).

(** [utf8.first] for a byte of [0x80] or more: the length of the sequence
    the byte starts and the bounds of its second byte, [None] for a byte
    that starts none. *)
Definition leadByte (c : Z) : option (nat * (Z * Z)) :=
  if (194 <=? c) && (c <=? 223) then Some (2%nat, (128, 191))
  else if c =? 224 then Some (3%nat, (160, 191))
  else if (225 <=? c) && (c <=? 236) then Some (3%nat, (128, 191))
  else if c =? 237 then Some (3%nat, (128, 159))
  else if (238 <=? c) && (c <=? 239) then Some (3%nat, (128, 191))
  else if c =? 240 then Some (4%nat, (144, 191))
  else if (241 <=? c) && (c <=? 243) then Some (4%nat, (128, 191))
  else if c =? 244 then Some (4%nat, (128, 143))
  else None.

Definition continuation (c : ascii) : bool :=
  (128 <=? byteOf c) && (byteOf c <=? 191).

(** The number of bytes one round of the loop of
    [utf8.RuneCountInString] moves on by, at the byte [c] followed by
    [rest]: the length of a well-formed sequence, 1 otherwise. *)
Definition runeSize (c : ascii) (rest : string) : nat :=
  if byteOf c <? 128 then 1%nat
  else
    match leadByte (byteOf c) with
    | None => 1%nat
    | Some (size, (lo, hi)) =>
        if (String.length rest <? size - 1)%nat then 1%nat
        else
          match rest with
          | String c1 r1 =>
              if (byteOf c1 <? lo) || (hi <? byteOf c1) then 1%nat
              else if (size =? 2)%nat then 2%nat
              else
                match r1 with
                | String c2 r2 =>
                    if negb (continuation c2) then 1%nat
                    else if (size =? 3)%nat then 3%nat
                    else
                      match r2 with
                      | String c3 _ =>
                          if negb (continuation c3) then 1%nat else 4%nat
                      | EmptyString => 1%nat
                      end
                | EmptyString => 1%nat
                end
          | EmptyString => 1%nat
          end
    end.

(** The loop of [utf8.RuneCountInString]; [skip] is the number of bytes
    still to pass over for the sequence counted last. *)
Fixpoint runeCount (s : string) (skip : nat) : Z :=
  match s with
  | EmptyString => 0
  | String c rest =>
      match skip with
      | S k => runeCount rest k
      | O => 1 + runeCount rest (runeSize c rest - 1)
      end
  end.

Definition RuneCountInString (s : string) : Z := runeCount s 0.

(** [writePadding] of [fmt]: [n] copies of the padding byte, none when [n]
    is not positive. *)
Definition writePadding (zero : bool) (n : Z) : string :=
  String.concat ""
    (repeat (if zero then "0" else " ") (Z.to_nat n)).

(** [padString] of [fmt] for a width that is present and not zero. *)
Definition padString (zero minus : bool) (wid : Z) (s : string) : string :=
  let width := wid - RuneCountInString s in
  if negb minus then writePadding zero width ++ s
  else s ++ writePadding zero width.

(** [fmt.Sprintf("%%s%%0%ds", width)]. *)
Definition padFormat (width : Z) : string := "%s%0" ++ Itoa width ++ "s".

(** [fmt.Sprintf(padFormat width, v, value)] for two strings.  The first
    verb writes [v].  The second has the flag [0] and the width
    [|width|], and for a negative [width] the flag [-], which pads with
    spaces on the right; the width [0] reads as a second flag [0] and no
    width.  [parsenum] gives up on a width whose digits, short of the
    last, already exceed 1,000,000: the verb is then lost and the second
    argument is reported as extra. *)
Definition Sprintf_pad (width : Z) (v value : string) : string :=
  if Z.abs width ÷ 10 >? 1000000
  then v ++ "%!(NOVERB)%!(EXTRA string=" ++ value ++ ")"
  else if width =? 0 then v ++ value
  else if width <? 0 then v ++ padString false true (- width) value
  else v ++ padString true false width value.

(** The line feed that ends the two [Fatalf] formats. *)
Definition newline : string := String (ascii_of_nat 10) EmptyString.

(** What is written to the standard output. *)
Inductive Arg : Type :=
| Str (s : string)
| Err (e : error)
| ChalkRed
| ChalkReset
| ChalkBold (s : string).

Inductive Output : Type :=
| Printf (format : string) (args : list Arg)
| Println (args : list Arg)
| Fatalf (format : string) (args : list Arg).

(** How a call ends: it returns, or the process exits ([os.Exit], or
    [log.Fatalf] of the repository's package [log], which is taken to end
    the process with status 1 as the [Fatalf] of the standard library
    does). *)
Inductive Ends (A : Type) : Type :=
| Returned (a : A)
| Exited (status : Z).
Arguments Exited {A} status.

(** [parseVersion]: the components of [s] between the dots, each padded
    to [width] and appended, read as one decimal number; the process
    exits with status 1, after a message, when that text is not a number
    of 64 bits. *)
Definition versionText (s : string) (width : Z) : string :=
  fold_left (fun v value => Sprintf_pad width v value) (Split s ".") "".

Definition parseVersion (s : string) (width : Z) : list Output * Ends Z :=
  let strList := Split s "." in
  let v := fold_left (fun v value => Sprintf_pad width v value) strList "" in
  match ParseInt v with
  | inr result => ([], Returned result)
  | inl k =>
      ([Printf "Failed to parse version %s, error is: %s"
          [Str v; Err (NumError "ParseInt" v k)]],
       Exited 1)
  end.

(** The fields of [types.Config] the file reads or writes. *)
Record Config : Type := {
  NightlyBuild : bool;
  Boot : string;
  UefiBoot : string;
  Kernel : string;
  NameServers : list string
}.

Definition setNightlyBuild (b : bool) (c : Config) : Config :=
  {| NightlyBuild := b; Boot := Boot c; UefiBoot := UefiBoot c;
     Kernel := Kernel c; NameServers := NameServers c |}.
Definition setBoot (p : string) (c : Config) : Config :=
  {| NightlyBuild := NightlyBuild c; Boot := p; UefiBoot := UefiBoot c;
     Kernel := Kernel c; NameServers := NameServers c |}.
Definition setUefiBoot (p : string) (c : Config) : Config :=
  {| NightlyBuild := NightlyBuild c; Boot := Boot c; UefiBoot := p;
     Kernel := Kernel c; NameServers := NameServers c |}.
Definition setKernel (p : string) (c : Config) : Config :=
  {| NightlyBuild := NightlyBuild c; Boot := Boot c; UefiBoot := UefiBoot c;
     Kernel := p; NameServers := NameServers c |}.
Definition setNameServers (l : list string) (c : Config) : Config :=
  {| NightlyBuild := NightlyBuild c; Boot := Boot c; UefiBoot := UefiBoot c;
     Kernel := Kernel c; NameServers := l |}.

(** [NightlyCommandFlags]. *)
Record NightlyCommandFlags : Type := { Nightly : bool }.

(** What the file calls and does not define: [path.Join], [os.Stat] and
    [os.IsNotExist] of the standard library, and of the package [lepton]
    (imported as [api]) the home directory, the UEFI boot image of a
    version, the two downloads and the two version variables.  [FS] is
    the state of the file system; a download may change it, and the one
    that receives [*Config] may write to it. *)
Record Host (FS : Type) : Type := {
  Join : list string -> string;
  Stat : FS -> string -> option error;
  IsNotExist : error -> bool;
  GetOpsHome : string;
  GetUefiBoot : FS -> string -> string;
  DownloadNightlyImages : Config -> FS -> (Config * option error) * FS;
  DownloadReleaseImages : string -> string -> FS -> option error * FS;
  LocalReleaseVersion : string;
  LatestReleaseVersion : string
}.

Section Nightly.
Variable FS : Type.
Variable host : Host FS.

(** [os.IsNotExist(err)] for the error of a [Stat], [nil] included. *)
Definition notExist (err : option error) : bool :=
  match err with
  | Some e => IsNotExist host e
  | None => false
  end.

(** [updateNanosToolsPaths]: the configuration it leaves, or the exit of
    [log.Fatalf]. *)
Definition updateNanosToolsPaths (fs : FS) (c : Config) (version : string)
  : list Output * Ends Config :=
  let version := if NightlyBuild c then "nightly" else version in
  let c :=
    if String.eqb (Boot c) "" then
      let bootPath := Join host [GetOpsHome host; version; "boot.img"] in
      match Stat host fs bootPath with
      | None => setBoot bootPath c
      | Some _ => c
      end
    else c in
  let c := setUefiBoot (GetUefiBoot host fs version) c in
  let c :=
    if String.eqb (Kernel c) "" then
      setKernel (Join host [GetOpsHome host; version; "kernel.img"]) c
    else c in
  let err := Stat host fs (Kernel c) in
  if notExist err then
    ([Fatalf ("error: %v: %v" ++ newline)
        [Str (Kernel c);
         match err with Some e => Err e | None => Str "" end]],
     Exited 1)
  else if negb (String.eqb (Boot c) "") && notExist (Stat host fs (Boot c))
  then
    ([Fatalf ("error: boot file '%v' not found" ++ newline) [Str (Boot c)]],
     Exited 1)
  else
    let c :=
      if (len (NameServers c) =? 0)%Z then setNameServers ["8.8.8.8"] c
      else c in
    ([], Returned c).

(** [downloadNightlyImages]: the version is ["nightly"] whatever the
    download gives. *)
Definition downloadNightlyImages (c : Config) (fs : FS)
  : (Config * (string * option error)) * FS :=
  let '((c', err), fs') := DownloadNightlyImages host c fs in
  ((c', ("nightly", err)), fs').

(** [MergeToConfig] downloads the nightly build and changes the tools
    paths of the configuration. *)
Definition MergeToConfig (flags : NightlyCommandFlags) (config : Config)
    (fs : FS) : (list Output * Ends (Config * option error)) * FS :=
  let config := setNightlyBuild (Nightly flags) config in
  if NightlyBuild config then
    let '((config, (version, err)), fs) := downloadNightlyImages config fs in
    match err with
    | Some e => (([], Returned (config, Some e)), fs)
    | None =>
        match updateNanosToolsPaths fs config version with
        | (out, Returned config) => ((out, Returned (config, None)), fs)
        | (out, Exited status) => ((out, Exited status), fs)
        end
    end
  else (([], Returned (config, None)), fs).

(** The two lines of the warning of [getCurrentVersion]. *)
Definition olderVersionWarning : list Output :=
  [Println [ChalkRed; Str "You are running an older version of Ops.";
            ChalkReset];
   Println [ChalkRed; Str "Update: Run"; ChalkReset;
            ChalkBold "`ops update`"]].

(** [getCurrentVersion]. *)
Definition getCurrentVersion (fs : FS)
  : (list Output * Ends (string * option error)) * FS :=
  let local := LocalReleaseVersion host in
  let remote := LatestReleaseVersion host in
  if String.eqb local "0.0" then
    let '(err, fs') := DownloadReleaseImages host remote "" fs in
    match err with
    | Some e => (([], Returned ("", Some e)), fs')
    | None => (([], Returned (remote, None)), fs')
    end
  else
    match parseVersion local 4 with
    | (out, Exited status) => ((out, Exited status), fs)
    | (out, Returned l) =>
        match parseVersion remote 4 with
        | (out', Exited status) => (((out ++ out')%list, Exited status), fs)
        | (out', Returned r) =>
            if negb (l =? r)%Z
            then (((out ++ out') ++ olderVersionWarning)%list,
                  Returned (local, None), fs)
            else (((out ++ out')%list, Returned (local, None)), fs)
        end
    end.

(** The paths [updateNanosToolsPaths] settles on: the version directory,
    the kernel (the one that is set, or the one of the version), and the
    boot image (the one that is set, or the one of the version when
    [Stat] finds it, or none). *)
Definition toolsVersion (c : Config) (version : string) : string :=
  if NightlyBuild c then "nightly" else version.

Definition kernelPath (c : Config) (version : string) : string :=
  if String.eqb (Kernel c) "" then
    Join host [GetOpsHome host; toolsVersion c version; "kernel.img"]
  else Kernel c.

Definition bootPath (fs : FS) (c : Config) (version : string) : string :=
  if String.eqb (Boot c) "" then
    match
      Stat host fs
        (Join host [GetOpsHome host; toolsVersion c version; "boot.img"])
    with
    | None => Join host [GetOpsHome host; toolsVersion c version; "boot.img"]
    | Some _ => ""
    end
  else Boot c.

End Nightly.

(** *** Words for the statements about versions *)

Definition isDigit (c : ascii) : bool :=
  (48 <=? byteOf c) && (byteOf c <=? 57).

(** Every byte of [s] is a decimal digit. *)
Fixpoint allDigits (s : string) : bool :=
  match s with
  | EmptyString => true
  | String c s' => isDigit c && allDigits s'
  end.

(** The number the digits of [s] write after [acc]. *)
Fixpoint decimal (s : string) (acc : Z) : Z :=
  match s with
  | EmptyString => acc
  | String c s' => decimal s' (acc * 10 + (byteOf c - 48))
  end.

(** The number a component of a version stands for; the empty component
    stands for 0. *)
Definition component (s : string) : Z := decimal s 0.

(** The number with the "digits" [xs] in base [10 ^ width]. *)
Definition positional (width : Z) (xs : list Z) : Z :=
  fold_left (fun acc x => acc * 10 ^ width + x) xs 0.

(** The lexicographic order of two lists of numbers. *)
Fixpoint lexLt (xs ys : list Z) : Prop :=
  match xs, ys with
  | x :: xs', y :: ys' => x < y \/ (x = y /\ lexLt xs' ys')
  | [], _ :: _ => True
  | _, [] => False
  end.

(** A version a release can have: at most [count] components, each of at
    most [width] digits. *)
Definition wellFormed (width : Z) (count : nat) (comps : list string)
  : Prop :=
  comps <> [] /\ (List.length comps <= count)%nat
  /\ Forall
       (fun c => allDigits c = true /\ Z.of_nat (String.length c) <= width)
       comps.

(** The byte [c] occurs in [s]. *)
Fixpoint occurs (c : ascii) (s : string) : bool :=
  match s with
  | EmptyString => false
  | String c' s' => Ascii.eqb c' c || occurs c s'
  end.

End cmd.

(** A host to run the functions of [cmd] on: the file system is the list
    of the paths that exist, [fetch] is the outcome of the downloads (a
    successful one adds the images it brings). *)
Module SimHost.

Definition FS : Type := list string.

Definition noSuchFile : error := errorString "no such file or directory".

Definition host (local remote : string) (fetch : option error)
  : cmd.Host FS :=
  {| cmd.Join := String.concat "/";
     cmd.Stat := fun fs p =>
       if existsb (String.eqb p) fs then None else Some noSuchFile;
     cmd.IsNotExist := fun e =>
       match e with
       | errorString m => String.eqb m "no such file or directory"
       | _ => false
       end;
     cmd.GetOpsHome := "/home/ops/.ops";
     cmd.GetUefiBoot := fun _ _ => "";
     cmd.DownloadNightlyImages := fun c fs =>
       match fetch with
       | Some e => ((c, Some e), fs)
       | None =>
           ((c, None),
            "/home/ops/.ops/nightly/kernel.img"
            :: "/home/ops/.ops/nightly/boot.img" :: fs)
       end;
     cmd.DownloadReleaseImages := fun v _ fs =>
       match fetch with
       | Some e => (Some e, fs)
       | None => (None, ("/home/ops/.ops/" ++ v ++ "/kernel.img") :: fs)
       end;
     cmd.LocalReleaseVersion := local;
     cmd.LatestReleaseVersion := remote |}.

Definition blank : cmd.Config :=
  {| cmd.NightlyBuild := false; cmd.Boot := ""; cmd.UefiBoot := "";
     cmd.Kernel := ""; cmd.NameServers := [] |}.

Definition custom : cmd.Config :=
  {| cmd.NightlyBuild := false; cmd.Boot := "/opt/boot.img";
     cmd.UefiBoot := "/opt/uefi.img"; cmd.Kernel := "/opt/kernel.img";
     cmd.NameServers := ["1.1.1.1"] |}.

End SimHost.

(* ================================================================== *)
(** ** Go primitives: facts *)
(* ================================================================== *)

Example Atoi_5e9 : Atoi "5000000000" = inr 5000000000.
Proof. reflexivity. Qed.
Example Atoi_neg : Atoi "-12" = inr (-12).
Proof. reflexivity. Qed.
Example Atoi_bad : Atoi "12g" = inl (NumError "Atoi" "12g" ErrSyntax).
Proof. reflexivity. Qed.
Example Atoi_sign : Atoi "+" = inl (NumError "Atoi" "+" ErrSyntax).
Proof. reflexivity. Qed.
Example Atoi_empty : Atoi "" = inl (NumError "Atoi" "" ErrSyntax).
Proof. reflexivity. Qed.
Example Atoi_big :
  Atoi "9223372036854775808"
  = inl (NumError "Atoi" "9223372036854775808" ErrRange).
Proof. vm_compute. reflexivity. Qed.
Example Atoi_max :
  Atoi "9223372036854775807" = inr 9223372036854775807.
Proof. vm_compute. reflexivity. Qed.
Example Atoi_min :
  Atoi "-9223372036854775808" = inr (-9223372036854775808).
Proof. vm_compute. reflexivity. Qed.
Example Itoa_ex : Itoa 5000 = "5000" /\ Itoa 0 = "0" /\ Itoa (-7) = "-7".
Proof. repeat split. Qed.
Example Split_ex :
  Split "/subscriptions/s/virtualMachines/vm1" "/"
  = [""; "subscriptions"; "s"; "virtualMachines"; "vm1"].
Proof. reflexivity. Qed.
Example Split_empty : Split "" "/" = [""].
Proof. reflexivity. Qed.

Lemma int32_small (x : Z) : - 2 ^ 31 <= x < 2 ^ 31 -> int32 x = x.
Proof.
  intros Hx. unfold int32.
  rewrite Z.mod_small by lia. lia.
Qed.

Lemma int32_range (x : Z) : - 2 ^ 31 <= int32 x < 2 ^ 31.
Proof.
  unfold int32.
  pose proof (Z.mod_pos_bound (x + 2 ^ 31) (2 ^ 32) ltac:(lia)). lia.
Qed.

(** Dividing by 1000 twice is dividing by 1,000,000 once. *)
Lemma quot_1000_twice (n : Z) : n ÷ 1000 ÷ 1000 = n ÷ 1000000.
Proof. rewrite Z.quot_quot by lia. reflexivity. Qed.

(** Truncation toward zero: the quotient, scaled back, never exceeds the
    dividend in absolute value and misses it by less than the divisor. *)
Lemma quot_truncates (n : Z) :
  Z.abs (1000000 * (n ÷ 1000000)) <= Z.abs n
  /\ Z.abs n - Z.abs (1000000 * (n ÷ 1000000)) < 1000000.
Proof.
  pose proof (Z.quot_rem' n 1000000) as E.
  destruct (Z.le_gt_cases 0 n) as [Hn | Hn].
  - pose proof (Z.rem_bound_pos n 1000000 Hn ltac:(lia)).
    pose proof (Z.mul_quot_le n 1000000 Hn ltac:(lia)). lia.
  - pose proof (Z.rem_bound_pos_neg n 1000000 ltac:(lia) ltac:(lia)).
    pose proof (Z.mul_quot_ge n 1000000 ltac:(lia) ltac:(lia)). lia.
Qed.

Lemma Errorf_inj_format (f f' : string) (e e' : error) :
  f <> f' -> Errorf f e <> Errorf f' e'.
Proof. intros Hf H. injection H as H1 _. contradiction. Qed.

(** The two messages of the update tail differ whatever the causes are:
    they part at the eighth byte. *)
Lemma update_and_wait_messages_differ (Quote : string -> string)
    (e e' : error) :
  Error Quote (Errorf "cannot update vm: " e)
  <> Error Quote
       (Errorf "cannot get the vm create or update future response: " e').
Proof. simpl. intros H. discriminate H. Qed.

(* ================================================================== *)
(** ** The monad: stepping a run *)
(* ================================================================== *)

Ltac step_run :=
  unfold bind, getConfig, putConfig, perform, performOnConfig, ret, deref,
    panic, spin in *;
  simpl in *.

Lemma bind_returns {W A B : Type} (m : M W A) (k : A -> M W B)
    (st st' : St W) (v : A) :
  m st = (Returns v, st') -> bind m k st = k v st'.
Proof. intros H. unfold bind. rewrite H. reflexivity. Qed.

Lemma bind_panics {W A B : Type} (m : M W A) (k : A -> M W B)
    (st st' : St W) (why : RuntimeError) :
  m st = (Panics why, st') -> bind m k st = (Panics why, st').
Proof. intros H. unfold bind. rewrite H. reflexivity. Qed.

Lemma bind_inv {W A B : Type} (m : M W A) (k : A -> M W B)
    (st st' : St W) (b : B) :
  bind m k st = (Returns b, st') ->
  exists v st1, m st = (Returns v, st1) /\ k v st1 = (Returns b, st').
Proof.
  unfold bind. destruct (m st) as [[v | why |] st1]; intros H;
    try discriminate H.
  exists v, st1. split; [reflexivity | exact H].
Qed.

(* ================================================================== *)
(** ** The stub backend *)
(* ================================================================== *)

(** C9.  Each of the five operations of the stub backend, whatever its
    arguments, returns no error and the zero value of its result type (the
    empty volume record, the nil list, nothing), and makes no call: the
    state it runs in, log of calls included, is left as it was. *)
Theorem stub_backend_is_a_no_op :
  forall (World IBM Context : Type) (v : IBM) (ctx : Context)
         (name data provider image : string) (attachID : Z) (st : St World),
    ibm.CreateVolume v ctx name data provider st
    = (Returns (zeroVolume, None), st)
    /\ ibm.GetAllVolumes v ctx st = (Returns (None, None), st)
    /\ ibm.DeleteVolume v ctx name st = (Returns None, st)
    /\ ibm.AttachVolume v ctx image name attachID st = (Returns None, st)
    /\ ibm.DetachVolume v ctx image name st = (Returns None, st).
Proof. intros. repeat split. Qed.

(* ================================================================== *)
(** ** [CreateVolume] *)
(* ================================================================== *)

Section CreateVolumeFacts.
Variables World Page : Type.
Variable cloud : Cloud World Page.
Variable a : Azure.
Variables name data size provider : string.
Variable st : St World.

(** The size does not parse: nothing is called, nothing is written. *)
Lemma CreateVolume_invalid_size (e : error) :
  Atoi size = inl e ->
  CreateVolume cloud a name data size provider st
  = (Returns (zeroVolume, Some e), st).
Proof.
  intros HA. unfold CreateVolume. step_run. rewrite HA. reflexivity.
Qed.

(** The local synthesis fails: the upload is not attempted. *)
Lemma CreateVolume_synthesis_fails
    (n : Z) (c1 : Config) (vol : NanosVolume) (e : error) (w1 : World) :
  Atoi size = inr n ->
  CreateLocalVolume cloud (conf st) name data size provider (world st)
  = ((c1, (vol, Some e)), w1) ->
  CreateVolume cloud a name data size provider st
  = (Returns (vol, Some (Errorf "create local volume: " e)),
     {| world := w1; conf := c1; log := (log st ++ [EvCreateLocalVolume (conf st) name data size provider])%list |}).
Proof.
  intros HA HS. unfold CreateVolume. step_run. rewrite HA. step_run.
  rewrite HS. reflexivity.
Qed.

(** The upload fails: the disk-creation request is not made. *)
Lemma CreateVolume_upload_fails
    (n : Z) (c1 c2 : Config) (vol : NanosVolume) (e : error)
    (w1 w2 : World) :
  Atoi size = inr n ->
  CreateLocalVolume cloud (conf st) name data size provider (world st)
  = ((c1, (vol, None)), w1) ->
  CopyToBucket cloud (setImageName name c1) (Path vol) w1
  = ((c2, Some e), w2) ->
  CreateVolume cloud a name data size provider st
  = (Returns
       (vol, Some (Errorf "copy volume archive to azure bucket: " e)),
     {| world := w2; conf := c2;
        log :=
          ((log st ++ [EvCreateLocalVolume (conf st) name data size provider])
           ++ [EvCopyToBucket (setImageName name c1) (Path vol)])%list |}).
Proof.
  intros HA HS HU. unfold CreateVolume. step_run. rewrite HA. step_run.
  rewrite HS. simpl. rewrite HU. reflexivity.
Qed.

(** Synthesis and upload succeed: one disk-creation request is made, and
    its outcome is the outcome of [CreateVolume]. *)
Lemma CreateVolume_reaches_creation
    (n : Z) (c1 c2 : Config) (vol : NanosVolume) (w1 w2 : World) :
  Atoi size = inr n ->
  CreateLocalVolume cloud (conf st) name data size provider (world st)
  = ((c1, (vol, None)), w1) ->
  CopyToBucket cloud (setImageName name c1) (Path vol) w1
  = ((c2, None), w2) ->
  let params :=
    diskParams a (getLocation cloud a (conf st)) name (bucketOf a c2) n in
  let r :=
    Disks_CreateOrUpdate cloud (getDisksClient cloud a) (groupName a) name
      params w2 in
  CreateVolume cloud a name data size provider st
  = (Returns (vol, fst r),
     {| world := snd r; conf := c2;
        log :=
          (((log st ++ [EvCreateLocalVolume (conf st) name data size provider])
            ++ [EvCopyToBucket (setImageName name c1) (Path vol)])
           ++ [EvDisksCreateOrUpdate (groupName a) name params])%list |}).
Proof.
  intros HA HS HU params r. unfold CreateVolume. step_run. rewrite HA.
  step_run. rewrite HS. simpl. rewrite HU. simpl.
  fold (bucketOf a c2). fold params. fold r.
  destruct r as [[e |] w3]; reflexivity.
Qed.

End CreateVolumeFacts.

Lemma createdDisks_app (xs ys : list Event) :
  createdDisks (xs ++ ys) = (createdDisks xs ++ createdDisks ys)%list.
Proof.
  induction xs as [| ev xs IH]; simpl; [reflexivity |].
  destruct ev; simpl; rewrite IH; reflexivity.
Qed.

(** C7.  [CreateVolume] stops at its first failure, in this order: a size
    that [Atoi] rejects is returned at once, with no call of any kind and
    the state untouched; a failed local synthesis is returned before the
    upload; a failed upload is returned before the disk-creation request;
    in these three cases the log holds no disk-creation request.  When the
    provider rejects the disk creation, its error is what [CreateVolume]
    returns. *)
Theorem CreateVolume_aborts_at_first_failure :
  forall (World Page : Type) (cloud : Cloud World Page) (a : Azure)
         (name data size provider : string) (st : St World),
    let out := CreateVolume cloud a name data size provider st in
    let synth := EvCreateLocalVolume (conf st) name data size provider in
    (forall e, Atoi size = inl e -> out = (Returns (zeroVolume, Some e), st))
    /\ (forall n c1 vol e w1,
          Atoi size = inr n ->
          CreateLocalVolume cloud (conf st) name data size provider (world st)
          = ((c1, (vol, Some e)), w1) ->
          fst out = Returns (vol, Some (Errorf "create local volume: " e))
          /\ log (snd out) = (log st ++ [synth])%list
          /\ createdDisks (log (snd out)) = createdDisks (log st))
    /\ (forall n c1 vol w1 c2 e w2,
          Atoi size = inr n ->
          CreateLocalVolume cloud (conf st) name data size provider (world st)
          = ((c1, (vol, None)), w1) ->
          CopyToBucket cloud (setImageName name c1) (Path vol) w1
          = ((c2, Some e), w2) ->
          fst out
          = Returns
              (vol, Some (Errorf "copy volume archive to azure bucket: " e))
          /\ log (snd out)
             = (log st
                ++ [synth; EvCopyToBucket (setImageName name c1) (Path vol)])%list
          /\ createdDisks (log (snd out)) = createdDisks (log st))
    /\ (forall n c1 vol w1 c2 w2 e w3,
          Atoi size = inr n ->
          CreateLocalVolume cloud (conf st) name data size provider (world st)
          = ((c1, (vol, None)), w1) ->
          CopyToBucket cloud (setImageName name c1) (Path vol) w1
          = ((c2, None), w2) ->
          Disks_CreateOrUpdate cloud (getDisksClient cloud a) (groupName a)
            name
            (diskParams a (getLocation cloud a (conf st)) name
               (bucketOf a c2) n)
            w2
          = (Some e, w3) ->
          fst out = Returns (vol, Some e)).
Proof.
  intros World Page cloud a name data size provider st out synth.
  subst out synth.
  split; [| split; [| split]].
  - intros e HA. apply CreateVolume_invalid_size; assumption.
  - intros n c1 vol e w1 HA HS.
    erewrite CreateVolume_synthesis_fails by eassumption. simpl.
    rewrite createdDisks_app. simpl. rewrite app_nil_r. auto.
  - intros n c1 vol w1 c2 e w2 HA HS HU.
    erewrite CreateVolume_upload_fails by eassumption. simpl.
    rewrite !createdDisks_app. simpl. rewrite !app_nil_r.
    rewrite <- app_assoc. auto.
  - intros n c1 vol w1 c2 w2 e w3 HA HS HU HC.
    erewrite CreateVolume_reaches_creation by eassumption. simpl.
    rewrite HC. reflexivity.
Qed.

(** C8.  Once the size has parsed and the local synthesis has succeeded,
    the upload collaborator is called on the configuration the synthesis
    left, with [ImageName] set to the volume name and nothing else changed;
    the configuration the caller finds afterwards is the one the upload
    collaborator left, so an upload that does not write to it leaves
    [ImageName] equal to the volume name. *)
Theorem CreateVolume_sets_ImageName_before_upload :
  forall (World Page : Type) (cloud : Cloud World Page) (a : Azure)
         (name data size provider : string) (st : St World)
         (n : Z) (c1 : Config) (vol : NanosVolume) (w1 : World),
    Atoi size = inr n ->
    CreateLocalVolume cloud (conf st) name data size provider (world st)
    = ((c1, (vol, None)), w1) ->
    let out := CreateVolume cloud a name data size provider st in
    let uploaded := setImageName name c1 in
    let left := fst (fst (CopyToBucket cloud uploaded (Path vol) w1)) in
    ImageName (CloudConfig_ uploaded) = name
    /\ BucketName (CloudConfig_ uploaded) = BucketName (CloudConfig_ c1)
    /\ Zone (CloudConfig_ uploaded) = Zone (CloudConfig_ c1)
    /\ (exists rest,
          log (snd out)
          = (log st
             ++ EvCreateLocalVolume (conf st) name data size provider
                :: EvCopyToBucket uploaded (Path vol) :: rest)%list)
    /\ conf (snd out) = left
    /\ (left = uploaded -> ImageName (CloudConfig_ (conf (snd out))) = name).
Proof.
  intros World Page cloud a name data size provider st n c1 vol w1 HA HS
    out uploaded left.
  assert (Hout : (exists rest,
          log (snd out)
          = (log st
             ++ EvCreateLocalVolume (conf st) name data size provider
                :: EvCopyToBucket uploaded (Path vol) :: rest)%list)
          /\ conf (snd out) = left).
  { subst out left uploaded.
    destruct (CopyToBucket cloud (setImageName name c1) (Path vol) w1)
      as [[c2 [e |]] w2] eqn:HU.
    - erewrite CreateVolume_upload_fails by eassumption. simpl.
      split; [exists [] | reflexivity].
      rewrite <- app_assoc. reflexivity.
    - erewrite CreateVolume_reaches_creation by eassumption. simpl.
      split; [eexists | reflexivity].
      rewrite <- !app_assoc. reflexivity. }
  destruct Hout as [Hlog Hconf].
  repeat split; try assumption.
  intros Hleft. rewrite Hconf, Hleft. reflexivity.
Qed.

(** C1, as the code has it.  For every size string that [Atoi] accepts,
    when synthesis and upload succeed [CreateVolume] makes one
    disk-creation request, for a disk of the given name whose [DiskSizeGB]
    is the parsed number divided by 1000 twice, each division truncating
    toward zero, and narrowed to 32 bits.  Dividing by 1000 twice is
    dividing by 1,000,000 once; the quotient never exceeds the exact ratio
    in absolute value; below [2^31 * 1,000,000] in absolute value the
    narrowing changes nothing.  So 1,999,999 converts to 1, listed as
    ["1"], and the size ["5000000000"] to 5000. *)
Theorem CreateVolume_converts_size_by_1000_twice :
  forall (World Page : Type) (cloud : Cloud World Page) (a : Azure)
         (name data size provider : string) (st : St World)
         (n : Z) (c1 c2 : Config) (vol : NanosVolume) (w1 w2 : World),
    Atoi size = inr n ->
    CreateLocalVolume cloud (conf st) name data size provider (world st)
    = ((c1, (vol, None)), w1) ->
    CopyToBucket cloud (setImageName name c1) (Path vol) w1
    = ((c2, None), w2) ->
    let out := CreateVolume cloud a name data size provider st in
    (exists d,
        createdDisks (log (snd out)) = (createdDisks (log st) ++ [d])%list
        /\ Disk_Name d = Some name
        /\ diskSizeGB d = Some (int32 (n ÷ 1000 ÷ 1000)))
    /\ n ÷ 1000 ÷ 1000 = n ÷ 1000000
    /\ Z.abs (1000000 * (n ÷ 1000000)) <= Z.abs n
    /\ (Z.abs n < 2 ^ 31 * 1000000 -> int32 (n ÷ 1000 ÷ 1000) = n ÷ 1000000)
    /\ sizeInGB 1999999 = 1 /\ Itoa (sizeInGB 1999999) = "1"
    /\ Atoi "5000000000" = inr 5000000000 /\ sizeInGB 5000000000 = 5000.
Proof.
  intros World Page cloud a name data size provider st n c1 c2 vol w1 w2
    HA HS HU out.
  split; [| split; [| split; [| split]]].
  - subst out.
    erewrite CreateVolume_reaches_creation by eassumption. simpl.
    eexists. rewrite !createdDisks_app. simpl. rewrite !app_nil_r.
    split; [reflexivity |]. split; reflexivity.
  - apply quot_1000_twice.
  - apply quot_truncates.
  - intros Hn. rewrite quot_1000_twice.
    pose proof (quot_truncates n) as [Hq _].
    apply int32_small. lia.
  - repeat split.
Qed.

(** The conversion on the simulated provider, for the size
    ["5000000000"]. *)
Lemma CreateVolume_converts_size_by_1000_twice_witness :
  (Atoi "5000000000" = inr 5000000000
   /\ CreateLocalVolume Sim.cloud Sim.config "vol1" "" "5000000000" "azure"
        (Sim.account [] [])
      = ((Sim.config, (Sim.localVolume "vol1" "5000000000", None)),
         Sim.account [] [])
   /\ CopyToBucket Sim.cloud (setImageName "vol1" Sim.config)
        "/tmp/vol1.raw" (Sim.account [] [])
      = ((setImageName "vol1" Sim.config, None), Sim.account [] []))
  /\ exists d,
      createdDisks
        (log
           (snd
              (CreateVolume Sim.cloud Sim.azure "vol1" "" "5000000000"
                 "azure" (Sim.start (Sim.account [] [])))))
      = [d]
      /\ Disk_Name d = Some "vol1"
      /\ diskSizeGB d = Some 5000.
Proof.
  split; [repeat split |].
  exact
    (proj1
       (@CreateVolume_converts_size_by_1000_twice _ _ Sim.cloud Sim.azure
          "vol1" "" "5000000000" "azure" (Sim.start (Sim.account [] []))
          5000000000 Sim.config (setImageName "vol1" Sim.config)
          (Sim.localVolume "vol1" "5000000000")
          (Sim.account [] []) (Sim.account [] [])
          eq_refl eq_refl eq_refl)).
Defined.

(** C1, as stated, fails on the scenario of the specification: for the
    size ["5000000000"] the one disk-creation request carries the size
    5000 and no request carries 5; and the conversion is not a division by
    1,000,000 twice, which gives 0 for 5,000,000,000 and for 1,999,999. *)
Lemma CreateVolume_5000000000_is_not_5_GB :
  map diskSizeGB
    (createdDisks
       (log
          (snd
             (CreateVolume Sim.cloud Sim.azure "vol1" "" "5000000000"
                "azure" (Sim.start (Sim.account [] []))))))
  = [Some 5000]
  /\ ~ (exists d,
          In d
            (createdDisks
               (log
                  (snd
                     (CreateVolume Sim.cloud Sim.azure "vol1" ""
                        "5000000000" "azure"
                        (Sim.start (Sim.account [] []))))))
          /\ diskSizeGB d = Some 5)
  /\ sizeInGB 5000000000 <> 5000000000 ÷ 1000000 ÷ 1000000
  /\ sizeInGB 1999999 <> 1999999 ÷ 1000000 ÷ 1000000.
Proof.
  split; [reflexivity |]. split; [| split; discriminate].
  intros [d [Hin Hsize]].
  simpl in Hin. destruct Hin as [Hd | []].
  subst d. discriminate Hsize.
Qed.

(** The four failures on the simulated provider: the size ["5G"], then
    a fault at the first, second and third call. *)
Lemma CreateVolume_aborts_at_first_failure_witness :
  CreateVolume Sim.cloud Sim.azure "vol1" "" "5G" "azure"
    (Sim.start (Sim.account [] []))
  = (Returns (zeroVolume, Some (NumError "Atoi" "5G" ErrSyntax)),
     Sim.start (Sim.account [] []))
  /\ (fst
        (CreateVolume Sim.cloud Sim.azure "vol1" "" "5000000000" "azure"
           (Sim.start (Sim.account [] [Some Sim.throttled])))
      = Returns
          (zeroVolume, Some (Errorf "create local volume: " Sim.throttled))
      /\ createdDisks
           (log
              (snd
                 (CreateVolume Sim.cloud Sim.azure "vol1" "" "5000000000"
                    "azure"
                    (Sim.start (Sim.account [] [Some Sim.throttled])))))
         = [])
  /\ (fst
        (CreateVolume Sim.cloud Sim.azure "vol1" "" "5000000000" "azure"
           (Sim.start (Sim.account [] [None; Some Sim.throttled])))
      = Returns
          (Sim.localVolume "vol1" "5000000000",
           Some
             (Errorf "copy volume archive to azure bucket: " Sim.throttled))
      /\ createdDisks
           (log
              (snd
                 (CreateVolume Sim.cloud Sim.azure "vol1" "" "5000000000"
                    "azure"
                    (Sim.start (Sim.account [] [None; Some Sim.throttled])))))
         = [])
  /\ fst
       (CreateVolume Sim.cloud Sim.azure "vol1" "" "5000000000" "azure"
          (Sim.start (Sim.account [] [None; None; Some Sim.throttled])))
     = Returns (Sim.localVolume "vol1" "5000000000", Some Sim.throttled).
Proof.
  split; [| split; [| split]].
  - exact
      (proj1
         (@CreateVolume_aborts_at_first_failure _ _ Sim.cloud Sim.azure
            "vol1" "" "5G" "azure" (Sim.start (Sim.account [] [])))
         _ eq_refl).
  - destruct
      (proj1 (proj2
         (@CreateVolume_aborts_at_first_failure _ _ Sim.cloud Sim.azure
            "vol1" "" "5000000000" "azure"
            (Sim.start (Sim.account [] [Some Sim.throttled]))))
         5000000000 Sim.config zeroVolume Sim.throttled (Sim.account [] [])
         eq_refl eq_refl)
      as [Hout [_ Hnone]].
    split; [exact Hout | exact Hnone].
  - destruct
      (proj1 (proj2 (proj2
         (@CreateVolume_aborts_at_first_failure _ _ Sim.cloud Sim.azure
            "vol1" "" "5000000000" "azure"
            (Sim.start (Sim.account [] [None; Some Sim.throttled])))))
         5000000000 Sim.config (Sim.localVolume "vol1" "5000000000")
         (Sim.account [] [Some Sim.throttled])
         (setImageName "vol1" Sim.config) Sim.throttled (Sim.account [] [])
         eq_refl eq_refl eq_refl)
      as [Hout [_ Hnone]].
    split; [exact Hout | exact Hnone].
  - exact
      (proj2 (proj2 (proj2
         (@CreateVolume_aborts_at_first_failure _ _ Sim.cloud Sim.azure
            "vol1" "" "5000000000" "azure"
            (Sim.start (Sim.account [] [None; None; Some Sim.throttled])))))
         5000000000 Sim.config (Sim.localVolume "vol1" "5000000000")
         (Sim.account [] [None; Some Sim.throttled])
         (setImageName "vol1" Sim.config)
         (Sim.account [] [Some Sim.throttled])
         Sim.throttled (Sim.account [] [])
         eq_refl eq_refl eq_refl eq_refl).
Defined.

(** The upload of ["vol1"] on the simulated provider. *)
Lemma CreateVolume_sets_ImageName_before_upload_witness :
  (Atoi "5000000000" = inr 5000000000
   /\ CreateLocalVolume Sim.cloud Sim.config "vol1" "" "5000000000" "azure"
        (Sim.account [] [])
      = ((Sim.config, (Sim.localVolume "vol1" "5000000000", None)),
         Sim.account [] []))
  /\ (exists rest,
         log
           (snd
              (CreateVolume Sim.cloud Sim.azure "vol1" "" "5000000000"
                 "azure" (Sim.start (Sim.account [] []))))
         = EvCreateLocalVolume Sim.config "vol1" "" "5000000000" "azure"
             :: EvCopyToBucket
                  {| CloudConfig_ :=
                       {| ImageName := "vol1"; BucketName := "";
                          Zone := "westus2" |} |}
                  "/tmp/vol1.raw"
             :: rest)
  /\ ImageName
       (CloudConfig_
          (conf
             (snd
                (CreateVolume Sim.cloud Sim.azure "vol1" "" "5000000000"
                   "azure" (Sim.start (Sim.account [] []))))))
     = "vol1".
Proof.
  split; [repeat split |].
  destruct
    (@CreateVolume_sets_ImageName_before_upload _ _ Sim.cloud Sim.azure
       "vol1" "" "5000000000" "azure" (Sim.start (Sim.account [] []))
       5000000000 Sim.config (Sim.localVolume "vol1" "5000000000")
       (Sim.account [] []) eq_refl eq_refl)
    as [_ [_ [_ [Hlog [_ Hname]]]]].
  split; [exact Hlog | exact (Hname eq_refl)].
Defined.

(* ================================================================== *)
(** ** [AttachVolume] and [DetachVolume] *)
(* ================================================================== *)

Section UpdateFacts.
Variables World Page : Type.
Variable cloud : Cloud World Page.
Variable a : Azure.

(** The tail of both operations, by the outcome of the two provider
    calls: a rejected submission is returned without waiting; otherwise
    the notice is printed, the wait is made, and its outcome decides. *)
Lemma updateAndWait_run (vmClient : BaseClient) (image : string)
    (vm : VirtualMachine) (notice : string) (st : St World) :
  updateAndWait cloud a vmClient image vm notice st
  = match VM_CreateOrUpdate cloud vmClient (groupName a) image vm (world st)
    with
    | (inl e, w1) =>
        (Returns (Some (Errorf "cannot update vm: " e)),
         {| world := w1; conf := conf st;
            log := (log st ++ [EvVMCreateOrUpdate (groupName a) image vm])%list
         |})
    | (inr future, w1) =>
        let r := WaitForCompletionRef cloud future vmClient w1 in
        (Returns
           (match fst r with
            | Some e =>
                Some
                  (Errorf
                     "cannot get the vm create or update future response: "
                     e)
            | None => None
            end),
         {| world := snd r; conf := conf st;
            log :=
              (((log st ++ [EvVMCreateOrUpdate (groupName a) image vm])
                ++ [EvPrintln notice])
               ++ [EvWaitForCompletionRef future])%list |})
    end.
Proof.
  unfold updateAndWait. step_run.
  destruct (VM_CreateOrUpdate cloud vmClient (groupName a) image vm (world st))
    as [[e | future] w1]; simpl; [reflexivity |].
  destruct (WaitForCompletionRef cloud future vmClient w1) as [[e |] w2];
    reflexivity.
Qed.

Lemma setDataDisks_run (vm : VirtualMachine)
    (props : VirtualMachineProperties) (profile : StorageProfile)
    (dataDisks : list DataDisk) (st : St World) :
  VirtualMachineProperties_ vm = Some props ->
  StorageProfile_ props = Some profile ->
  setDataDisks vm dataDisks st
  = (Returns (withDataDisks vm props profile dataDisks), st).
Proof.
  intros Hp Hs. unfold setDataDisks. step_run. rewrite Hp. simpl.
  rewrite Hs. reflexivity.
Qed.

(** Filtering out a name that no entry carries keeps every entry, in
    order, after what was already kept. *)
Lemma keepOthers_absent (name : string) (disks : list DataDisk) :
  Forall (namedOtherThan name) disks ->
  forall (kept : list DataDisk) (st : St World),
    keepOthers name disks kept st = (Returns (kept ++ disks)%list, st).
Proof.
  induction 1 as [| d disks [n [Hn Hneq]] _ IH]; intros kept st; simpl.
  - rewrite app_nil_r. reflexivity.
  - step_run. rewrite Hn. simpl.
    apply String.eqb_neq in Hneq. rewrite Hneq. simpl.
    rewrite IH. rewrite <- app_assoc. reflexivity.
Qed.

(** What the filter keeps in general: the entries whose name differs. *)
Lemma keepOthers_filter (name : string) (disks : list DataDisk) :
  Forall (fun d => named d = true) disks ->
  forall (kept : list DataDisk) (st : St World),
    keepOthers name disks kept st
    = (Returns
         (kept
          ++ filter
               (fun d =>
                  match DataDisk_Name d with
                  | Some n => negb (String.eqb n name)
                  | None => false
                  end)
               disks)%list,
       st).
Proof.
  induction 1 as [| d disks Hd _ IH]; intros kept st; simpl.
  - rewrite app_nil_r. reflexivity.
  - unfold named in Hd. step_run.
    destruct (DataDisk_Name d) as [n |]; [| discriminate Hd]. simpl.
    destruct (String.eqb n name); simpl; rewrite IH.
    + reflexivity.
    + rewrite <- app_assoc. reflexivity.
Qed.

(** A missing name makes the filter panic, whatever precedes it. *)
Lemma keepOthers_unnamed (name : string) (disks : list DataDisk) :
  Exists (fun d => named d = false) disks ->
  forall (kept : list DataDisk) (st : St World),
    keepOthers name disks kept st = (Panics NilDereference, st).
Proof.
  induction disks as [| d disks IH]; intros HE kept st.
  - inversion HE.
  - simpl. step_run. unfold named in HE.
    destruct (DataDisk_Name d) as [n |] eqn:Hn; simpl.
    + assert (HE' : Exists (fun d => named d = false) disks).
      { inversion HE as [? ? Hd | ? ? Hrest]; subst.
        - rewrite Hn in Hd. discriminate Hd.
        - exact Hrest. }
      destruct (negb (String.eqb n name)); apply IH; exact HE'.
    + reflexivity.
Qed.

Lemma withDataDisks_same (vm : VirtualMachine)
    (props : VirtualMachineProperties) (profile : StorageProfile)
    (dataDisks : list DataDisk) :
  VirtualMachineProperties_ vm = Some props ->
  StorageProfile_ props = Some profile ->
  DataDisks profile = Some dataDisks ->
  withDataDisks vm props profile dataDisks = vm.
Proof.
  intros Hp Hs Hd. destruct vm, props, profile. simpl in *. subst.
  reflexivity.
Qed.

Lemma withDataDisks_frame (vm : VirtualMachine)
    (props : VirtualMachineProperties) (profile : StorageProfile)
    (dataDisks : list DataDisk) :
  VirtualMachineProperties_ vm = Some props ->
  StorageProfile_ props = Some profile ->
  sameButDataDisks vm (withDataDisks vm props profile dataDisks).
Proof.
  intros Hp Hs. unfold sameButDataDisks. simpl.
  do 3 (split; [reflexivity |]).
  exists props. eexists. exists profile. eexists.
  split; [exact Hp |]. split; [reflexivity |]. simpl.
  do 2 (split; [reflexivity |]).
  split; [exact Hs |]. split; [reflexivity |]. simpl.
  split; reflexivity.
Qed.

End UpdateFacts.

Lemma AttachVolume_run :
  forall (World Page : Type) (cloud : Cloud World Page) (a : Azure)
         (image name mount : string) (st : St World)
         (vm : VirtualMachine) (disk : Disk) (id : string)
         (props : VirtualMachineProperties) (profile : StorageProfile)
         (w1 w2 : World),
    VM_Get cloud (getVMClient cloud a) (groupName a) image InstanceView
      (world st)
    = (inr vm, w1) ->
    Disks_Get cloud (getDisksClient cloud a) (groupName a) name w1
    = (inr disk, w2) ->
    Disk_ID disk = Some id ->
    VirtualMachineProperties_ vm = Some props ->
    StorageProfile_ props = Some profile ->
    AttachVolume cloud a image name mount st
    = updateAndWait cloud a (getVMClient cloud a) image
        (withDataDisks vm props profile [attachment name id]) attachNotice
        {| world := w2; conf := conf st;
           log :=
             ((log st ++ [EvVMGet (groupName a) image InstanceView])
              ++ [EvDisksGet (groupName a) name])%list |}.
Proof.
  intros World Page cloud a image name mount st vm disk id props profile
    w1 w2 HG HD Hid Hp Hs.
  unfold AttachVolume, setDataDisks. step_run.
  rewrite HG. simpl. rewrite HD. simpl. rewrite Hid. simpl.
  rewrite Hp. simpl. rewrite Hs. reflexivity.
Qed.

(** C2.  When both lookups succeed on populated descriptors,
    [AttachVolume] fetches the instance, then the disk, and submits the
    instance descriptor with its data-disk list replaced by the single
    entry for the named disk at logical unit 0, whatever the list held
    before, and every other field as fetched.  A rejected submission is
    returned, wrapped as ["cannot update vm: "], without any wait;
    an accepted one is followed by the notice and by the wait on the
    returned operation, and [AttachVolume] returns only after it, with
    [nil] when the wait succeeds and with the wait's error wrapped as
    ["cannot get the vm create or update future response: "] when it
    fails.  The two wrapped errors are never equal, nor are their
    messages. *)
Theorem AttachVolume_replaces_data_disks_and_waits :
  forall (World Page : Type) (cloud : Cloud World Page) (a : Azure)
         (image name mount : string) (st : St World)
         (vm : VirtualMachine) (disk : Disk) (id : string)
         (props : VirtualMachineProperties) (profile : StorageProfile)
         (w1 w2 : World),
    VM_Get cloud (getVMClient cloud a) (groupName a) image InstanceView
      (world st)
    = (inr vm, w1) ->
    Disks_Get cloud (getDisksClient cloud a) (groupName a) name w1
    = (inr disk, w2) ->
    Disk_ID disk = Some id ->
    VirtualMachineProperties_ vm = Some props ->
    StorageProfile_ props = Some profile ->
    let vm' := withDataDisks vm props profile [attachment name id] in
    let out := AttachVolume cloud a image name mount st in
    let lookups :=
      [EvVMGet (groupName a) image InstanceView;
       EvDisksGet (groupName a) name] in
    let submit := EvVMCreateOrUpdate (groupName a) image vm' in
    dataDisksOf vm' = Some [attachment name id]
    /\ Lun (attachment name id) = Some 0
    /\ DataDisk_Name (attachment name id) = Some name
    /\ sameButDataDisks vm vm'
    /\ (forall e w3,
          VM_CreateOrUpdate cloud (getVMClient cloud a) (groupName a) image
            vm' w2
          = (inl e, w3) ->
          fst out = Returns (Some (Errorf "cannot update vm: " e))
          /\ log (snd out) = (log st ++ lookups ++ [submit])%list)
    /\ (forall future w3 r w4,
          VM_CreateOrUpdate cloud (getVMClient cloud a) (groupName a) image
            vm' w2
          = (inr future, w3) ->
          WaitForCompletionRef cloud future (getVMClient cloud a) w3
          = (r, w4) ->
          log (snd out)
          = (log st ++ lookups
             ++ [submit; EvPrintln attachNotice;
                 EvWaitForCompletionRef future])%list
          /\ world (snd out) = w4
          /\ fst out
             = Returns
                 (match r with
                  | Some e =>
                      Some
                        (Errorf
                           "cannot get the vm create or update future response: "
                           e)
                  | None => None
                  end))
    /\ (forall e e',
          Errorf "cannot update vm: " e
          <> Errorf "cannot get the vm create or update future response: " e')
    /\ (forall Quote e e',
          Error Quote (Errorf "cannot update vm: " e)
          <> Error Quote
               (Errorf
                  "cannot get the vm create or update future response: " e')).
Proof.
  intros World Page cloud a image name mount st vm disk id props profile
    w1 w2 HG HD Hid Hp Hs vm' out lookups submit.
  assert (Hout : out
                 = updateAndWait cloud a (getVMClient cloud a) image vm'
                     attachNotice
                     {| world := w2; conf := conf st;
                        log :=
                          ((log st
                            ++ [EvVMGet (groupName a) image InstanceView])
                           ++ [EvDisksGet (groupName a) name])%list |}).
  { subst out vm'. eapply AttachVolume_run; eassumption. }
  rewrite updateAndWait_run in Hout. simpl in Hout.
  split; [reflexivity |]. split; [reflexivity |]. split; [reflexivity |].
  split; [apply withDataDisks_frame; assumption |].
  split; [| split; [| split]].
  - intros e w3 HU. rewrite HU in Hout. rewrite Hout. simpl.
    split; [reflexivity |]. subst lookups submit.
    rewrite <- !app_assoc. reflexivity.
  - intros future w3 r w4 HU HW. rewrite HU, HW in Hout. rewrite Hout.
    simpl. split; [| split; reflexivity]. subst lookups submit.
    rewrite <- !app_assoc. reflexivity.
  - intros e e'. apply Errorf_inj_format. discriminate.
  - intros Quote e e'. apply update_and_wait_messages_differ.
Qed.

(** Attaching ["vol1"] to the instance ["web"], which holds two data
    disks: both are dropped from the submitted list. *)
Lemma AttachVolume_replaces_data_disks_and_waits_witness :
  dataDisksOf
    (Sim.vm "web" (Some [Sim.dataDisk 0 "vol2"; Sim.dataDisk 1 "vol9"]))
  = Some [Sim.dataDisk 0 "vol2"; Sim.dataDisk 1 "vol9"]
  /\ log
       (snd
          (AttachVolume Sim.cloud Sim.azure "web" "vol1" ""
             (Sim.start (Sim.account [[Sim.d1]] []))))
     = [EvVMGet "rg-1" "web" InstanceView;
        EvDisksGet "rg-1" "vol1";
        EvVMCreateOrUpdate "rg-1" "web"
          (Sim.vm "web"
             (Some [attachment "vol1" "/subscriptions/sub-1/disks/vol1"]));
        EvPrintln attachNotice;
        EvWaitForCompletionRef {| PollingURL := "web" |}]
  /\ fst
       (AttachVolume Sim.cloud Sim.azure "web" "vol1" ""
          (Sim.start (Sim.account [[Sim.d1]] [])))
     = Returns None.
Proof.
  split; [reflexivity |].
  destruct
    (@AttachVolume_replaces_data_disks_and_waits _ _ Sim.cloud Sim.azure
       "web" "vol1" "" (Sim.start (Sim.account [[Sim.d1]] []))
       (Sim.vm "web" (Some [Sim.dataDisk 0 "vol2"; Sim.dataDisk 1 "vol9"]))
       Sim.d1 "/subscriptions/sub-1/disks/vol1" _ _
       (Sim.account [[Sim.d1]] []) (Sim.account [[Sim.d1]] [])
       eq_refl eq_refl eq_refl eq_refl eq_refl)
    as [_ [_ [_ [_ [_ [Hwait _]]]]]].
  destruct (Hwait _ _ None _ eq_refl eq_refl) as [Hlog [_ Hout]].
  split; [exact Hlog | exact Hout].
Defined.

Lemma submittedVMs_app (xs ys : list Event) :
  submittedVMs (xs ++ ys) = (submittedVMs xs ++ submittedVMs ys)%list.
Proof.
  induction xs as [| ev xs IH]; simpl; [reflexivity |].
  destruct ev; simpl; rewrite IH; reflexivity.
Qed.

Lemma dataDisksOf_inv (vm : VirtualMachine) (ds : list DataDisk) :
  dataDisksOf vm = Some ds ->
  exists props profile,
    VirtualMachineProperties_ vm = Some props
    /\ StorageProfile_ props = Some profile
    /\ DataDisks profile = Some ds.
Proof.
  unfold dataDisksOf. intros H.
  destruct (VirtualMachineProperties_ vm) as [props |]; [| discriminate H].
  destruct (StorageProfile_ props) as [profile |] eqn:Hs; [| discriminate H].
  exists props, profile. auto.
Qed.

(** [DetachVolume] up to its update tail, on a descriptor whose data-disk
    entries all carry a name. *)
Lemma DetachVolume_run :
  forall (World Page : Type) (cloud : Cloud World Page) (a : Azure)
         (image name : string) (st : St World)
         (vm : VirtualMachine) (props : VirtualMachineProperties)
         (profile : StorageProfile) (ds : list DataDisk) (w1 : World),
    VM_Get cloud (getVMClient cloud a) (groupName a) image InstanceView
      (world st)
    = (inr vm, w1) ->
    VirtualMachineProperties_ vm = Some props ->
    StorageProfile_ props = Some profile ->
    DataDisks profile = Some ds ->
    Forall (fun d => named d = true) ds ->
    DetachVolume cloud a image name st
    = updateAndWait cloud a (getVMClient cloud a) image
        (withDataDisks vm props profile
           (filter
              (fun d =>
                 match DataDisk_Name d with
                 | Some n => negb (String.eqb n name)
                 | None => false
                 end)
              ds))
        detachNotice
        {| world := w1; conf := conf st;
           log := (log st ++ [EvVMGet (groupName a) image InstanceView])%list
        |}.
Proof.
  intros World Page cloud a image name st vm props profile ds w1
    HG Hp Hs Hd Hnamed.
  unfold DetachVolume.
  erewrite bind_returns by (unfold perform; rewrite HG; reflexivity).
  cbv beta iota.
  erewrite bind_returns
    by (unfold getDataDisks; step_run; rewrite Hp; simpl; rewrite Hs; simpl;
        rewrite Hd; reflexivity).
  erewrite bind_returns by (apply keepOthers_filter; exact Hnamed).
  erewrite bind_returns by (apply setDataDisks_run; eassumption).
  reflexivity.
Qed.

Lemma filter_absent (name : string) (ds : list DataDisk) :
  Forall (namedOtherThan name) ds ->
  filter
    (fun d =>
       match DataDisk_Name d with
       | Some n => negb (String.eqb n name)
       | None => false
       end)
    ds
  = ds.
Proof.
  induction 1 as [| d ds [n [Hn Hneq]] _ IH]; simpl; [reflexivity |].
  rewrite Hn. apply String.eqb_neq in Hneq. rewrite Hneq. simpl.
  rewrite IH. reflexivity.
Qed.

Lemma namedOtherThan_named (name : string) (ds : list DataDisk) :
  Forall (namedOtherThan name) ds -> Forall (fun d => named d = true) ds.
Proof.
  apply Forall_impl. intros d [n [Hn _]]. unfold named. rewrite Hn.
  reflexivity.
Qed.

(** C3.  When the instance's data-disk list holds no entry of the given
    name, [DetachVolume] submits the descriptor exactly as it fetched it:
    the data-disk list of the one update request is the original list,
    element for element and in order; and it returns [nil] once the
    provider accepts the update and the wait succeeds. *)
Theorem DetachVolume_of_absent_name_changes_nothing :
  forall (World Page : Type) (cloud : Cloud World Page) (a : Azure)
         (image name : string) (st : St World)
         (vm : VirtualMachine) (ds : list DataDisk) (w1 : World),
    VM_Get cloud (getVMClient cloud a) (groupName a) image InstanceView
      (world st)
    = (inr vm, w1) ->
    dataDisksOf vm = Some ds ->
    Forall (namedOtherThan name) ds ->
    let out := DetachVolume cloud a image name st in
    (exists vm',
        submittedVMs (log (snd out)) = (submittedVMs (log st) ++ [vm'])%list
        /\ dataDisksOf vm' = Some ds
        /\ vm' = vm)
    /\ (forall future w2 w3,
          VM_CreateOrUpdate cloud (getVMClient cloud a) (groupName a) image
            vm w1
          = (inr future, w2) ->
          WaitForCompletionRef cloud future (getVMClient cloud a) w2
          = (None, w3) ->
          fst out = Returns None
          /\ log (snd out)
             = (log st
                ++ [EvVMGet (groupName a) image InstanceView;
                    EvVMCreateOrUpdate (groupName a) image vm;
                    EvPrintln detachNotice;
                    EvWaitForCompletionRef future])%list).
Proof.
  intros World Page cloud a image name st vm ds w1 HG Hds Habsent out.
  destruct (dataDisksOf_inv _ Hds) as [props [profile [Hp [Hs Hd]]]].
  assert (Hout : out
                 = updateAndWait cloud a (getVMClient cloud a) image vm
                     detachNotice
                     {| world := w1; conf := conf st;
                        log :=
                          (log st
                           ++ [EvVMGet (groupName a) image InstanceView])%list
                     |}).
  { subst out.
    erewrite DetachVolume_run
      by (try eassumption; apply namedOtherThan_named with name; assumption).
    rewrite (filter_absent Habsent).
    erewrite withDataDisks_same by eassumption. reflexivity. }
  rewrite updateAndWait_run in Hout. simpl in Hout.
  split.
  - exists vm. split; [| split; [exact Hds | reflexivity]].
    rewrite Hout.
    destruct (VM_CreateOrUpdate cloud (getVMClient cloud a) (groupName a)
                image vm w1) as [[e | future] w2]; simpl;
      rewrite !submittedVMs_app; simpl; rewrite ?app_nil_r; reflexivity.
  - intros future w2 w3 HU HW. rewrite HU, HW in Hout. rewrite Hout. simpl.
    split; [reflexivity |]. rewrite <- !app_assoc. reflexivity.
Qed.

(** Detaching ["vol7"], which the instance ["web"] does not hold. *)
Lemma DetachVolume_of_absent_name_changes_nothing_witness :
  submittedVMs
    (log
       (snd
          (DetachVolume Sim.cloud Sim.azure "web" "vol7"
             (Sim.start (Sim.account [] [])))))
  = [Sim.vm "web" (Some [Sim.dataDisk 0 "vol2"; Sim.dataDisk 1 "vol9"])]
  /\ fst
       (DetachVolume Sim.cloud Sim.azure "web" "vol7"
          (Sim.start (Sim.account [] [])))
     = Returns None.
Proof.
  assert (Habsent :
            Forall (namedOtherThan "vol7")
              [Sim.dataDisk 0 "vol2"; Sim.dataDisk 1 "vol9"]).
  { repeat constructor.
    - exists "vol2". split; [reflexivity | discriminate].
    - exists "vol9". split; [reflexivity | discriminate]. }
  destruct
    (@DetachVolume_of_absent_name_changes_nothing _ _ Sim.cloud Sim.azure
       "web" "vol7" (Sim.start (Sim.account [] []))
       (Sim.vm "web" (Some [Sim.dataDisk 0 "vol2"; Sim.dataDisk 1 "vol9"]))
       [Sim.dataDisk 0 "vol2"; Sim.dataDisk 1 "vol9"] (Sim.account [] [])
       eq_refl eq_refl Habsent)
    as [[vm' [Hsub [_ Hvm]]] Hok].
  split.
  - rewrite Hsub, Hvm. reflexivity.
  - exact (proj1 (Hok _ _ _ eq_refl eq_refl)).
Defined.

(* ================================================================== *)
(** ** [GetAllVolumes] *)
(* ================================================================== *)

(** [Split] ends with a segment free of the separator; the input is that
    segment alone, or it ends with the separator followed by it. *)
Lemma Split_last (sep : ascii) (s : string) :
  exists front seg,
    Split s sep = (front ++ [seg])%list
    /\ lacks sep seg = true
    /\ (front = [] -> s = seg)
    /\ (front <> [] -> exists pre, s = pre ++ String sep seg).
Proof.
  induction s as [| c s IH].
  - exists [], "". simpl. repeat split; try reflexivity.
    intros H. contradiction H. reflexivity.
  - destruct IH as [front [seg [HS [Hlacks [Hone Hmany]]]]].
    simpl. destruct (Ascii.eqb c sep) eqn:Hc.
    + apply Ascii.eqb_eq in Hc. subst c.
      exists ("" :: front)%list, seg. rewrite HS.
      repeat split; try assumption; try discriminate.
      intros _. destruct front as [| f fs].
      * exists "". rewrite (Hone eq_refl). reflexivity.
      * destruct Hmany as [pre Hpre]; [discriminate |].
        exists (String sep pre). rewrite Hpre. reflexivity.
    + rewrite HS. destruct front as [| f fs]; simpl.
      * exists [], (String c seg). simpl. rewrite Hc, Hlacks.
        repeat split; try reflexivity.
        -- intros _. rewrite (Hone eq_refl). reflexivity.
        -- intros H. contradiction H. reflexivity.
      * exists (String c f :: fs)%list, seg.
        repeat split; try assumption; try discriminate.
        intros _. destruct Hmany as [pre Hpre]; [discriminate |].
        exists (String c pre). rewrite Hpre. reflexivity.
Qed.

Lemma index_last {A : Type} (front : list A) (x : A) :
  index (front ++ [x]) (len (front ++ [x]) - 1) = Some x.
Proof.
  unfold index, len. rewrite length_app. simpl.
  replace (Z.of_nat (List.length front + 1) - 1)
    with (Z.of_nat (List.length front)) by lia.
  destruct (Z.of_nat (List.length front) <? 0) eqn:Hneg;
    [apply Z.ltb_lt in Hneg; lia |].
  rewrite Nat2Z.id. rewrite nth_error_app2 by lia.
  rewrite Nat.sub_diag. reflexivity.
Qed.

(** The last element of the split reference always exists, and it is the
    trailing segment of the reference. *)
Lemma attachedToOf_trailing (World : Type) (ref : string) (st : St World) :
  exists seg,
    attachedToOf (Some ref) st = (Returns seg, st)
    /\ trailingSegment ref seg.
Proof.
  destruct (Split_last "/" ref) as [front [seg [HS [Hlacks [Hone Hmany]]]]].
  exists seg. unfold attachedToOf. rewrite HS, index_last.
  split; [reflexivity |]. split; [exact Hlacks |].
  destruct front as [| f fs].
  - left. apply Hone. reflexivity.
  - right. destruct Hmany as [pre Hpre]; [discriminate |].
    exists pre. exact Hpre.
Qed.

Lemma Forall2_In_r {A B : Type} (R : A -> B -> Prop)
    (xs : list A) (ys : list B) :
  Forall2 R xs ys -> Forall (fun y => exists x, In x xs /\ R x y) ys.
Proof.
  induction 1 as [| x y xs ys Hxy _ IH]; constructor.
  - exists x. split; [left; reflexivity | exact Hxy].
  - eapply Forall_impl; [| exact IH].
    intros y' [x' [Hin Hr]]. exists x'. split; [right; exact Hin | exact Hr].
Qed.

Section ListingFacts.
Variables World Page : Type.
Variable cloud : Cloud World Page.
Variable a : Azure.

(** A descriptor that lacks a field the listing reads makes it panic. *)
Lemma volumeOfDisk_panics (d : Disk) (st : St World) :
  listable d = false -> volumeOfDisk d st = (Panics NilDereference, st).
Proof.
  intros Hl. unfold volumeOfDisk, listable in *.
  assert (Hat : exists seg, attachedToOf (ManagedBy d) st = (Returns seg, st)).
  { destruct (ManagedBy d) as [ref |].
    - destruct (attachedToOf_trailing ref st) as [seg [H _]]. eauto.
    - exists "". reflexivity. }
  destruct Hat as [seg Hat].
  rewrite (bind_returns _ _ _ Hat). step_run.
  destruct (Disk_Name d) as [n |]; simpl; [| reflexivity].
  destruct (DiskProperties_ d) as [props |]; simpl; [| reflexivity].
  destruct (DiskSizeGB props) as [sz |]; simpl; [| reflexivity].
  destruct (TimeCreated props) as [t |]; simpl; [discriminate Hl |].
  reflexivity.
Qed.

(** A descriptor with those fields yields a volume, and nothing moves. *)
Lemma volumeOfDisk_returns (d : Disk) (st : St World) :
  listable d = true ->
  exists v, volumeOfDisk d st = (Returns v, st) /\ listedAs d v.
Proof.
  intros Hl. unfold volumeOfDisk, listable, listedAs in *.
  destruct (Disk_Name d) as [n |]; [| discriminate Hl].
  destruct (DiskProperties_ d) as [props |]; [| discriminate Hl].
  destruct (DiskSizeGB props) as [sz |] eqn:Hsz; [| discriminate Hl].
  destruct (TimeCreated props) as [t |] eqn:Ht; [| discriminate Hl].
  destruct (ManagedBy d) as [ref |].
  - destruct (attachedToOf_trailing ref st) as [seg [Hat Htr]].
    eexists. rewrite (bind_returns _ _ _ Hat). step_run.
    rewrite Hsz, Ht. simpl. split; [reflexivity |]. simpl.
    split; [reflexivity |].
    split; [exists props, sz, t; repeat split; assumption |].
    split; [reflexivity | exact Htr].
  - eexists. step_run. rewrite Hsz, Ht. simpl. split; [reflexivity |].
    simpl. split; [reflexivity |].
    split; [exists props, sz, t; repeat split; assumption |].
    split; reflexivity.
Qed.

Lemma volumeOfDisk_inv (d : Disk) (st st' : St World) (v : NanosVolume) :
  volumeOfDisk d st = (Returns v, st') -> st' = st /\ listedAs d v.
Proof.
  intros H. destruct (listable d) eqn:Hl.
  - destruct (volumeOfDisk_returns d st Hl) as [v' [Hv' Hrel]].
    rewrite Hv' in H. injection H as <- <-. auto.
  - rewrite (volumeOfDisk_panics d st Hl) in H. discriminate H.
Qed.

Lemma pageNext_returns (page : Page) (st : St World) :
  exists page' st', pageNext cloud page st = (Returns page', st').
Proof.
  unfold pageNext. step_run.
  destruct (Page_Next cloud page (world st)) as [[e page'] w']. simpl.
  eauto.
Qed.

(** The inner loop appends one volume per disk of the page, in the order
    of the page. *)
Lemma rangeDisks_inv (disks : list Disk) :
  forall (page page' : Page) (vols vols' : list NanosVolume)
         (st st' : St World),
    rangeDisks cloud disks page vols st = (Returns (page', vols'), st') ->
    exists new, vols' = (vols ++ new)%list /\ Forall2 listedAs disks new.
Proof.
  induction disks as [| d disks IH]; intros page page' vols vols' st st' H.
  - simpl in H. injection H as _ <- _. exists []. rewrite app_nil_r. auto.
  - simpl in H.
    apply bind_inv in H. destruct H as [v [st1 [Hv H]]].
    apply volumeOfDisk_inv in Hv. destruct Hv as [-> Hrel].
    apply bind_inv in H. destruct H as [p1 [st2 [_ H]]].
    apply IH in H. destruct H as [new [-> Hnew]].
    exists (v :: new). rewrite <- app_assoc. split; [reflexivity |].
    constructor; assumption.
Qed.

(** One descriptor without the fields is enough for the inner loop to
    panic. *)
Lemma rangeDisks_panics (disks : list Disk) :
  Exists (fun d => listable d = false) disks ->
  forall (page : Page) (vols : list NanosVolume) (st : St World),
    fst (rangeDisks cloud disks page vols st) = Panics NilDereference.
Proof.
  induction disks as [| d disks IH]; intros HE page vols st.
  - inversion HE.
  - simpl. destruct (listable d) eqn:Hl.
    + destruct (volumeOfDisk_returns d st Hl) as [v [Hv _]].
      rewrite (bind_returns _ _ _ Hv).
      destruct (pageNext_returns page st) as [p1 [st1 Hp]].
      rewrite (bind_returns _ _ _ Hp).
      apply IH. inversion HE as [? ? Hd | ? ? Hrest]; subst.
      * rewrite Hl in Hd. discriminate Hd.
      * exact Hrest.
    + rewrite (bind_panics _ _ _ (volumeOfDisk_panics d st Hl)).
      reflexivity.
Qed.

(** The inner loop calls [Next()] once per disk of the page, not once per
    page. *)
Lemma rangeDisks_calls_Next_per_disk (disks : list Disk) :
  forall (page : Page) (vols : list NanosVolume) (st st' : St World)
         (r : Page * list NanosVolume),
    rangeDisks cloud disks page vols st = (Returns r, st') ->
    log st' = (log st ++ repeat EvPageNext (List.length disks))%list.
Proof.
  induction disks as [| d disks IH]; intros page vols st st' r H.
  - simpl in H. injection H as _ <-. simpl. rewrite app_nil_r. reflexivity.
  - simpl in H.
    apply bind_inv in H. destruct H as [v [st1 [Hv H]]].
    apply volumeOfDisk_inv in Hv. destruct Hv as [-> _].
    apply bind_inv in H. destruct H as [p1 [st2 [Hn H]]].
    apply IH in H. rewrite H. clear H.
    unfold pageNext in Hn. step_run.
    destruct (Page_Next cloud page (world st)) as [[e p'] w'].
    simpl in Hn. injection Hn as _ <-. simpl.
    rewrite <- app_assoc. reflexivity.
Qed.

(** Every volume the outer loop adds is made from a disk of a page whose
    [Values()] the loop read. *)
Lemma pagesLoop_inv (fuel : nat) :
  forall (page : Page) (vols vols' : list NanosVolume) (st st' : St World),
    pagesLoop cloud fuel page vols st = (Returns vols', st') ->
    exists new,
      vols' = (vols ++ new)%list
      /\ Forall
           (fun v =>
              exists p disks d,
                Page_Values cloud p = Some disks /\ In d disks
                /\ listedAs d v)
           new.
Proof.
  induction fuel as [| fuel IH]; intros page vols vols' st st' H.
  - discriminate H.
  - simpl in H. destruct (Page_Values cloud page) as [disks |] eqn:Hvals.
    + apply bind_inv in H. destruct H as [[p1 vols1] [st1 [Hr H]]].
      apply rangeDisks_inv in Hr. destruct Hr as [new1 [-> Hnew1]].
      apply IH in H. destruct H as [new2 [-> Hnew2]].
      exists (new1 ++ new2)%list. rewrite app_assoc.
      split; [reflexivity |]. apply Forall_app. split; [| exact Hnew2].
      apply Forall2_In_r in Hnew1.
      eapply Forall_impl; [| exact Hnew1].
      intros v [d [Hin Hrel]]. exists page, disks, d. auto.
    + injection H as <- _. exists []. rewrite app_nil_r. auto.
Qed.

End ListingFacts.

Lemma lacks_after_sep (c : ascii) (pre seg : string) :
  lacks c (pre ++ String c seg) = false.
Proof.
  induction pre as [| c' pre IH]; simpl.
  - rewrite Ascii.eqb_refl. reflexivity.
  - rewrite IH. apply andb_false_r.
Qed.

Lemma after_last_sep_unique (c : ascii) (pre1 : string) :
  forall pre2 seg1 seg2 : string,
    lacks c seg1 = true -> lacks c seg2 = true ->
    pre1 ++ String c seg1 = pre2 ++ String c seg2 -> seg1 = seg2.
Proof.
  induction pre1 as [| c1 pre1 IH]; intros pre2 seg1 seg2 H1 H2 E.
  - destruct pre2 as [| c2 pre2]; simpl in E.
    + injection E as E. exact E.
    + injection E as _ E. rewrite E, lacks_after_sep in H1. discriminate H1.
  - destruct pre2 as [| c2 pre2]; simpl in E.
    + injection E as _ E. rewrite <- E, lacks_after_sep in H2.
      discriminate H2.
    + injection E as _ E. eapply IH; eassumption.
Qed.

(** A reference has one trailing segment. *)
Lemma trailingSegment_unique (ref seg1 seg2 : string) :
  trailingSegment ref seg1 -> trailingSegment ref seg2 -> seg1 = seg2.
Proof.
  intros [H1 [E1 | [f1 E1]]] [H2 [E2 | [f2 E2]]].
  - congruence.
  - rewrite E1 in E2. rewrite E2 in H1. simpl in H1.
    rewrite lacks_after_sep in H1. discriminate H1.
  - rewrite E2 in E1. rewrite E1 in H2. simpl in H2.
    rewrite lacks_after_sep in H2. discriminate H2.
  - rewrite E1 in E2. simpl in E2.
    eapply after_last_sep_unique; eassumption.
Qed.

(** C4.  Every volume [GetAllVolumes] returns is made from a disk of a
    page the provider served; its [Path] is empty, and its [AttachedTo] is
    the trailing path segment of that disk's managed-by reference (what
    follows its last ["/"], or the whole reference when it has none), or
    the empty string when the disk has no such reference.  A reference has
    exactly one trailing segment. *)
Theorem GetAllVolumes_AttachedTo_and_Path :
  forall (World Page : Type) (cloud : Cloud World Page) (a : Azure)
         (fuel : nat) (st st' : St World) (vols : list NanosVolume)
         (err : option error),
    GetAllVolumes cloud a fuel st = (Returns (Some vols, err), st') ->
    Forall
      (fun v =>
         Path v = ""
         /\ exists p disks d,
             Page_Values cloud p = Some disks /\ In d disks
             /\ Disk_Name d = Some (Name v)
             /\ match ManagedBy d with
                | Some ref => trailingSegment ref (AttachedTo v)
                | None => AttachedTo v = ""
                end)
      vols
    /\ (forall ref seg seg',
          trailingSegment ref seg -> trailingSegment ref seg' -> seg = seg').
Proof.
  intros World Page cloud a fuel st st' vols err H.
  split; [| apply trailingSegment_unique].
  unfold GetAllVolumes in H.
  apply bind_inv in H. destruct H as [r [st1 [_ H]]].
  destruct r as [e | page]; [discriminate H |].
  apply bind_inv in H. destruct H as [vols1 [st2 [Hloop H]]].
  injection H as <- _ _.
  apply pagesLoop_inv in Hloop. destruct Hloop as [new [-> Hnew]].
  simpl. eapply Forall_impl; [| exact Hnew].
  intros v [p [disks [d [Hvals [Hin [Hname [_ [Hpath Hatt]]]]]]]].
  split; [exact Hpath |]. exists p, disks, d. auto.
Qed.

(** The listing of one page of two disks, the second attached to
    ["web"]. *)
Lemma GetAllVolumes_AttachedTo_and_Path_witness :
  GetAllVolumes Sim.cloud Sim.azure 2
    (Sim.start (Sim.account [[Sim.d1; Sim.d2]] []))
  = (Returns (Some [Sim.v1; Sim.v2], None),
     snd
       (GetAllVolumes Sim.cloud Sim.azure 2
          (Sim.start (Sim.account [[Sim.d1; Sim.d2]] []))))
  /\ AttachedTo Sim.v2 = "web"
  /\ Forall
       (fun v =>
          Path v = ""
          /\ exists p disks d,
              Page_Values Sim.cloud p = Some disks /\ In d disks
              /\ Disk_Name d = Some (Name v)
              /\ match ManagedBy d with
                 | Some ref => trailingSegment ref (AttachedTo v)
                 | None => AttachedTo v = ""
                 end)
       [Sim.v1; Sim.v2].
Proof.
  split; [reflexivity |]. split; [reflexivity |].
  exact
    (proj1
       (@GetAllVolumes_AttachedTo_and_Path _ _ Sim.cloud Sim.azure 2
          (Sim.start (Sim.account [[Sim.d1; Sim.d2]] []))
          _ [Sim.v1; Sim.v2] None eq_refl)).
Defined.

(** A failed [List] is returned at once, with the [nil] list. *)
Lemma GetAllVolumes_List_fails :
  forall (World Page : Type) (cloud : Cloud World Page) (a : Azure)
         (fuel : nat) (st : St World) (e : error) (w1 : World),
    Disks_List cloud (getDisksClient cloud a) (world st) = (inl e, w1) ->
    GetAllVolumes cloud a fuel st
    = (Returns (None, Some e),
       {| world := w1; conf := conf st;
          log := (log st ++ [EvDisksList])%list |}).
Proof.
  intros World Page cloud a fuel st e w1 HL.
  unfold GetAllVolumes. step_run. rewrite HL. reflexivity.
Qed.

(** An account without disks: the first page has no values, and the
    listing is the empty, non-nil list, after the one [List] call. *)
Lemma GetAllVolumes_no_disks :
  forall (World Page : Type) (cloud : Cloud World Page) (a : Azure)
         (fuel : nat) (st : St World) (page : Page) (w1 : World),
    Disks_List cloud (getDisksClient cloud a) (world st) = (inr page, w1) ->
    Page_Values cloud page = None ->
    GetAllVolumes cloud a (S fuel) st
    = (Returns (Some [], None),
       {| world := w1; conf := conf st;
          log := (log st ++ [EvDisksList])%list |}).
Proof.
  intros World Page cloud a fuel st page w1 HL HV.
  unfold GetAllVolumes. step_run. rewrite HL. simpl. rewrite HV.
  reflexivity.
Qed.

(** A single page is listed whole and in the order of the page when the
    page the variable holds after the calls of [Next()] has no values. *)
Lemma GetAllVolumes_pages_of_one_disk :
  forall k : nat,
    fst
      (GetAllVolumes Sim.cloud Sim.azure (S (S (S (S k))))
         (Sim.start (Sim.account [[Sim.d1]; [Sim.d2]; [Sim.d3]] [])))
    = Returns (Some [Sim.v1; Sim.v2; Sim.v3], None).
Proof. intros k. reflexivity. Qed.

(** C5, on an account of three disks served as a page of two followed by a
    page of one.  [Next()] runs once per disk, inside the loop over the
    page, so the two disks of the first page move the page variable past
    the second page before its values are ever read: the listing holds
    ["vol1"] and ["vol2"] and misses ["vol3"], which the account owns.
    The order of the page is kept, and an account without disks gives the
    empty, non-nil list with no error. *)
Theorem GetAllVolumes_skips_a_page_after_a_page_of_two :
  forall k : nat,
    fst
      (GetAllVolumes Sim.cloud Sim.azure (S (S k))
         (Sim.start (Sim.account [[Sim.d1; Sim.d2]; [Sim.d3]] [])))
    = Returns (Some [Sim.v1; Sim.v2], None)
    /\ In Sim.d3
         (List.concat
            (Sim.pages (Sim.account [[Sim.d1; Sim.d2]; [Sim.d3]] [])))
    /\ listedAs Sim.d3 Sim.v3
    /\ ~ In Sim.v3 [Sim.v1; Sim.v2]
    /\ fst
         (GetAllVolumes Sim.cloud Sim.azure (S k)
            (Sim.start (Sim.account [] [])))
       = Returns (Some [], None).
Proof.
  intros k. split; [reflexivity |]. split; [simpl; auto |].
  split; [| split; [| reflexivity]].
  - unfold listedAs. simpl. split; [reflexivity |].
    split; [| split; reflexivity].
    do 3 eexists. repeat split.
  - intros [H | [H | []]]; discriminate H.
Qed.

(** C6, on an account of two disks served one per page, when the first
    request for a next page fails.  The error of [Next()] is dropped and
    the page variable is left where it was, so the loop reads the same
    page again: the listing is returned with no error, holding ["vol1"]
    twice.  Only the error of the first call, [List], is returned. *)
Theorem GetAllVolumes_drops_the_error_of_Next :
  forall k : nat,
    fst
      (GetAllVolumes Sim.cloud Sim.azure (S (S (S (S k))))
         (Sim.start
            (Sim.account [[Sim.d1]; [Sim.d2]] [None; Some Sim.throttled])))
    = Returns (Some [Sim.v1; Sim.v1; Sim.v2], None)
    /\ fst
         (GetAllVolumes Sim.cloud Sim.azure k
            (Sim.start
               (Sim.account [[Sim.d1]; [Sim.d2]] [Some Sim.throttled])))
       = Returns (None, Some Sim.throttled).
Proof. intros k. split; reflexivity. Qed.

(** While the request for the next page keeps failing the loop goes on,
    one more volume per round: it outlasts any number of rounds, and no
    error is ever returned. *)
Lemma pagesLoop_spins_while_Next_fails (n : nat) :
  forall (vols : list NanosVolume) (l : list Event),
    fst
      (pagesLoop Sim.cloud n [[Sim.d1]; [Sim.d2]] vols
         {| world :=
              Sim.account [[Sim.d1]; [Sim.d2]] (repeat (Some Sim.throttled) n);
            conf := Sim.config; log := l |})
    = Spins.
Proof.
  induction n as [| n IH]; intros vols l; [reflexivity |].
  cbn [pagesLoop Page_Values Sim.cloud].
  cbn [rangeDisks].
  destruct (volumeOfDisk_returns Sim.d1
              {| world :=
                   Sim.account [[Sim.d1]; [Sim.d2]]
                     (repeat (Some Sim.throttled) (S n));
                 conf := Sim.config; log := l |} eq_refl)
    as [v [Hv _]].
  unfold bind at 1. unfold bind at 1. rewrite Hv.
  unfold pageNext. step_run. apply IH.
Qed.

Lemma bind_spins {W A B : Type} (m : M W A) (k : A -> M W B) (st : St W) :
  fst (m st) = Spins -> fst (bind m k st) = Spins.
Proof.
  unfold bind. destruct (m st) as [[v | why |] st1]; simpl; intros H;
    try discriminate H.
  reflexivity.
Qed.

Lemma GetAllVolumes_spins_while_Next_fails (n : nat) :
  fst
    (GetAllVolumes Sim.cloud Sim.azure n
       (Sim.start
          (Sim.account [[Sim.d1]; [Sim.d2]]
             (None :: repeat (Some Sim.throttled) n))))
  = Spins.
Proof.
  unfold GetAllVolumes.
  erewrite bind_returns by reflexivity.
  apply bind_spins. apply pagesLoop_spins_while_Next_fails.
Qed.

(* ================================================================== *)
(** ** Panics of [GetAllVolumes] and [DetachVolume] *)
(* ================================================================== *)

Section PanicFacts.
Variables World Page : Type.
Variable cloud : Cloud World Page.
Variable a : Azure.

(** If every page that can come up holds only descriptors with the fields
    the listing reads, the loops do not panic.  [Inv] is any property of
    pages that [Next()] keeps. *)
Variable Inv : Page -> Prop.
Hypothesis Inv_listable :
  forall page disks,
    Inv page -> Page_Values cloud page = Some disks ->
    Forall (fun d => listable d = true) disks.
Hypothesis Inv_Next :
  forall page w, Inv page -> Inv (snd (fst (Page_Next cloud page w))).

Lemma rangeDisks_total (disks : list Disk) :
  Forall (fun d => listable d = true) disks ->
  forall (page : Page) (vols : list NanosVolume) (st : St World),
    Inv page ->
    exists page' vols' st',
      rangeDisks cloud disks page vols st = (Returns (page', vols'), st')
      /\ Inv page'.
Proof.
  induction 1 as [| d disks Hd _ IH]; intros page vols st Hinv.
  - exists page, vols, st. split; [reflexivity | exact Hinv].
  - simpl. destruct (volumeOfDisk_returns d st Hd) as [v [Hv _]].
    rewrite (bind_returns _ _ _ Hv).
    unfold pageNext at 1. unfold bind at 1. unfold bind at 1.
    unfold perform.
    pose proof (Inv_Next (world st) Hinv) as Hnext.
    destruct (Page_Next cloud page (world st)) as [[e page1] w1].
    simpl in Hnext. simpl. apply IH. exact Hnext.
Qed.

Lemma pagesLoop_no_panic (fuel : nat) :
  forall (page : Page) (vols : list NanosVolume) (st : St World)
         (why : RuntimeError),
    Inv page -> fst (pagesLoop cloud fuel page vols st) <> Panics why.
Proof.
  induction fuel as [| fuel IH]; intros page vols st why Hinv.
  - discriminate.
  - simpl. destruct (Page_Values cloud page) as [disks |] eqn:HV.
    + destruct (rangeDisks_total (Inv_listable Hinv HV) vols st Hinv)
        as [page' [vols' [st' [Hr Hinv']]]].
      rewrite (bind_returns _ _ _ Hr). apply IH. exact Hinv'.
    + discriminate.
Qed.

Lemma GetAllVolumes_no_panic (fuel : nat) (st : St World)
    (why : RuntimeError) :
  (forall page w1,
      Disks_List cloud (getDisksClient cloud a) (world st) = (inr page, w1) ->
      Inv page) ->
  fst (GetAllVolumes cloud a fuel st) <> Panics why.
Proof.
  intros Hfirst. unfold GetAllVolumes.
  unfold bind at 1. unfold perform.
  destruct (Disks_List cloud (getDisksClient cloud a) (world st))
    as [[e | page] w1] eqn:HL; simpl; [discriminate |].
  specialize (Hfirst page w1 eq_refl).
  pose proof (@pagesLoop_no_panic fuel page []
                {| world := w1; conf := conf st;
                   log := (log st ++ [EvDisksList])%list |} why Hfirst)
    as Hloop.
  unfold bind.
  destruct (pagesLoop cloud fuel page []
              {| world := w1; conf := conf st;
                 log := (log st ++ [EvDisksList])%list |})
    as [[vols | why' |] st2]; simpl in *; congruence.
Qed.

End PanicFacts.

(** A descriptor of the first page without one of the fields makes
    [GetAllVolumes] panic. *)
Lemma GetAllVolumes_panics :
  forall (World Page : Type) (cloud : Cloud World Page) (a : Azure)
         (fuel : nat) (st : St World) (page : Page) (w1 : World)
         (disks : list Disk),
    Disks_List cloud (getDisksClient cloud a) (world st) = (inr page, w1) ->
    Page_Values cloud page = Some disks ->
    Exists (fun d => listable d = false) disks ->
    fst (GetAllVolumes cloud a (S fuel) st) = Panics NilDereference.
Proof.
  intros World Page cloud a fuel st page w1 disks HL HV HE.
  unfold GetAllVolumes.
  erewrite bind_returns by (unfold perform; rewrite HL; reflexivity).
  cbv beta iota. simpl pagesLoop. rewrite HV.
  pose proof (rangeDisks_panics cloud HE page []
                {| world := w1; conf := conf st;
                   log := (log st ++ [EvDisksList])%list |}) as Hp.
  unfold bind.
  destruct (rangeDisks cloud disks page []
              {| world := w1; conf := conf st;
                 log := (log st ++ [EvDisksList])%list |})
    as [[r | why |] st2]; simpl in *; try discriminate Hp.
  injection Hp as ->. reflexivity.
Qed.

(** A data-disk entry without a name makes [DetachVolume] panic; when
    every entry has one, it returns. *)
Lemma DetachVolume_panics :
  forall (World Page : Type) (cloud : Cloud World Page) (a : Azure)
         (image name : string) (st : St World)
         (vm : VirtualMachine) (ds : list DataDisk) (w1 : World),
    VM_Get cloud (getVMClient cloud a) (groupName a) image InstanceView
      (world st)
    = (inr vm, w1) ->
    dataDisksOf vm = Some ds ->
    Exists (fun d => named d = false) ds ->
    fst (DetachVolume cloud a image name st) = Panics NilDereference.
Proof.
  intros World Page cloud a image name st vm ds w1 HG Hds HE.
  destruct (dataDisksOf_inv _ Hds) as [props [profile [Hp [Hs Hd]]]].
  unfold DetachVolume.
  erewrite bind_returns by (unfold perform; rewrite HG; reflexivity).
  cbv beta iota.
  erewrite bind_returns
    by (unfold getDataDisks; step_run; rewrite Hp; simpl; rewrite Hs; simpl;
        rewrite Hd; reflexivity).
  erewrite bind_panics by (apply keepOthers_unnamed; exact HE).
  reflexivity.
Qed.

Lemma DetachVolume_returns :
  forall (World Page : Type) (cloud : Cloud World Page) (a : Azure)
         (image name : string) (st : St World)
         (vm : VirtualMachine) (ds : list DataDisk) (w1 : World),
    VM_Get cloud (getVMClient cloud a) (groupName a) image InstanceView
      (world st)
    = (inr vm, w1) ->
    dataDisksOf vm = Some ds ->
    Forall (fun d => named d = true) ds ->
    exists r, fst (DetachVolume cloud a image name st) = Returns r.
Proof.
  intros World Page cloud a image name st vm ds w1 HG Hds Hnamed.
  destruct (dataDisksOf_inv _ Hds) as [props [profile [Hp [Hs Hd]]]].
  erewrite DetachVolume_run by eassumption.
  rewrite updateAndWait_run. simpl.
  destruct (VM_CreateOrUpdate cloud (getVMClient cloud a) (groupName a) image _
              w1) as [[e | future] w2]; simpl; eauto.
Qed.

Lemma listable_spec (d : Disk) :
  listable d = true
  <-> Disk_Name d <> None
      /\ exists props,
          DiskProperties_ d = Some props
          /\ DiskSizeGB props <> None /\ TimeCreated props <> None.
Proof.
  unfold listable. split.
  - intros H.
    destruct (Disk_Name d) as [n |]; [| discriminate H].
    destruct (DiskProperties_ d) as [props |]; [| discriminate H].
    split; [discriminate |]. exists props.
    destruct (DiskSizeGB props); [| discriminate H].
    destruct (TimeCreated props); [| discriminate H].
    repeat split; discriminate.
  - intros [Hn [props [Hp [Hs Ht]]]]. rewrite Hp.
    destruct (Disk_Name d); [| contradiction Hn; reflexivity].
    destruct (DiskSizeGB props); [| contradiction Hs; reflexivity].
    destruct (TimeCreated props); [| contradiction Ht; reflexivity].
    reflexivity.
Qed.

(** C10.  The listing dereferences [Name], [DiskProperties], [DiskSizeGB]
    and [TimeCreated] of each disk it reads, and the detach filter the
    [Name] of each data-disk entry, with no nil check.  A disk yields a
    volume exactly when the four fields are present and makes the
    conversion panic otherwise; a disk of the first page that lacks one
    makes [GetAllVolumes] panic; a data-disk entry without a name makes
    [DetachVolume] panic, and when every entry of the fetched instance has
    a name [DetachVolume] returns. *)
Theorem listing_and_detach_panic_on_missing_fields :
  forall (World Page : Type) (cloud : Cloud World Page) (a : Azure),
    (forall d,
        listable d = true
        <-> Disk_Name d <> None
            /\ exists props,
                DiskProperties_ d = Some props
                /\ DiskSizeGB props <> None /\ TimeCreated props <> None)
    /\ (forall d (st : St World),
          listable d = false ->
          volumeOfDisk d st = (Panics NilDereference, st))
    /\ (forall d (st : St World),
          listable d = true ->
          exists v, volumeOfDisk d st = (Returns v, st))
    /\ (forall fuel (st : St World) page w1 disks,
          Disks_List cloud (getDisksClient cloud a) (world st)
          = (inr page, w1) ->
          Page_Values cloud page = Some disks ->
          Exists (fun d => listable d = false) disks ->
          fst (GetAllVolumes cloud a (S fuel) st) = Panics NilDereference)
    /\ (forall image name (st : St World) vm ds w1,
          VM_Get cloud (getVMClient cloud a) (groupName a) image InstanceView
            (world st)
          = (inr vm, w1) ->
          dataDisksOf vm = Some ds ->
          Exists (fun d => named d = false) ds ->
          fst (DetachVolume cloud a image name st) = Panics NilDereference)
    /\ (forall image name (st : St World) vm ds w1,
          VM_Get cloud (getVMClient cloud a) (groupName a) image InstanceView
            (world st)
          = (inr vm, w1) ->
          dataDisksOf vm = Some ds ->
          Forall (fun d => named d = true) ds ->
          exists r, fst (DetachVolume cloud a image name st) = Returns r).
Proof.
  intros World Page cloud a.
  split; [apply listable_spec |].
  split; [intros d st; apply volumeOfDisk_panics |].
  split.
  { intros d st Hl. destruct (volumeOfDisk_returns d st Hl) as [v [Hv _]].
    exists v. exact Hv. }
  split.
  { intros fuel st page w1 disks HL HV HE.
    eapply GetAllVolumes_panics; eassumption. }
  split.
  - intros image name st vm ds w1 HG Hds HE.
    eapply DetachVolume_panics; eassumption.
  - intros image name st vm ds w1 HG Hds Hnamed.
    eapply DetachVolume_returns; eassumption.
Qed.

(** A nameless disk in the first page, and the instance ["db"], one of
    whose data disks has no name. *)
Lemma listing_and_detach_panic_on_missing_fields_witness :
  listable Sim.nameless = false
  /\ fst
       (GetAllVolumes Sim.cloud Sim.azure 1
          (Sim.start (Sim.account [[Sim.d1; Sim.nameless]] [])))
     = Panics NilDereference
  /\ fst
       (DetachVolume Sim.cloud Sim.azure "db" "vol2"
          (Sim.start (Sim.account [] [])))
     = Panics NilDereference
  /\ exists r,
      fst
        (DetachVolume Sim.cloud Sim.azure "web" "vol2"
           (Sim.start (Sim.account [] [])))
      = Returns r.
Proof.
  destruct
    (@listing_and_detach_panic_on_missing_fields _ _ Sim.cloud Sim.azure)
    as [_ [_ [_ [Hlist [Hpanic Hret]]]]].
  split; [reflexivity |]. split; [| split].
  - refine
      (Hlist 0%nat (Sim.start (Sim.account [[Sim.d1; Sim.nameless]] []))
         [[Sim.d1; Sim.nameless]] _ [Sim.d1; Sim.nameless]
         eq_refl eq_refl _).
    apply Exists_cons_tl. apply Exists_cons_hd. reflexivity.
  - refine
      (Hpanic "db" "vol2" (Sim.start (Sim.account [] []))
         (Sim.vm "db" (Some [Sim.dataDisk 0 "vol2"; Sim.unnamed]))
         [Sim.dataDisk 0 "vol2"; Sim.unnamed] _ eq_refl eq_refl _).
    apply Exists_cons_tl. apply Exists_cons_hd. reflexivity.
  - refine
      (Hret "web" "vol2" (Sim.start (Sim.account [] []))
         (Sim.vm "web" (Some [Sim.dataDisk 0 "vol2"; Sim.dataDisk 1 "vol9"]))
         [Sim.dataDisk 0 "vol2"; Sim.dataDisk 1 "vol9"] _ eq_refl eq_refl _).
    repeat constructor.
Defined.

(** On the simulated provider, pages of complete descriptors stay so
    across [Next()], so there the listing does not panic. *)
Lemma GetAllVolumes_no_panic_on_complete_pages :
  forall (ps : list (list Disk)) (fs : list (option error)) (fuel : nat)
         (why : RuntimeError),
    Forall (Forall (fun d => listable d = true)) ps ->
    fst (GetAllVolumes Sim.cloud Sim.azure fuel (Sim.start (Sim.account ps fs)))
    <> Panics why.
Proof.
  intros ps fs fuel why Hps.
  apply GetAllVolumes_no_panic
    with (Inv := Forall (Forall (fun d => listable d = true))).
  - intros page disks Hinv HV. simpl in HV.
    destruct page as [| [| d ds] rest]; try discriminate HV.
    injection HV as <-. inversion Hinv; assumption.
  - intros page w Hinv. simpl.
    destruct page as [| p [| next rest]]; simpl; try constructor.
    assert (Hrest : Forall (Forall (fun d => listable d = true))
                      (next :: rest)).
    { inversion Hinv; assumption. }
    unfold Sim.request.
    destruct (Sim.faults w) as [| [e |] fs']; simpl; assumption.
  - intros page w1 HL. simpl in HL. unfold Sim.request in HL. simpl in HL.
    destruct fs as [| [e |] fs']; simpl in HL; try discriminate HL;
      injection HL as <- _; exact Hps.
Qed.

(* ================================================================== *)
(** ** [strconv.Itoa] read back by [strconv.Atoi] *)
(* ================================================================== *)

Ltac eval_digit :=
  match goal with
  | |- context [digitOf ?c] =>
      let v := eval vm_compute in (digitOf c) in
      change (digitOf c) with v; cbv beta iota
  end.

Lemma scanSmall_acc (d : Decimal.uint) :
  forall acc : positive,
    scanSmall (NilEmpty.string_of_uint d) (Z.pos acc)
    = Some (Z.pos (Pos.of_uint_acc d acc)).
Proof.
  induction d; intros acc;
    cbn [NilEmpty.string_of_uint scanSmall Pos.of_uint_acc];
    try reflexivity;
    eval_digit; rewrite <- IHd; f_equal; lia.
Qed.

Lemma scanSmall_uint (d : Decimal.uint) :
  scanSmall (NilEmpty.string_of_uint d) 0 = Some (Z.of_N (Pos.of_uint d)).
Proof.
  induction d; cbn [NilEmpty.string_of_uint scanSmall Pos.of_uint];
    try reflexivity; eval_digit; try exact IHd;
    cbn [Z.of_N]; rewrite <- scanSmall_acc; reflexivity.
Qed.

Lemma of_uint_acc_ge (d : Decimal.uint) :
  forall acc : positive, (acc <= Pos.of_uint_acc d acc)%positive.
Proof.
  induction d; intros acc; cbn [Pos.of_uint_acc]; try lia;
    match goal with
    | |- (_ <= Pos.of_uint_acc _ ?k)%positive =>
        specialize (IHd k); lia
    end.
Qed.

Lemma scanUint_step (s : string) (acc k : positive) (dg : Z) :
  0 <= dg <= 9 ->
  Z.pos k = Z.pos acc * 10 + dg ->
  Z.pos k <= maxUint64 ->
  (if Z.pos acc >=? maxUint64 / 10 + 1 then ScanRange
   else
     let n1 := Z.pos acc * 10 + dg in
     if n1 >? maxUint64 then ScanRange else scanUint s n1)
  = scanUint s (Z.pos k).
Proof.
  intros Hd Hk Hmax.
  change (maxUint64 / 10 + 1) with 1844674407370955162.
  unfold maxUint64 in *.
  destruct (Z.pos acc >=? 1844674407370955162) eqn:Hc;
    [apply Z.geb_le in Hc; lia |].
  cbv zeta. rewrite <- Hk.
  destruct (Z.pos k >? 2 ^ 64 - 1) eqn:Hn; [apply Z.gtb_lt in Hn; lia |].
  reflexivity.
Qed.

Lemma scanUint_acc (d : Decimal.uint) :
  forall acc : positive,
    Z.pos (Pos.of_uint_acc d acc) <= maxUint64 ->
    scanUint (NilEmpty.string_of_uint d) (Z.pos acc)
    = ScanOk (Z.pos (Pos.of_uint_acc d acc)).
Proof.
  induction d; intros acc Hmax;
    cbn [NilEmpty.string_of_uint scanUint Pos.of_uint_acc] in *;
    try reflexivity;
    eval_digit;
    match goal with
    | H : Z.pos (Pos.of_uint_acc ?l ?k) <= _ |- _ =>
        pose proof (of_uint_acc_ge l k) as Hge;
        rewrite (@scanUint_step _ acc k) by lia;
        apply IHd; exact H
    end.
Qed.

Lemma scanUint_uint (d : Decimal.uint) :
  Z.of_N (Pos.of_uint d) <= maxUint64 ->
  scanUint (NilEmpty.string_of_uint d) 0 = ScanOk (Z.of_N (Pos.of_uint d)).
Proof.
  induction d; intros Hmax;
    cbn [NilEmpty.string_of_uint scanUint Pos.of_uint Z.of_N] in *;
    try reflexivity; eval_digit;
    change (0 >=? maxUint64 / 10 + 1) with false; cbv beta iota zeta;
    match goal with
    | |- context [?n >? maxUint64] =>
        let v := eval vm_compute in (n >? maxUint64) in
        change (n >? maxUint64) with v; cbv beta iota
    end;
    try (apply IHd; exact Hmax);
    apply scanUint_acc; exact Hmax.
Qed.

(** The decimal text of a number that is not zero starts with a digit,
    not with a sign. *)
Lemma string_of_uint_head (d : Decimal.uint) :
  d <> Decimal.Nil ->
  exists c rest,
    NilEmpty.string_of_uint d = String c rest
    /\ isMinus c = false /\ isPlus c = false.
Proof.
  intros Hd. destruct d; [contradiction Hd; reflexivity | ..];
    eexists; eexists; (split; [reflexivity | split; reflexivity]).
Qed.

Lemma Atoi_unsigned (d : Decimal.uint) :
  d <> Decimal.Nil ->
  Z.of_N (Pos.of_uint d) <= maxInt64 ->
  Atoi (NilEmpty.string_of_uint d) = inr (Z.of_N (Pos.of_uint d)).
Proof.
  intros Hd Hmax. unfold maxInt64 in Hmax.
  destruct (@string_of_uint_head d Hd) as [c [rest [Hs [Hm Hp]]]].
  pose proof (scanSmall_uint d) as Hsmall.
  pose proof (scanUint_uint d ltac:(unfold maxUint64; lia)) as Hbig.
  unfold Atoi, ParseInt, ParseUint. rewrite Hs in *. rewrite Hm, Hp.
  cbn [orb andb negb]. rewrite Hsmall, Hbig.
  destruct (Z.of_N (Pos.of_uint d) >=? 2 ^ 63) eqn:Hr;
    [apply Z.geb_le in Hr; lia |].
  destruct (String.length (String c rest) <? 19)%nat; reflexivity.
Qed.

Lemma Atoi_negated (d : Decimal.uint) :
  d <> Decimal.Nil ->
  Z.of_N (Pos.of_uint d) <= 2 ^ 63 ->
  Atoi (String "-" (NilEmpty.string_of_uint d))
  = inr (- Z.of_N (Pos.of_uint d)).
Proof.
  intros Hd Hmax.
  destruct (@string_of_uint_head d Hd) as [c [rest [Hs [Hm Hp]]]].
  pose proof (scanSmall_uint d) as Hsmall.
  pose proof (scanUint_uint d ltac:(unfold maxUint64; lia)) as Hbig.
  unfold Atoi, ParseInt, ParseUint.
  change (isMinus "-") with true. change (isPlus "-") with false.
  cbn [orb andb negb]. rewrite Hsmall. rewrite Hs in *. rewrite Hbig.
  destruct (Z.of_N (Pos.of_uint d) >? 2 ^ 63) eqn:Hr;
    [apply Z.gtb_lt in Hr; lia |].
  change (String.length (String c rest) <? 1)%nat with false.
  destruct (String.length (String "-" (String c rest)) <? 19)%nat;
    reflexivity.
Qed.

(** A number of the range of [int], printed by [Itoa], is read back by
    [Atoi]. *)
Lemma Atoi_Itoa (n : Z) :
  - 2 ^ 63 <= n <= maxInt64 -> Atoi (Itoa n) = inr n.
Proof.
  intros Hn. unfold maxInt64 in Hn. unfold Itoa.
  destruct n as [| p | p]; [reflexivity | |]; cbn [Z.to_int].
  - unfold NilZero.string_of_int, NilZero.string_of_uint.
    pose proof (DecimalPos.Unsigned.to_uint_nonnil p) as Hnil.
    pose proof (DecimalPos.Unsigned.of_to p) as Hof.
    destruct (Pos.to_uint p) eqn:E; [contradiction Hnil; reflexivity | ..];
      rewrite <- E in *; rewrite Atoi_unsigned;
      rewrite ?Hof; try assumption; try reflexivity;
      unfold maxInt64; cbn [Z.of_N]; lia.
  - unfold NilZero.string_of_int, NilZero.string_of_uint.
    pose proof (DecimalPos.Unsigned.to_uint_nonnil p) as Hnil.
    pose proof (DecimalPos.Unsigned.of_to p) as Hof.
    destruct (Pos.to_uint p) eqn:E; [contradiction Hnil; reflexivity | ..];
      rewrite <- E in *; rewrite Atoi_negated;
      rewrite ?Hof; try assumption; try reflexivity;
      cbn [Z.of_N]; lia.
Qed.

(* ================================================================== *)
(** ** What the operations leave alone *)
(* ================================================================== *)

Section Frame.
Variable World : Type.

Lemma keepsConfig_ret {A : Type} (x : A) : keepsConfig (World := World) (ret x).
Proof. intros st. reflexivity. Qed.

Lemma keepsConfig_panic {A : Type} (why : RuntimeError) :
  keepsConfig (World := World) (panic (A := A) why).
Proof. intros st. reflexivity. Qed.

Lemma keepsConfig_spin {A : Type} : keepsConfig (World := World) (spin (A := A)).
Proof. intros st. reflexivity. Qed.

Lemma keepsConfig_deref {A : Type} (p : option A) : keepsConfig (World := World) (deref p).
Proof. destruct p; intros st; reflexivity. Qed.

Lemma keepsConfig_perform {A : Type} (ev : Event) (f : World -> A * World) :
  keepsConfig (perform ev f).
Proof.
  intros st. unfold perform. destruct (f (world st)). reflexivity.
Qed.

Lemma keepsConfig_bind {A B : Type} (m : M World A) (k : A -> M World B) :
  keepsConfig m -> (forall x, keepsConfig (k x)) -> keepsConfig (bind m k).
Proof.
  intros Hm Hk st. unfold bind. specialize (Hm st).
  destruct (m st) as [[x | why |] st1]; simpl in *; try exact Hm.
  rewrite Hk. exact Hm.
Qed.

End Frame.

Section FrameOfOperations.
Variables World Page : Type.
Variable cloud : Cloud World Page.
Variable a : Azure.

Ltac frame :=
  repeat first
    [ apply keepsConfig_bind; [| intros ?]
    | apply keepsConfig_ret | apply keepsConfig_panic
    | apply keepsConfig_spin | apply keepsConfig_deref
    | apply keepsConfig_perform
    | match goal with
      | |- keepsConfig (match ?x with _ => _ end) => destruct x
      | |- keepsConfig (let '(_, _) := ?x in _) => destruct x
      end ].

Lemma keepsConfig_volumeOfDisk (d : Disk) :
  keepsConfig (volumeOfDisk (World := World) d).
Proof. unfold volumeOfDisk, attachedToOf. frame. Qed.

Lemma keepsConfig_rangeDisks (disks : list Disk) :
  forall page vols, keepsConfig (rangeDisks cloud disks page vols).
Proof.
  induction disks as [| d disks IH]; intros page vols; simpl.
  - frame.
  - apply keepsConfig_bind; [apply keepsConfig_volumeOfDisk | intros v].
    apply keepsConfig_bind; [unfold pageNext; frame | intros p].
    apply IH.
Qed.

Lemma keepsConfig_pagesLoop (fuel : nat) :
  forall page vols, keepsConfig (pagesLoop cloud fuel page vols).
Proof.
  induction fuel as [| fuel IH]; intros page vols; simpl.
  - frame.
  - destruct (Page_Values cloud page) as [disks |]; [| frame].
    apply keepsConfig_bind; [apply keepsConfig_rangeDisks |].
    intros [p v]. apply IH.
Qed.

Lemma keepsConfig_updateAndWait vmClient image vm notice :
  keepsConfig (updateAndWait cloud a vmClient image vm notice).
Proof. unfold updateAndWait. frame. Qed.

Lemma keepsConfig_keepOthers name (disks : list DataDisk) :
  forall kept, keepsConfig (keepOthers (World := World) name disks kept).
Proof.
  induction disks as [| d disks IH]; intros kept; simpl; [frame |].
  apply keepsConfig_bind; [frame | intros n].
  destruct (negb (String.eqb n name)); apply IH.
Qed.

(** Of the five operations only [CreateVolume] writes to the caller's
    [Config]: listing, deleting, attaching and detaching leave it as it
    was, whatever the provider answers and also when they panic. *)
Theorem only_CreateVolume_writes_the_Config :
  forall (fuel : nat) (image name mount : string) (st : St World),
    conf (snd (GetAllVolumes cloud a fuel st)) = conf st
    /\ conf (snd (DeleteVolume cloud a name st)) = conf st
    /\ conf (snd (AttachVolume cloud a image name mount st)) = conf st
    /\ conf (snd (DetachVolume cloud a image name st)) = conf st.
Proof.
  intros fuel image name mount st. repeat split.
  - revert st. change (keepsConfig (GetAllVolumes cloud a fuel)).
    unfold GetAllVolumes.
    apply keepsConfig_bind; [frame | intros [e | page]]; [frame |].
    apply keepsConfig_bind; [apply keepsConfig_pagesLoop | intros v; frame].
  - revert st. change (keepsConfig (DeleteVolume cloud a name)).
    unfold DeleteVolume. frame.
  - revert st. change (keepsConfig (AttachVolume cloud a image name mount)).
    unfold AttachVolume.
    apply keepsConfig_bind; [frame | intros [e | vm]]; [frame |].
    apply keepsConfig_bind; [frame | intros [e | disk]]; [frame |].
    apply keepsConfig_bind; [frame | intros id].
    apply keepsConfig_bind; [unfold setDataDisks; frame | intros vm'].
    apply keepsConfig_updateAndWait.
  - revert st. change (keepsConfig (DetachVolume cloud a image name)).
    unfold DetachVolume.
    apply keepsConfig_bind; [frame | intros [e | vm]]; [frame |].
    apply keepsConfig_bind; [unfold getDataDisks; frame | intros ds].
    apply keepsConfig_bind; [apply keepsConfig_keepOthers | intros kept].
    apply keepsConfig_bind; [unfold setDataDisks; frame | intros vm'].
    apply keepsConfig_updateAndWait.
Qed.

End FrameOfOperations.

(* ================================================================== *)
(** ** [GetAllVolumes]: the calls it makes *)
(* ================================================================== *)

Lemma mutations_app (xs ys : list Event) :
  mutations (xs ++ ys) = (mutations xs ++ mutations ys)%list.
Proof.
  induction xs as [| ev xs IH]; simpl; [reflexivity |].
  destruct ev; simpl; rewrite IH; reflexivity.
Qed.

Lemma mutations_Next (n : nat) : mutations (repeat EvPageNext n) = [].
Proof. induction n as [| n IH]; simpl; [reflexivity | exact IH]. Qed.

Lemma repeat_app_one {A : Type} (x : A) (n : nat) :
  (x :: repeat x n = repeat x n ++ [x])%list.
Proof.
  induction n as [| n IH]; simpl; [reflexivity |]. rewrite <- IH.
  reflexivity.
Qed.

Section ListingEffects.
Variables World Page : Type.
Variable cloud : Cloud World Page.
Variable a : Azure.

Lemma pageNext_run (page : Page) (st : St World) :
  pageNext cloud page st
  = (Returns (fst (advance cloud 1 page (world st))),
     {| world := snd (advance cloud 1 page (world st)); conf := conf st;
        log := (log st ++ [EvPageNext])%list |}).
Proof.
  unfold pageNext. unfold bind, perform, ret. simpl.
  destruct (Page_Next cloud page (world st)) as [[e p'] w']. reflexivity.
Qed.

Lemma advance_S (n : nat) (page : Page) (w : World) :
  advance cloud (S n) page w
  = advance cloud n (fst (advance cloud 1 page w))
      (snd (advance cloud 1 page w)).
Proof.
  simpl. destruct (Page_Next cloud page w) as [[e p'] w']. reflexivity.
Qed.

(** The inner loop on descriptors that have the fields: one volume and
    one [Next()] per disk, the configuration untouched. *)
Lemma rangeDisks_run (disks : list Disk) :
  Forall (fun d => listable d = true) disks ->
  forall (page : Page) (vols : list NanosVolume) (st : St World),
    exists new,
      rangeDisks cloud disks page vols st
      = (Returns
           (fst (advance cloud (List.length disks) page (world st)),
            (vols ++ new)%list),
         {| world := snd (advance cloud (List.length disks) page (world st));
            conf := conf st;
            log := (log st ++ repeat EvPageNext (List.length disks))%list |})
      /\ Forall2 listedAs disks new.
Proof.
  induction 1 as [| d disks Hd _ IH]; intros page vols st.
  - exists []. simpl. rewrite !app_nil_r. destruct st. split; constructor.
  - cbn [rangeDisks].
    destruct (volumeOfDisk_returns d st Hd) as [v [Hv Hrel]].
    rewrite (bind_returns _ _ _ Hv).
    rewrite (bind_returns _ _ _ (pageNext_run page st)).
    destruct (IH (fst (advance cloud 1 page (world st))) (vols ++ [v])%list
                {| world := snd (advance cloud 1 page (world st));
                   conf := conf st; log := (log st ++ [EvPageNext])%list |})
      as [new [Hrun Hnew]].
    exists (v :: new). rewrite Hrun. cbn [world conf log Datatypes.length].
    rewrite (advance_S (Datatypes.length disks) page (world st)).
    rewrite <- !app_assoc. split; [reflexivity |].
    constructor; assumption.
Qed.

Lemma rangeDisks_effects (disks : list Disk) :
  forall (page page' : Page) (vols vols' : list NanosVolume)
         (st st' : St World),
    rangeDisks cloud disks page vols st = (Returns (page', vols'), st') ->
    exists new,
      vols' = (vols ++ new)%list
      /\ List.length new = List.length disks
      /\ log st' = (log st ++ repeat EvPageNext (List.length new))%list.
Proof.
  intros page page' vols vols' st st' H.
  destruct (rangeDisks_inv _ _ _ _ _ H) as [new [-> Hnew]].
  exists new. split; [reflexivity |].
  assert (Hlen : List.length new = List.length disks).
  { symmetry. eapply Forall2_length. exact Hnew. }
  split; [exact Hlen |]. rewrite Hlen.
  eapply rangeDisks_calls_Next_per_disk. exact H.
Qed.

Lemma pagesLoop_effects (fuel : nat) :
  forall (page : Page) (vols vols' : list NanosVolume) (st st' : St World),
    pagesLoop cloud fuel page vols st = (Returns vols', st') ->
    exists new,
      vols' = (vols ++ new)%list
      /\ log st' = (log st ++ repeat EvPageNext (List.length new))%list.
Proof.
  induction fuel as [| fuel IH]; intros page vols vols' st st' H.
  - discriminate H.
  - simpl in H. destruct (Page_Values cloud page) as [disks |].
    + apply bind_inv in H. destruct H as [[p1 vols1] [st1 [Hr H]]].
      apply rangeDisks_effects in Hr. destruct Hr as [new1 [-> [_ Hl1]]].
      apply IH in H. destruct H as [new2 [-> Hl2]].
      exists (new1 ++ new2)%list. rewrite app_assoc.
      split; [reflexivity |].
      rewrite Hl2, Hl1, length_app, repeat_app, app_assoc. reflexivity.
    + injection H as <- <-. exists []. rewrite !app_nil_r. auto.
Qed.

(** A listing that returns has made one [List] call and then as many
    [Next()] calls as it returns volumes, and no other call; it returns
    either the [nil] list with the error of [List], or a list with no
    error. *)
Theorem GetAllVolumes_calls :
  forall (fuel : nat) (st st' : St World)
         (vs : option (list NanosVolume)) (err : option error),
    GetAllVolumes cloud a fuel st = (Returns (vs, err), st') ->
    ((exists e,
         vs = None /\ err = Some e
         /\ log st' = (log st ++ [EvDisksList])%list)
     \/ (exists vols,
           vs = Some vols /\ err = None
           /\ log st'
              = (log st
                 ++ EvDisksList :: repeat EvPageNext (List.length vols))%list))
    /\ mutations (log st') = mutations (log st).
Proof.
  intros fuel st st' vs err H.
  unfold GetAllVolumes in H.
  apply bind_inv in H. destruct H as [r [st1 [HL H]]].
  assert (Hst1 : log st1 = (log st ++ [EvDisksList])%list).
  { unfold perform in HL.
    destruct (Disks_List cloud (getDisksClient cloud a) (world st)).
    injection HL as _ <-. reflexivity. }
  destruct r as [e | page].
  - injection H as <- <- <-. rewrite Hst1.
    split; [left; exists e; auto |].
    rewrite mutations_app. simpl. apply app_nil_r.
  - apply bind_inv in H. destruct H as [vols [st2 [Hloop H]]].
    injection H as <- <- <-.
    apply pagesLoop_effects in Hloop. destruct Hloop as [new [-> Hl]].
    simpl in *. rewrite Hl, Hst1, <- app_assoc. simpl.
    split; [right; exists new; auto |].
    rewrite mutations_app. simpl. rewrite mutations_Next. apply app_nil_r.
Qed.

(** An account whose disks fit in one page: when the page variable has no
    values after the [Next()] calls of the first page, the listing holds
    one volume per disk of that page, in the order of the page. *)
Theorem GetAllVolumes_single_page :
  forall (fuel : nat) (st : St World) (page : Page) (w1 : World)
         (disks : list Disk),
    Disks_List cloud (getDisksClient cloud a) (world st) = (inr page, w1) ->
    Page_Values cloud page = Some disks ->
    Forall (fun d => listable d = true) disks ->
    Page_Values cloud (fst (advance cloud (List.length disks) page w1))
    = None ->
    exists vols,
      fst (GetAllVolumes cloud a (S (S fuel)) st) = Returns (Some vols, None)
      /\ Forall2 listedAs disks vols.
Proof.
  intros fuel st page w1 disks HL HV Hdisks Hend.
  unfold GetAllVolumes.
  erewrite bind_returns by (unfold perform; rewrite HL; reflexivity).
  cbv beta iota. cbn [pagesLoop]. rewrite HV.
  destruct (rangeDisks_run Hdisks page []
              {| world := w1; conf := conf st;
                 log := (log st ++ [EvDisksList])%list |})
    as [new [Hrun Hnew]].
  cbn [world] in Hrun.
  exists new. split; [| exact Hnew].
  unfold bind at 1. unfold bind at 1. rewrite Hrun. rewrite Hend.
  reflexivity.
Qed.

End ListingEffects.

(* ================================================================== *)
(** ** [CreateVolume]: success, sizes, bucket *)
(* ================================================================== *)

(** [CreateVolume] reports success only after the three calls: if it
    returns no error, the size parsed, the synthesis gave the returned
    volume, the upload succeeded on the configuration carrying the
    volume name, and the provider accepted the disk-creation request,
    which is the last of exactly three calls. *)
Theorem CreateVolume_success_means_created :
  forall (World Page : Type) (cloud : Cloud World Page) (a : Azure)
         (name data size provider : string) (st st' : St World)
         (vol : NanosVolume),
    CreateVolume cloud a name data size provider st
    = (Returns (vol, None), st') ->
    exists n c1 w1 w2,
      Atoi size = inr n
      /\ CreateLocalVolume cloud (conf st) name data size provider (world st)
         = ((c1, (vol, None)), w1)
      /\ CopyToBucket cloud (setImageName name c1) (Path vol) w1
         = ((conf st', None), w2)
      /\ Disks_CreateOrUpdate cloud (getDisksClient cloud a) (groupName a)
           name
           (diskParams a (getLocation cloud a (conf st)) name
              (bucketOf a (conf st')) n)
           w2
         = (None, world st')
      /\ log st'
         = (log st
            ++ [EvCreateLocalVolume (conf st) name data size provider;
                EvCopyToBucket (setImageName name c1) (Path vol);
                EvDisksCreateOrUpdate (groupName a) name
                  (diskParams a (getLocation cloud a (conf st)) name
                     (bucketOf a (conf st')) n)])%list.
Proof.
  intros World Page cloud a name data size provider st st' vol H.
  destruct (Atoi size) as [e | n] eqn:HA.
  { erewrite CreateVolume_invalid_size in H by eassumption.
    discriminate H. }
  destruct (CreateLocalVolume cloud (conf st) name data size provider
              (world st)) as [[c1 [vol1 [e |]]] w1] eqn:HS.
  { erewrite CreateVolume_synthesis_fails in H by eassumption.
    discriminate H. }
  destruct (CopyToBucket cloud (setImageName name c1) (Path vol1) w1)
    as [[c2 [e |]] w2] eqn:HU.
  { erewrite CreateVolume_upload_fails in H by eassumption.
    discriminate H. }
  erewrite CreateVolume_reaches_creation in H by eassumption.
  destruct (Disks_CreateOrUpdate cloud (getDisksClient cloud a) (groupName a)
              name
              (diskParams a (getLocation cloud a (conf st)) name
                 (bucketOf a c2) n) w2) as [[e |] w3] eqn:HC;
    simpl in H; [discriminate H |].
  injection H as <- <-. simpl.
  exists n, c1, w1, w2. rewrite HU, HC, <- !app_assoc. auto.
Qed.

Lemma int32_wraps (x : Z) :
  2 ^ 31 <= x < 2 ^ 32 -> int32 x = x - 2 ^ 32.
Proof.
  intros Hx. unfold int32.
  replace (x + 2 ^ 31) with ((x - 2 ^ 31) + 1 * 2 ^ 32) by lia.
  rewrite Z.mod_add by lia. rewrite Z.mod_small by lia. lia.
Qed.



Lemma quot_1000000_bounds (n lo hi : Z) :
  lo * 1000000 <= n < hi * 1000000 -> 0 <= lo ->
  lo <= n ÷ 1000000 < hi.
Proof.
  intros [Hlo Hhi] H0.
  pose proof (Z.quot_rem' n 1000000) as E.
  pose proof (Z.rem_bound_pos n 1000000 ltac:(lia) ltac:(lia)).
  lia.
Qed.


(** The size is narrowed to 32 bits without a check: from
    [2^31 * 1,000,000] up to [2^32 * 1,000,000] the disk-creation request
    carries the quotient less [2^32], a negative number. *)
Theorem CreateVolume_size_wraps_around :
  forall (World Page : Type) (cloud : Cloud World Page) (a : Azure)
         (name data size provider : string) (st : St World)
         (n : Z) (c1 c2 : Config) (vol : NanosVolume) (w1 w2 : World),
    Atoi size = inr n ->
    CreateLocalVolume cloud (conf st) name data size provider (world st)
    = ((c1, (vol, None)), w1) ->
    CopyToBucket cloud (setImageName name c1) (Path vol) w1
    = ((c2, None), w2) ->
    2 ^ 31 * 1000000 <= n < 2 ^ 32 * 1000000 ->
    exists d g,
      createdDisks
        (log (snd (CreateVolume cloud a name data size provider st)))
      = (createdDisks (log st) ++ [d])%list
      /\ diskSizeGB d = Some g
      /\ g = n ÷ 1000000 - 2 ^ 32
      /\ - 2 ^ 31 <= g < 0.
Proof.
  intros World Page cloud a name data size provider st n c1 c2 vol w1 w2
    HA HS HU Hn.
  erewrite CreateVolume_reaches_creation by eassumption. simpl.
  eexists. exists (sizeInGB n).
  rewrite !createdDisks_app. simpl. rewrite !app_nil_r.
  split; [reflexivity |]. split; [reflexivity |].
  unfold sizeInGB. rewrite quot_1000_twice.
  pose proof (@quot_1000000_bounds n (2 ^ 31) (2 ^ 32) Hn ltac:(lia)) as Hq.
  rewrite int32_wraps by exact Hq. lia.
Qed.

(** The disk is imported from the blob [<name>.vhd] of the container
    [quickstart-nanos] of the bucket the configuration names once the
    upload is done, and of the storage account of the receiver when it
    names none; the same bucket ends the storage-account identifier. *)
Theorem CreateVolume_imports_from_the_bucket :
  forall (World Page : Type) (cloud : Cloud World Page) (a : Azure)
         (name data size provider : string) (st : St World)
         (n : Z) (c1 c2 : Config) (vol : NanosVolume) (w1 w2 : World),
    Atoi size = inr n ->
    CreateLocalVolume cloud (conf st) name data size provider (world st)
    = ((c1, (vol, None)), w1) ->
    CopyToBucket cloud (setImageName name c1) (Path vol) w1
    = ((c2, None), w2) ->
    exists d props cd bucket,
      createdDisks
        (log (snd (CreateVolume cloud a name data size provider st)))
      = (createdDisks (log st) ++ [d])%list
      /\ DiskProperties_ d = Some props
      /\ CreationData_ props = Some cd
      /\ CreateOption cd = "Import"
      /\ SourceURI cd
         = Some ("https://" ++ bucket
                 ++ ".blob.core.windows.net/quickstart-nanos/" ++ name
                 ++ ".vhd")
      /\ StorageAccountID cd
         = Some ("/subscriptions/" ++ subID a ++ "/resourceGroups/"
                 ++ groupName a
                 ++ "/providers/Microsoft.Storage/storageAccounts/"
                 ++ bucket)
      /\ (BucketName (CloudConfig_ c2) = "" -> bucket = storageAccount a)
      /\ (BucketName (CloudConfig_ c2) <> "" ->
          bucket = BucketName (CloudConfig_ c2)).
Proof.
  intros World Page cloud a name data size provider st n c1 c2 vol w1 w2
    HA HS HU.
  erewrite CreateVolume_reaches_creation by eassumption. simpl.
  do 3 eexists. exists (bucketOf a c2).
  rewrite !createdDisks_app. simpl. rewrite !app_nil_r.
  split; [reflexivity |]. split; [reflexivity |]. split; [reflexivity |].
  split; [reflexivity |]. split; [reflexivity |]. split; [reflexivity |].
  unfold bucketOf. split.
  - intros ->. reflexivity.
  - intros Hb. apply String.eqb_neq in Hb. rewrite Hb. reflexivity.
Qed.

(* ================================================================== *)
(** ** [AttachVolume]: failures, panics, success *)
(* ================================================================== *)

Section AttachFacts.
Variables World Page : Type.
Variable cloud : Cloud World Page.
Variable a : Azure.
Variables image name mount : string.
Variable st : St World.

Lemma AttachVolume_instance_lookup_fails (e : error) (w1 : World) :
  VM_Get cloud (getVMClient cloud a) (groupName a) image InstanceView
    (world st)
  = (inl e, w1) ->
  AttachVolume cloud a image name mount st
  = (Returns (Some e),
     {| world := w1; conf := conf st;
        log := (log st ++ [EvVMGet (groupName a) image InstanceView])%list |}).
Proof.
  intros HG. unfold AttachVolume. step_run. rewrite HG. reflexivity.
Qed.

Lemma AttachVolume_disk_lookup_fails (vm : VirtualMachine) (e : error)
    (w1 w2 : World) :
  VM_Get cloud (getVMClient cloud a) (groupName a) image InstanceView
    (world st)
  = (inr vm, w1) ->
  Disks_Get cloud (getDisksClient cloud a) (groupName a) name w1
  = (inl e, w2) ->
  AttachVolume cloud a image name mount st
  = (Returns (Some e),
     {| world := w2; conf := conf st;
        log :=
          ((log st ++ [EvVMGet (groupName a) image InstanceView])
           ++ [EvDisksGet (groupName a) name])%list |}).
Proof.
  intros HG HD. unfold AttachVolume. step_run. rewrite HG. simpl.
  rewrite HD. reflexivity.
Qed.

Lemma AttachVolume_nil_pointer (vm : VirtualMachine) (disk : Disk)
    (w1 w2 : World) :
  VM_Get cloud (getVMClient cloud a) (groupName a) image InstanceView
    (world st)
  = (inr vm, w1) ->
  Disks_Get cloud (getDisksClient cloud a) (groupName a) name w1
  = (inr disk, w2) ->
  Disk_ID disk = None \/ hasStorageProfile vm = false ->
  AttachVolume cloud a image name mount st
  = (Panics NilDereference,
     {| world := w2; conf := conf st;
        log :=
          ((log st ++ [EvVMGet (groupName a) image InstanceView])
           ++ [EvDisksGet (groupName a) name])%list |}).
Proof.
  intros HG HD Hnil. unfold AttachVolume, setDataDisks. step_run.
  rewrite HG. simpl. rewrite HD. simpl.
  unfold hasStorageProfile in Hnil.
  destruct (Disk_ID disk) as [id |]; simpl; [| reflexivity].
  destruct Hnil as [Hnil | Hnil]; [discriminate Hnil |].
  destruct (VirtualMachineProperties_ vm) as [props |]; simpl;
    [| reflexivity].
  destruct (StorageProfile_ props); simpl; [discriminate Hnil | reflexivity].
Qed.

End AttachFacts.

Lemma hasStorageProfile_inv (vm : VirtualMachine) :
  hasStorageProfile vm = true ->
  exists props profile,
    VirtualMachineProperties_ vm = Some props
    /\ StorageProfile_ props = Some profile.
Proof.
  unfold hasStorageProfile. intros H.
  destruct (VirtualMachineProperties_ vm) as [props |]; [| discriminate H].
  destruct (StorageProfile_ props) as [profile |] eqn:Hs; [| discriminate H].
  exists props, profile. auto.
Qed.

(** When a lookup of [AttachVolume] fails, its error is returned as the
    provider gave it, with no prefix, and nothing is submitted: a failed
    instance lookup is not even followed by the disk lookup. *)
Theorem AttachVolume_lookup_failures :
  forall (World Page : Type) (cloud : Cloud World Page) (a : Azure)
         (image name mount : string) (st : St World),
    let out := AttachVolume cloud a image name mount st in
    let getVM := EvVMGet (groupName a) image InstanceView in
    (forall e w1,
        VM_Get cloud (getVMClient cloud a) (groupName a) image InstanceView
          (world st)
        = (inl e, w1) ->
        fst out = Returns (Some e)
        /\ log (snd out) = (log st ++ [getVM])%list)
    /\ (forall vm w1 e w2,
          VM_Get cloud (getVMClient cloud a) (groupName a) image InstanceView
            (world st)
          = (inr vm, w1) ->
          Disks_Get cloud (getDisksClient cloud a) (groupName a) name w1
          = (inl e, w2) ->
          fst out = Returns (Some e)
          /\ log (snd out)
             = (log st ++ [getVM; EvDisksGet (groupName a) name])%list).
Proof.
  intros World Page cloud a image name mount st out getVM.
  subst out getVM. split.
  - intros e w1 HG.
    erewrite AttachVolume_instance_lookup_fails by eassumption. auto.
  - intros vm w1 e w2 HG HD.
    erewrite AttachVolume_disk_lookup_fails by eassumption. simpl.
    rewrite <- app_assoc. auto.
Qed.

(** [AttachVolume] dereferences the identifier of the disk and the
    storage profile of the instance without a nil check: when either is
    missing it panics after the two lookups, before anything is
    submitted. *)
Theorem AttachVolume_panics_on_missing_pointers :
  forall (World Page : Type) (cloud : Cloud World Page) (a : Azure)
         (image name mount : string) (st : St World)
         (vm : VirtualMachine) (disk : Disk) (w1 w2 : World),
    VM_Get cloud (getVMClient cloud a) (groupName a) image InstanceView
      (world st)
    = (inr vm, w1) ->
    Disks_Get cloud (getDisksClient cloud a) (groupName a) name w1
    = (inr disk, w2) ->
    Disk_ID disk = None \/ hasStorageProfile vm = false ->
    let out := AttachVolume cloud a image name mount st in
    fst out = Panics NilDereference
    /\ log (snd out)
       = (log st
          ++ [EvVMGet (groupName a) image InstanceView;
              EvDisksGet (groupName a) name])%list
    /\ submittedVMs (log (snd out)) = submittedVMs (log st).
Proof.
  intros World Page cloud a image name mount st vm disk w1 w2 HG HD Hnil
    out.
  subst out. erewrite AttachVolume_nil_pointer by eassumption. simpl.
  rewrite <- app_assoc. split; [reflexivity |]. split; [reflexivity |].
  rewrite submittedVMs_app. simpl. apply app_nil_r.
Qed.

(** [AttachVolume] returns [nil] only at the end of the whole sequence:
    both lookups succeeded, the provider accepted the descriptor whose
    data-disk list is the single entry of the named disk, and the wait
    on that operation succeeded; these five calls, notice included, are
    the only ones made. *)
Theorem AttachVolume_success_means_attached :
  forall (World Page : Type) (cloud : Cloud World Page) (a : Azure)
         (image name mount : string) (st st' : St World),
    AttachVolume cloud a image name mount st = (Returns None, st') ->
    exists vm disk id props profile future w1 w2 w3,
      VM_Get cloud (getVMClient cloud a) (groupName a) image InstanceView
        (world st)
      = (inr vm, w1)
      /\ Disks_Get cloud (getDisksClient cloud a) (groupName a) name w1
         = (inr disk, w2)
      /\ Disk_ID disk = Some id
      /\ VirtualMachineProperties_ vm = Some props
      /\ StorageProfile_ props = Some profile
      /\ VM_CreateOrUpdate cloud (getVMClient cloud a) (groupName a) image
           (withDataDisks vm props profile [attachment name id]) w2
         = (inr future, w3)
      /\ WaitForCompletionRef cloud future (getVMClient cloud a) w3
         = (None, world st')
      /\ log st'
         = (log st
            ++ [EvVMGet (groupName a) image InstanceView;
                EvDisksGet (groupName a) name;
                EvVMCreateOrUpdate (groupName a) image
                  (withDataDisks vm props profile [attachment name id]);
                EvPrintln attachNotice;
                EvWaitForCompletionRef future])%list.
Proof.
  intros World Page cloud a image name mount st st' H.
  destruct (VM_Get cloud (getVMClient cloud a) (groupName a) image
              InstanceView (world st)) as [[e | vm] w1] eqn:HG.
  { erewrite AttachVolume_instance_lookup_fails in H by eassumption.
    discriminate H. }
  destruct (Disks_Get cloud (getDisksClient cloud a) (groupName a) name w1)
    as [[e | disk] w2] eqn:HD.
  { erewrite AttachVolume_disk_lookup_fails in H by eassumption.
    discriminate H. }
  destruct (Disk_ID disk) as [id |] eqn:Hid.
  2:{ erewrite AttachVolume_nil_pointer in H by (try eassumption; auto).
      discriminate H. }
  destruct (hasStorageProfile vm) eqn:Hprof.
  2:{ erewrite AttachVolume_nil_pointer in H by (try eassumption; auto).
      discriminate H. }
  destruct (hasStorageProfile_inv _ Hprof) as [props [profile [Hp Hs]]].
  erewrite AttachVolume_run in H by eassumption.
  rewrite updateAndWait_run in H. simpl in H.
  destruct (VM_CreateOrUpdate cloud (getVMClient cloud a) (groupName a) image
              (withDataDisks vm props profile [attachment name id]) w2)
    as [[e | future] w3] eqn:HU; [discriminate H |].
  destruct (WaitForCompletionRef cloud future (getVMClient cloud a) w3)
    as [[e |] w4] eqn:HW; simpl in H; [discriminate H |].
  injection H as <-. simpl.
  exists vm, disk, id, props, profile, future, w1, w2, w3.
  rewrite HU, HW, <- !app_assoc. simpl. repeat split; auto.
Qed.

(* ================================================================== *)
(** ** [DetachVolume]: what is removed, failures, composition *)
(* ================================================================== *)

(** Whatever the provider answers, the update tail makes one update
    request, for the descriptor it was given. *)
Lemma updateAndWait_submits :
  forall (World Page : Type) (cloud : Cloud World Page) (a : Azure)
         (vmClient : BaseClient) (image : string) (vm : VirtualMachine)
         (notice : string) (st : St World),
    submittedVMs (log (snd (updateAndWait cloud a vmClient image vm notice st)))
    = (submittedVMs (log st) ++ [vm])%list.
Proof.
  intros. rewrite updateAndWait_run.
  destruct (VM_CreateOrUpdate cloud vmClient (groupName a) image vm (world st))
    as [[e | future] w1]; simpl; rewrite !submittedVMs_app; simpl;
    rewrite ?app_nil_r; reflexivity.
Qed.

Lemma filter_keeps_spec (name : string) (ds : list DataDisk) :
  Forall (namedOtherThan name) (filter (keeps name) ds)
  /\ (forall d, In d ds -> namedOtherThan name d -> In d (filter (keeps name) ds))
  /\ (forall d, In d (filter (keeps name) ds) -> In d ds).
Proof.
  split; [| split].
  - apply Forall_forall. intros d Hd. apply filter_In in Hd.
    destruct Hd as [_ Hk]. unfold keeps in Hk.
    destruct (DataDisk_Name d) as [n |] eqn:Hn; [| discriminate Hk].
    exists n. split; [exact Hn |].
    apply String.eqb_neq. apply negb_true_iff. exact Hk.
  - intros d Hin [n [Hn Hneq]]. apply filter_In. split; [exact Hin |].
    unfold keeps. rewrite Hn. apply String.eqb_neq in Hneq. rewrite Hneq.
    reflexivity.
  - intros d Hd. apply filter_In in Hd. tauto.
Qed.

Lemma dataDisksOf_withDataDisks (vm : VirtualMachine)
    (props : VirtualMachineProperties) (profile : StorageProfile)
    (ds : list DataDisk) :
  dataDisksOf (withDataDisks vm props profile ds) = Some ds.
Proof. reflexivity. Qed.

(** [DetachVolume] submits the fetched descriptor with its data-disk list
    filtered: every entry of the given name is gone, however many there
    are, every other entry is kept, in the order it had, and no other
    field changes. *)
Theorem DetachVolume_removes_every_entry_of_the_name :
  forall (World Page : Type) (cloud : Cloud World Page) (a : Azure)
         (image name : string) (st : St World)
         (vm : VirtualMachine) (ds : list DataDisk) (w1 : World),
    VM_Get cloud (getVMClient cloud a) (groupName a) image InstanceView
      (world st)
    = (inr vm, w1) ->
    dataDisksOf vm = Some ds ->
    Forall (fun d => named d = true) ds ->
    exists vm',
      submittedVMs (log (snd (DetachVolume cloud a image name st)))
      = (submittedVMs (log st) ++ [vm'])%list
      /\ sameButDataDisks vm vm'
      /\ dataDisksOf vm' = Some (filter (keeps name) ds)
      /\ Forall (namedOtherThan name) (filter (keeps name) ds)
      /\ (forall d,
            In d ds -> namedOtherThan name d ->
            In d (filter (keeps name) ds))
      /\ (List.length (filter (keeps name) ds) <= List.length ds)%nat.
Proof.
  intros World Page cloud a image name st vm ds w1 HG Hds Hnamed.
  destruct (dataDisksOf_inv _ Hds) as [props [profile [Hp [Hs Hd]]]].
  exists (withDataDisks vm props profile (filter (keeps name) ds)).
  erewrite DetachVolume_run by eassumption.
  rewrite updateAndWait_submits. simpl.
  rewrite submittedVMs_app. simpl. rewrite app_nil_r.
  destruct (filter_keeps_spec name ds) as [Hall [Hkept _]].
  split; [reflexivity |].
  split; [apply withDataDisks_frame; assumption |].
  split; [reflexivity |]. split; [exact Hall |]. split; [exact Hkept |].
  apply filter_length_le.
Qed.

Lemma filter_keeps_twice (name : string) (ds : list DataDisk) :
  filter (keeps name) (filter (keeps name) ds) = filter (keeps name) ds.
Proof.
  induction ds as [| d ds IH]; simpl; [reflexivity |].
  destruct (keeps name d) eqn:Hk; simpl; rewrite ?Hk, IH; reflexivity.
Qed.

Lemma filter_keeps_named (name : string) (ds : list DataDisk) :
  Forall (fun d => named d = true) (filter (keeps name) ds).
Proof.
  apply namedOtherThan_named with name. apply filter_keeps_spec.
Qed.

(** Detaching the same name twice: if the instance is fetched the second
    time as it was submitted the first time, the second call submits that
    same descriptor again. *)
Theorem DetachVolume_twice_submits_the_same :
  forall (World Page : Type) (cloud : Cloud World Page) (a : Azure)
         (image name : string) (st : St World)
         (vm : VirtualMachine) (ds : list DataDisk) (w1 : World),
    VM_Get cloud (getVMClient cloud a) (groupName a) image InstanceView
      (world st)
    = (inr vm, w1) ->
    dataDisksOf vm = Some ds ->
    Forall (fun d => named d = true) ds ->
    exists vm',
      submittedVMs (log (snd (DetachVolume cloud a image name st)))
      = (submittedVMs (log st) ++ [vm'])%list
      /\ forall (st2 : St World) (w2 : World),
          VM_Get cloud (getVMClient cloud a) (groupName a) image InstanceView
            (world st2)
          = (inr vm', w2) ->
          submittedVMs (log (snd (DetachVolume cloud a image name st2)))
          = (submittedVMs (log st2) ++ [vm'])%list.
Proof.
  intros World Page cloud a image name st vm ds w1 HG Hds Hnamed.
  destruct (dataDisksOf_inv _ Hds) as [props [profile [Hp [Hs Hd]]]].
  exists (withDataDisks vm props profile (filter (keeps name) ds)).
  split.
  - erewrite DetachVolume_run by eassumption.
    rewrite updateAndWait_submits. simpl.
    rewrite submittedVMs_app. simpl. rewrite app_nil_r. reflexivity.
  - intros st2 w2 HG2.
    erewrite DetachVolume_run
      by (try exact HG2; try reflexivity; apply filter_keeps_named).
    rewrite updateAndWait_submits. simpl.
    rewrite submittedVMs_app. simpl. rewrite app_nil_r.
    change (fun d : DataDisk =>
              match DataDisk_Name d with
              | Some n => negb (n =? name)%string
              | None => false
              end) with (keeps name).
    rewrite filter_keeps_twice. reflexivity.
Qed.

(** [DetachVolume] after [AttachVolume] of the same name: if the instance
    is fetched as the attach submitted it, the detach submits it with an
    empty, non-nil data-disk list; the data disks the instance had before
    the attach are not restored. *)
Theorem DetachVolume_after_AttachVolume_leaves_no_data_disk :
  forall (World Page : Type) (cloud : Cloud World Page) (a : Azure)
         (image name mount : string) (st : St World)
         (vm : VirtualMachine) (disk : Disk) (id : string) (w1 w2 : World),
    VM_Get cloud (getVMClient cloud a) (groupName a) image InstanceView
      (world st)
    = (inr vm, w1) ->
    Disks_Get cloud (getDisksClient cloud a) (groupName a) name w1
    = (inr disk, w2) ->
    Disk_ID disk = Some id ->
    hasStorageProfile vm = true ->
    exists vmA,
      submittedVMs (log (snd (AttachVolume cloud a image name mount st)))
      = (submittedVMs (log st) ++ [vmA])%list
      /\ dataDisksOf vmA = Some [attachment name id]
      /\ forall (st2 : St World) (w3 : World),
          VM_Get cloud (getVMClient cloud a) (groupName a) image InstanceView
            (world st2)
          = (inr vmA, w3) ->
          exists vmD,
            submittedVMs (log (snd (DetachVolume cloud a image name st2)))
            = (submittedVMs (log st2) ++ [vmD])%list
            /\ dataDisksOf vmD = Some []
            /\ sameButDataDisks vm vmD.
Proof.
  intros World Page cloud a image name mount st vm disk id w1 w2
    HG HD Hid Hprof.
  destruct (hasStorageProfile_inv _ Hprof) as [props [profile [Hp Hs]]].
  exists (withDataDisks vm props profile [attachment name id]).
  split; [| split; [reflexivity |]].
  - erewrite AttachVolume_run by eassumption.
    rewrite updateAndWait_submits. simpl.
    rewrite !submittedVMs_app. simpl. rewrite !app_nil_r. reflexivity.
  - intros st2 w3 HG2.
    exists (withDataDisks vm props profile []).
    erewrite DetachVolume_run
      by (try exact HG2; try reflexivity; repeat constructor).
    rewrite updateAndWait_submits. simpl.
    rewrite submittedVMs_app. simpl. rewrite app_nil_r.
    rewrite String.eqb_refl. simpl.
    split; [reflexivity |]. split; [reflexivity |].
    apply withDataDisks_frame; assumption.
Qed.

(** The failures of [DetachVolume]: a failed lookup is returned as it is
    and nothing is submitted; a rejected submission is returned under
    ["cannot update vm: "] without any wait; a failed wait under
    ["cannot get the vm create or update future response: "]. *)
Theorem DetachVolume_failures :
  forall (World Page : Type) (cloud : Cloud World Page) (a : Azure)
         (image name : string) (st : St World),
    let out := DetachVolume cloud a image name st in
    let getVM := EvVMGet (groupName a) image InstanceView in
    (forall e w1,
        VM_Get cloud (getVMClient cloud a) (groupName a) image InstanceView
          (world st)
        = (inl e, w1) ->
        fst out = Returns (Some e)
        /\ log (snd out) = (log st ++ [getVM])%list)
    /\ (forall vm ds w1 props profile,
          VM_Get cloud (getVMClient cloud a) (groupName a) image InstanceView
            (world st)
          = (inr vm, w1) ->
          VirtualMachineProperties_ vm = Some props ->
          StorageProfile_ props = Some profile ->
          DataDisks profile = Some ds ->
          Forall (fun d => named d = true) ds ->
          let vm' := withDataDisks vm props profile (filter (keeps name) ds) in
          let submit := EvVMCreateOrUpdate (groupName a) image vm' in
          (forall e w2,
              VM_CreateOrUpdate cloud (getVMClient cloud a) (groupName a)
                image vm' w1
              = (inl e, w2) ->
              fst out = Returns (Some (Errorf "cannot update vm: " e))
              /\ log (snd out) = (log st ++ [getVM; submit])%list)
          /\ (forall future w2 e w3,
                VM_CreateOrUpdate cloud (getVMClient cloud a) (groupName a)
                  image vm' w1
                = (inr future, w2) ->
                WaitForCompletionRef cloud future (getVMClient cloud a) w2
                = (Some e, w3) ->
                fst out
                = Returns
                    (Some
                       (Errorf
                          "cannot get the vm create or update future response: "
                          e))
                /\ log (snd out)
                   = (log st
                      ++ [getVM; submit; EvPrintln detachNotice;
                          EvWaitForCompletionRef future])%list)).
Proof.
  intros World Page cloud a image name st out getVM. subst out getVM.
  split.
  - intros e w1 HG. unfold DetachVolume. step_run. rewrite HG. auto.
  - intros vm ds w1 props profile HG Hp Hs Hd Hnamed vm' submit.
    subst vm' submit.
    erewrite DetachVolume_run by eassumption.
    rewrite updateAndWait_run. simpl.
    change (fun d : DataDisk =>
              match DataDisk_Name d with
              | Some n => negb (n =? name)%string
              | None => false
              end) with (keeps name).
    split.
    + intros e w2 HU. rewrite HU. simpl. rewrite <- app_assoc. auto.
    + intros future w2 e w3 HU HW. rewrite HU. simpl. rewrite HW. simpl.
      rewrite <- !app_assoc. auto.
Qed.

(** An instance that comes back without a data-disk list (or without the
    storage profile that holds it) makes [DetachVolume] panic right after
    the lookup: nothing is submitted. *)
Theorem DetachVolume_panics_without_data_disk_list :
  forall (World Page : Type) (cloud : Cloud World Page) (a : Azure)
         (image name : string) (st : St World)
         (vm : VirtualMachine) (w1 : World),
    VM_Get cloud (getVMClient cloud a) (groupName a) image InstanceView
      (world st)
    = (inr vm, w1) ->
    dataDisksOf vm = None ->
    DetachVolume cloud a image name st
    = (Panics NilDereference,
       {| world := w1; conf := conf st;
          log := (log st ++ [EvVMGet (groupName a) image InstanceView])%list
       |}).
Proof.
  intros World Page cloud a image name st vm w1 HG Hnone.
  unfold DetachVolume, getDataDisks. step_run. rewrite HG. simpl.
  unfold dataDisksOf in Hnone.
  destruct (VirtualMachineProperties_ vm) as [props |]; simpl;
    [| reflexivity].
  destruct (StorageProfile_ props) as [profile |]; simpl; [| reflexivity].
  rewrite Hnone. reflexivity.
Qed.

(* ================================================================== *)
(** ** The size of a listed volume *)
(* ================================================================== *)

(** The [Size] of every listed volume is the decimal text of the
    [DiskSizeGB] of its disk, and [strconv.Atoi], which [CreateVolume]
    reads sizes with, reads it back as that number. *)
Theorem listed_Size_reads_back :
  forall (World Page : Type) (cloud : Cloud World Page) (a : Azure)
         (fuel : nat) (st st' : St World) (vols : list NanosVolume)
         (err : option error),
    GetAllVolumes cloud a fuel st = (Returns (Some vols, err), st') ->
    Forall
      (fun v =>
         exists p disks d g,
           Page_Values cloud p = Some disks /\ In d disks
           /\ Disk_Name d = Some (Name v)
           /\ diskSizeGB d = Some g
           /\ Size v = Itoa g
           /\ (- 2 ^ 31 <= g < 2 ^ 31 -> Atoi (Size v) = inr g))
      vols.
Proof.
  intros World Page cloud a fuel st st' vols err H.
  unfold GetAllVolumes in H.
  apply bind_inv in H. destruct H as [r [st1 [_ H]]].
  destruct r as [e | page]; [discriminate H |].
  apply bind_inv in H. destruct H as [vols1 [st2 [Hloop H]]].
  injection H as <- _ _.
  apply pagesLoop_inv in Hloop. destruct Hloop as [new [-> Hnew]].
  simpl. eapply Forall_impl; [| exact Hnew].
  intros v [p [disks [d [Hvals [Hin [Hname [Hprops _]]]]]]].
  destruct Hprops as [props [g [t [Hp [Hg [_ [_ [Hsize _]]]]]]]].
  exists p, disks, d, g. unfold diskSizeGB. rewrite Hp.
  repeat split; try assumption.
  intros Hrange. rewrite Hsize. apply Atoi_Itoa. unfold maxInt64. lia.
Qed.

(** The listing of one page of two disks, of sizes 1 and 2. *)
Lemma listed_Size_reads_back_witness :
  GetAllVolumes Sim.cloud Sim.azure 2
    (Sim.start (Sim.account [[Sim.d1; Sim.d2]] []))
  = (Returns (Some [Sim.v1; Sim.v2], None),
     snd
       (GetAllVolumes Sim.cloud Sim.azure 2
          (Sim.start (Sim.account [[Sim.d1; Sim.d2]] []))))
  /\ Forall
       (fun v =>
          exists p disks d g,
            Page_Values Sim.cloud p = Some disks /\ In d disks
            /\ Disk_Name d = Some (Name v)
            /\ diskSizeGB d = Some g
            /\ Size v = Itoa g
            /\ (- 2 ^ 31 <= g < 2 ^ 31 -> Atoi (Size v) = inr g))
       [Sim.v1; Sim.v2].
Proof.
  split; [reflexivity |].
  exact
    (@listed_Size_reads_back _ _ Sim.cloud Sim.azure 2
       (Sim.start (Sim.account [[Sim.d1; Sim.d2]] []))
       _ [Sim.v1; Sim.v2] None eq_refl).
Defined.

(* ================================================================== *)
(** ** The added properties on the simulated provider *)
(* ================================================================== *)

(** The listing of one page of two disks: one [List], two [Next()]. *)
Lemma GetAllVolumes_calls_witness :
  log
    (snd
       (GetAllVolumes Sim.cloud Sim.azure 2
          (Sim.start (Sim.account [[Sim.d1; Sim.d2]] []))))
  = [EvDisksList; EvPageNext; EvPageNext]
  /\ mutations
       (log
          (snd
             (GetAllVolumes Sim.cloud Sim.azure 2
                (Sim.start (Sim.account [[Sim.d1; Sim.d2]] [])))))
     = [].
Proof.
  destruct
    (@GetAllVolumes_calls _ _ Sim.cloud Sim.azure 2
       (Sim.start (Sim.account [[Sim.d1; Sim.d2]] []))
       _ (Some [Sim.v1; Sim.v2]) None eq_refl)
    as [[[e [Hnone _]] | [vols [Hvols [_ Hlog]]]] Hmut].
  - discriminate Hnone.
  - injection Hvols as <-. split; [exact Hlog | exact Hmut].
Defined.

Lemma GetAllVolumes_single_page_witness :
  exists vols,
    fst
      (GetAllVolumes Sim.cloud Sim.azure 2
         (Sim.start (Sim.account [[Sim.d1; Sim.d2]] [])))
    = Returns (Some vols, None)
    /\ Forall2 listedAs [Sim.d1; Sim.d2] vols.
Proof.
  refine
    (@GetAllVolumes_single_page _ _ Sim.cloud Sim.azure 0%nat
       (Sim.start (Sim.account [[Sim.d1; Sim.d2]] []))
       [[Sim.d1; Sim.d2]] _ [Sim.d1; Sim.d2] eq_refl eq_refl _ eq_refl).
  repeat constructor.
Defined.

Lemma CreateVolume_success_means_created_witness :
  exists n c1 w1 w2,
    Atoi "5000000000" = inr n
    /\ CreateLocalVolume Sim.cloud Sim.config "vol1" "" "5000000000" "azure"
         (Sim.account [] [])
       = ((c1, (Sim.localVolume "vol1" "5000000000", None)), w1)
    /\ CopyToBucket Sim.cloud (setImageName "vol1" c1) "/tmp/vol1.raw" w1
       = ((setImageName "vol1" Sim.config, None), w2).
Proof.
  destruct
    (@CreateVolume_success_means_created _ _ Sim.cloud Sim.azure
       "vol1" "" "5000000000" "azure" (Sim.start (Sim.account [] []))
       _ (Sim.localVolume "vol1" "5000000000") eq_refl)
    as [n [c1 [w1 [w2 [HA [HS [HU _]]]]]]].
  exists n, c1, w1, w2. split; [exact HA |]. split; [exact HS | exact HU].
Defined.


(** The size ["3000000000000000"]: 3,000,000,000 does not fit 32 bits. *)
Lemma CreateVolume_size_wraps_around_witness :
  Atoi "3000000000000000" = inr 3000000000000000
  /\ exists d g,
      createdDisks
        (log
           (snd
              (CreateVolume Sim.cloud Sim.azure "vol1" "" "3000000000000000"
                 "azure" (Sim.start (Sim.account [] [])))))
      = [d]
      /\ diskSizeGB d = Some g /\ g = - 1294967296.
Proof.
  split; [reflexivity |].
  destruct
    (@CreateVolume_size_wraps_around _ _ Sim.cloud Sim.azure
       "vol1" "" "3000000000000000" "azure" (Sim.start (Sim.account [] []))
       3000000000000000 Sim.config (setImageName "vol1" Sim.config)
       (Sim.localVolume "vol1" "3000000000000000")
       (Sim.account [] []) (Sim.account [] [])
       eq_refl eq_refl eq_refl ltac:(lia))
    as [d [g [Hd [Hg [Hval _]]]]].
  exists d, g. split; [exact Hd |]. split; [exact Hg | exact Hval].
Defined.

(** No bucket is configured: the disk comes from the storage account. *)
Lemma CreateVolume_imports_from_the_bucket_witness :
  exists d props cd,
    createdDisks
      (log
         (snd
            (CreateVolume Sim.cloud Sim.azure "vol1" "" "5000000000" "azure"
               (Sim.start (Sim.account [] [])))))
    = [d]
    /\ DiskProperties_ d = Some props
    /\ CreationData_ props = Some cd
    /\ SourceURI cd
       = Some "https://store1.blob.core.windows.net/quickstart-nanos/vol1.vhd".
Proof.
  destruct
    (@CreateVolume_imports_from_the_bucket _ _ Sim.cloud Sim.azure
       "vol1" "" "5000000000" "azure" (Sim.start (Sim.account [] []))
       5000000000 Sim.config (setImageName "vol1" Sim.config)
       (Sim.localVolume "vol1" "5000000000")
       (Sim.account [] []) (Sim.account [] [])
       eq_refl eq_refl eq_refl)
    as [d [props [cd [bucket [Hd [Hp [Hc [_ [Huri [_ [Hempty _]]]]]]]]]]].
  exists d, props, cd. split; [exact Hd |]. split; [exact Hp |].
  split; [exact Hc |]. rewrite Huri, (Hempty eq_refl). reflexivity.
Defined.

(** The instance lookup is throttled; then the disk lookup is. *)
Lemma AttachVolume_lookup_failures_witness :
  (fst
     (AttachVolume Sim.cloud Sim.azure "web" "vol1" ""
        (Sim.start (Sim.account [[Sim.d1]] [Some Sim.throttled])))
   = Returns (Some Sim.throttled)
   /\ log
        (snd
           (AttachVolume Sim.cloud Sim.azure "web" "vol1" ""
              (Sim.start (Sim.account [[Sim.d1]] [Some Sim.throttled]))))
      = [EvVMGet "rg-1" "web" InstanceView])
  /\ fst
       (AttachVolume Sim.cloud Sim.azure "web" "vol1" ""
          (Sim.start (Sim.account [[Sim.d1]] [None; Some Sim.throttled])))
     = Returns (Some Sim.throttled)
  /\ log
       (snd
          (AttachVolume Sim.cloud Sim.azure "web" "vol1" ""
             (Sim.start (Sim.account [[Sim.d1]] [None; Some Sim.throttled]))))
     = [EvVMGet "rg-1" "web" InstanceView; EvDisksGet "rg-1" "vol1"].
Proof.
  split.
  - exact
      (proj1
         (@AttachVolume_lookup_failures _ _ Sim.cloud Sim.azure "web" "vol1"
            "" (Sim.start (Sim.account [[Sim.d1]] [Some Sim.throttled])))
         Sim.throttled _ eq_refl).
  - exact
      (proj2
         (@AttachVolume_lookup_failures _ _ Sim.cloud Sim.azure "web" "vol1"
            ""
            (Sim.start (Sim.account [[Sim.d1]] [None; Some Sim.throttled])))
         _ _ Sim.throttled _ eq_refl eq_refl).
Defined.

(** The disk ["vol1"] comes back without identifier. *)
Lemma AttachVolume_panics_on_missing_pointers_witness :
  fst
    (AttachVolume Sim.cloud Sim.azure "bare" "vol1" ""
       (Sim.start (bareAccount [])))
  = Panics NilDereference
  /\ submittedVMs
       (log
          (snd
             (AttachVolume Sim.cloud Sim.azure "bare" "vol1" ""
                (Sim.start (bareAccount [])))))
     = [].
Proof.
  destruct
    (@AttachVolume_panics_on_missing_pointers _ _ Sim.cloud Sim.azure
       "bare" "vol1" "" (Sim.start (bareAccount []))
       (Sim.vm "bare" None) diskWithoutID (bareAccount []) (bareAccount [])
       eq_refl eq_refl (or_introl eq_refl))
    as [Hout [_ Hsub]].
  split; [exact Hout | exact Hsub].
Defined.

Lemma AttachVolume_success_means_attached_witness :
  exists vm disk id props profile future w1 w2 w3,
    VM_Get Sim.cloud (getVMClient Sim.cloud Sim.azure) "rg-1" "web"
      InstanceView (Sim.account [[Sim.d1]] [])
    = (inr vm, w1)
    /\ Disks_Get Sim.cloud (getDisksClient Sim.cloud Sim.azure) "rg-1"
         "vol1" w1
       = (inr disk, w2)
    /\ Disk_ID disk = Some id
    /\ VirtualMachineProperties_ vm = Some props
    /\ StorageProfile_ props = Some profile
    /\ VM_CreateOrUpdate Sim.cloud (getVMClient Sim.cloud Sim.azure) "rg-1"
         "web" (withDataDisks vm props profile [attachment "vol1" id]) w2
       = (inr future, w3).
Proof.
  destruct
    (@AttachVolume_success_means_attached _ _ Sim.cloud Sim.azure
       "web" "vol1" "" (Sim.start (Sim.account [[Sim.d1]] [])) _ eq_refl)
    as [vm [disk [id [props [profile [future [w1 [w2 [w3 H]]]]]]]]].
  exists vm, disk, id, props, profile, future, w1, w2, w3.
  destruct H as [H1 [H2 [H3 [H4 [H5 [H6 _]]]]]].
  exact (conj H1 (conj H2 (conj H3 (conj H4 (conj H5 H6))))).
Defined.

(** Detaching ["vol2"] from ["web"], which holds ["vol2"] and
    ["vol9"]. *)
Lemma DetachVolume_removes_every_entry_of_the_name_witness :
  exists vm',
    submittedVMs
      (log
         (snd
            (DetachVolume Sim.cloud Sim.azure "web" "vol2"
               (Sim.start (Sim.account [] [])))))
    = [vm']
    /\ dataDisksOf vm' = Some [Sim.dataDisk 1 "vol9"].
Proof.
  destruct
    (@DetachVolume_removes_every_entry_of_the_name _ _ Sim.cloud Sim.azure
       "web" "vol2" (Sim.start (Sim.account [] []))
       (Sim.vm "web" (Some [Sim.dataDisk 0 "vol2"; Sim.dataDisk 1 "vol9"]))
       [Sim.dataDisk 0 "vol2"; Sim.dataDisk 1 "vol9"] (Sim.account [] [])
       eq_refl eq_refl ltac:(repeat constructor))
    as [vm' [Hsub [_ [Hds _]]]].
  exists vm'. split; [exact Hsub | exact Hds].
Defined.

Lemma DetachVolume_twice_submits_the_same_witness :
  exists vm',
    submittedVMs
      (log
         (snd
            (DetachVolume Sim.cloud Sim.azure "web" "vol2"
               (Sim.start (Sim.account [] [])))))
    = [vm']
    /\ submittedVMs
         (log
            (snd
               (DetachVolume Sim.cloud Sim.azure "web" "vol2"
                  (Sim.start
                     (snd
                        (VM_CreateOrUpdate Sim.cloud
                           (getVMClient Sim.cloud Sim.azure) "rg-1" "web"
                           vm' (Sim.account [] [])))))))
       = [vm'].
Proof.
  destruct
    (@DetachVolume_twice_submits_the_same _ _ Sim.cloud Sim.azure
       "web" "vol2" (Sim.start (Sim.account [] []))
       (Sim.vm "web" (Some [Sim.dataDisk 0 "vol2"; Sim.dataDisk 1 "vol9"]))
       [Sim.dataDisk 0 "vol2"; Sim.dataDisk 1 "vol9"] (Sim.account [] [])
       eq_refl eq_refl ltac:(repeat constructor))
    as [vm' [Hfirst Hsecond]].
  exists vm'. split; [exact Hfirst |].
  refine (Hsecond (Sim.start _) _ _). reflexivity.
Defined.

(** ["vol1"] is attached to ["web"], then detached. *)
Lemma DetachVolume_after_AttachVolume_leaves_no_data_disk_witness :
  exists vmA,
    submittedVMs
      (log
         (snd
            (AttachVolume Sim.cloud Sim.azure "web" "vol1" ""
               (Sim.start (Sim.account [[Sim.d1]] [])))))
    = [vmA]
    /\ exists vmD,
        submittedVMs
          (log
             (snd
                (DetachVolume Sim.cloud Sim.azure "web" "vol1"
                   (Sim.start
                      (snd
                         (VM_CreateOrUpdate Sim.cloud
                            (getVMClient Sim.cloud Sim.azure) "rg-1" "web"
                            vmA (Sim.account [[Sim.d1]] [])))))))
        = [vmD]
        /\ dataDisksOf vmD = Some [].
Proof.
  destruct
    (@DetachVolume_after_AttachVolume_leaves_no_data_disk _ _ Sim.cloud
       Sim.azure "web" "vol1" "" (Sim.start (Sim.account [[Sim.d1]] []))
       (Sim.vm "web" (Some [Sim.dataDisk 0 "vol2"; Sim.dataDisk 1 "vol9"]))
       Sim.d1 "/subscriptions/sub-1/disks/vol1"
       (Sim.account [[Sim.d1]] []) (Sim.account [[Sim.d1]] [])
       eq_refl eq_refl eq_refl eq_refl)
    as [vmA [Hatt [_ Hdet]]].
  exists vmA. split; [exact Hatt |].
  destruct
    (Hdet
       (Sim.start
          (snd
             (VM_CreateOrUpdate Sim.cloud (getVMClient Sim.cloud Sim.azure)
                "rg-1" "web" vmA (Sim.account [[Sim.d1]] []))))
       _ eq_refl)
    as [vmD [Hsub [Hds _]]].
  exists vmD. split; [exact Hsub | exact Hds].
Defined.

(** The lookup, then the submission, then the wait is throttled. *)
Lemma DetachVolume_failures_witness :
  fst
    (DetachVolume Sim.cloud Sim.azure "web" "vol2"
       (Sim.start (Sim.account [] [Some Sim.throttled])))
  = Returns (Some Sim.throttled)
  /\ fst
       (DetachVolume Sim.cloud Sim.azure "web" "vol2"
          (Sim.start (Sim.account [] [None; Some Sim.throttled])))
     = Returns (Some (Errorf "cannot update vm: " Sim.throttled))
  /\ fst
       (DetachVolume Sim.cloud Sim.azure "web" "vol2"
          (Sim.start (Sim.account [] [None; None; Some Sim.throttled])))
     = Returns
         (Some
            (Errorf "cannot get the vm create or update future response: "
               Sim.throttled)).
Proof.
  split; [| split].
  - exact
      (proj1
         (proj1
            (@DetachVolume_failures _ _ Sim.cloud Sim.azure "web" "vol2"
               (Sim.start (Sim.account [] [Some Sim.throttled])))
            Sim.throttled _ eq_refl)).
  - exact
      (proj1
         (proj1
            (proj2
               (@DetachVolume_failures _ _ Sim.cloud Sim.azure "web" "vol2"
                  (Sim.start (Sim.account [] [None; Some Sim.throttled])))
               (Sim.vm "web"
                  (Some [Sim.dataDisk 0 "vol2"; Sim.dataDisk 1 "vol9"]))
               [Sim.dataDisk 0 "vol2"; Sim.dataDisk 1 "vol9"]
               (Sim.account [] [Some Sim.throttled]) _ _
               eq_refl eq_refl eq_refl eq_refl ltac:(repeat constructor))
            Sim.throttled _ eq_refl)).
  - exact
      (proj1
         (proj2
            (proj2
               (@DetachVolume_failures _ _ Sim.cloud Sim.azure "web" "vol2"
                  (Sim.start
                     (Sim.account [] [None; None; Some Sim.throttled])))
               (Sim.vm "web"
                  (Some [Sim.dataDisk 0 "vol2"; Sim.dataDisk 1 "vol9"]))
               [Sim.dataDisk 0 "vol2"; Sim.dataDisk 1 "vol9"]
               (Sim.account [] [None; Some Sim.throttled]) _ _
               eq_refl eq_refl eq_refl eq_refl ltac:(repeat constructor))
            _ _ Sim.throttled _ eq_refl eq_refl)).
Defined.

(** The instance ["bare"] comes back without data-disk list. *)
Lemma DetachVolume_panics_without_data_disk_list_witness :
  dataDisksOf (Sim.vm "bare" None) = None
  /\ DetachVolume Sim.cloud Sim.azure "bare" "vol1"
       (Sim.start (bareAccount []))
     = (Panics NilDereference,
        {| world := bareAccount []; conf := Sim.config;
           log := [EvVMGet "rg-1" "bare" InstanceView] |}).
Proof.
  split; [reflexivity |].
  exact
    (@DetachVolume_panics_without_data_disk_list _ _ Sim.cloud Sim.azure
       "bare" "vol1" (Sim.start (bareAccount [])) (Sim.vm "bare" None)
       (bareAccount []) eq_refl eq_refl).
Defined.

(* ================================================================== *)
(** ** Versions ([parseVersion], [getCurrentVersion]) *)
(* ================================================================== *)

Module CmdFacts.
Import cmd.

Lemma isDigit_digitOf (c : ascii) :
  isDigit c = true -> digitOf c = Some (byteOf c - 48).
Proof.
  unfold isDigit, digitOf, byteOf. intros H. rewrite H. reflexivity.
Qed.

Lemma digitOf_isDigit (c : ascii) (d : Z) :
  digitOf c = Some d -> isDigit c = true.
Proof.
  unfold isDigit, digitOf, byteOf.
  destruct ((48 <=? Z.of_nat (nat_of_ascii c))
            && (Z.of_nat (nat_of_ascii c) <=? 57)); [reflexivity |].
  discriminate.
Qed.

Lemma isDigit_range (c : ascii) :
  isDigit c = true -> 0 <= byteOf c - 48 <= 9.
Proof.
  unfold isDigit. intros H. apply andb_true_iff in H.
  destruct H as [H1 H2]. apply Z.leb_le in H1. apply Z.leb_le in H2. lia.
Qed.

Lemma isDigit_ascii (c : ascii) :
  isDigit c = true -> (byteOf c <? 128) = true.
Proof.
  intros H. pose proof (isDigit_range c H). apply Z.ltb_lt. lia.
Qed.

(** *** Digit strings *)

Lemma decimal_ge (s : string) :
  forall acc, allDigits s = true -> 0 <= acc -> acc <= decimal s acc.
Proof.
  induction s as [| c s IH]; intros acc Hs Hacc; simpl; [lia |].
  simpl in Hs. apply andb_true_iff in Hs. destruct Hs as [Hc Hs].
  pose proof (isDigit_range c Hc).
  specialize (IH (acc * 10 + (byteOf c - 48)) Hs ltac:(lia)). lia.
Qed.

(** [decimal] is positional: the accumulator is shifted by the length. *)
Lemma decimal_shift (s : string) :
  forall acc,
    decimal s acc = acc * 10 ^ Z.of_nat (String.length s) + decimal s 0.
Proof.
  induction s as [| c s IH]; intros acc.
  - simpl. lia.
  - cbn [decimal String.length]. rewrite IH.
    rewrite (IH (0 * 10 + (byteOf c - 48))).
    rewrite Nat2Z.inj_succ, Z.pow_succ_r by lia. ring.
Qed.

Lemma decimal_bound (s : string) :
  allDigits s = true -> 0 <= decimal s 0 < 10 ^ Z.of_nat (String.length s).
Proof.
  induction s as [| c s IH]; intros Hs.
  - simpl. lia.
  - simpl in Hs. apply andb_true_iff in Hs. destruct Hs as [Hc Hs].
    pose proof (isDigit_range c Hc). specialize (IH Hs).
    cbn [decimal String.length]. rewrite decimal_shift.
    rewrite Nat2Z.inj_succ, Z.pow_succ_r by lia. nia.
Qed.

Lemma decimal_app (s t : string) (acc : Z) :
  decimal (s ++ t) acc = decimal t (decimal s acc).
Proof.
  revert acc. induction s as [| c s IH]; intros acc; simpl; [reflexivity |].
  apply IH.
Qed.

Lemma allDigits_app (s t : string) :
  allDigits (s ++ t) = allDigits s && allDigits t.
Proof.
  induction s as [| c s IH]; simpl; [reflexivity |].
  rewrite IH. apply andb_assoc.
Qed.

Lemma length_app (s t : string) :
  String.length (s ++ t) = (String.length s + String.length t)%nat.
Proof. induction s as [| c s IH]; simpl; [reflexivity | now rewrite IH]. Qed.

(** [ParseUint] on a digit string whose number fits. *)
Lemma scanUint_digits (s : string) :
  forall acc,
    allDigits s = true -> 0 <= acc -> decimal s acc <= maxUint64 ->
    scanUint s acc = ScanOk (decimal s acc).
Proof.
  induction s as [| c s IH]; intros acc Hs Hacc Hmax; [reflexivity |].
  simpl in Hs. apply andb_true_iff in Hs. destruct Hs as [Hc Hs].
  pose proof (isDigit_range c Hc) as Hd.
  cbn [scanUint decimal] in *. rewrite (isDigit_digitOf c Hc).
  pose proof (@decimal_ge s (acc * 10 + (byteOf c - 48)) Hs ltac:(lia)).
  change (maxUint64 / 10 + 1) with 1844674407370955162.
  unfold maxUint64 in *.
  destruct (acc >=? 1844674407370955162) eqn:Hc1;
    [apply Z.geb_le in Hc1; lia |].
  cbv zeta.
  destruct (acc * 10 + (byteOf c - 48) >? 2 ^ 64 - 1) eqn:Hc2;
    [apply Z.gtb_lt in Hc2; lia |].
  apply IH; [exact Hs | lia | exact Hmax].
Qed.

Lemma scanUint_ok_digits (s : string) :
  forall acc n, scanUint s acc = ScanOk n -> allDigits s = true.
Proof.
  induction s as [| c s IH]; intros acc n H; [reflexivity |].
  cbn [scanUint] in H. destruct (digitOf c) as [d |] eqn:Hd;
    [| discriminate H].
  simpl. rewrite (digitOf_isDigit c Hd). simpl.
  destruct (acc >=? maxUint64 / 10 + 1); [discriminate H |].
  cbv zeta in H.
  destruct (acc * 10 + d >? maxUint64); [discriminate H |].
  eapply IH. exact H.
Qed.

(** [strconv.ParseInt] on a digit string that is not empty. *)
Lemma ParseInt_digits (s : string) :
  s <> "" -> allDigits s = true -> decimal s 0 <= maxInt64 ->
  ParseInt s = inr (decimal s 0).
Proof.
  intros Hne Hs Hmax. unfold maxInt64 in Hmax.
  destruct s as [| c s]; [contradiction Hne; reflexivity |].
  unfold ParseInt, ParseUint.
  assert (Hc : isDigit c = true).
  { simpl in Hs. apply andb_true_iff in Hs. tauto. }
  assert (Hsign : isPlus c = false /\ isMinus c = false).
  { unfold isPlus, isMinus.
    split; apply Ascii.eqb_neq; intros ->; vm_compute in Hc;
      discriminate Hc. }
  destruct Hsign as [-> ->]. cbn [orb].
  rewrite scanUint_digits by (try assumption; unfold maxUint64; lia).
  cbn [negb andb].
  destruct (decimal (String c s) 0 >=? 2 ^ 63) eqn:Hr;
    [apply Z.geb_le in Hr; lia |].
  reflexivity.
Qed.

(** *** Padding *)

Lemma runeCount_digits (s : string) :
  allDigits s = true -> RuneCountInString s = Z.of_nat (String.length s).
Proof.
  unfold RuneCountInString.
  induction s as [| c s IH]; intros Hs; [reflexivity |].
  simpl in Hs. apply andb_true_iff in Hs. destruct Hs as [Hc Hs].
  cbn [runeCount String.length]. unfold runeSize.
  rewrite (isDigit_ascii c Hc). cbn [Nat.sub]. rewrite (IH Hs). lia.
Qed.

Lemma writePadding_S (zero : bool) (k : nat) :
  String.concat "" (repeat (if zero then "0" else " ") (S k))
  = (if zero then "0" else " ")
    ++ String.concat "" (repeat (if zero then "0" else " ") k).
Proof. destruct k; destruct zero; reflexivity. Qed.

Lemma zeros_spec (k : nat) :
  let z := String.concat "" (repeat "0" k) in
  allDigits z = true /\ String.length z = k
  /\ forall acc, decimal z acc = acc * 10 ^ Z.of_nat k.
Proof.
  induction k as [| k [IH1 [IH2 IH3]]].
  - simpl. repeat split. intros acc. lia.
  - cbv zeta. rewrite (writePadding_S true k). cbn [append].
    cbn [allDigits String.length decimal]. rewrite IH1, IH2.
    repeat split. intros acc. rewrite IH3.
    change (byteOf "0" - 48) with 0.
    rewrite Nat2Z.inj_succ, Z.pow_succ_r by lia. ring.
Qed.

(** A component of at most [width] digits is padded with zeros to
    exactly [width] digits. *)
Lemma Sprintf_pad_digits (width : Z) (v c : string) :
  1 <= width <= 1000000 ->
  allDigits c = true -> Z.of_nat (String.length c) <= width ->
  exists z,
    Sprintf_pad width v c = v ++ z ++ c
    /\ allDigits z = true
    /\ Z.of_nat (String.length z) = width - Z.of_nat (String.length c)
    /\ forall acc, decimal z acc = acc * 10 ^ Z.of_nat (String.length z).
Proof.
  intros Hw Hc Hlen. unfold Sprintf_pad.
  destruct (Z.abs width ÷ 10 >? 1000000) eqn:Hbig.
  { apply Z.gtb_lt in Hbig.
    pose proof (Z.quot_le_mono (Z.abs width) 1000000 10 ltac:(lia)
                  ltac:(lia)) as Hq.
    change (1000000 ÷ 10) with 100000 in Hq. lia. }
  destruct (width =? 0) eqn:H0; [apply Z.eqb_eq in H0; lia |].
  destruct (width <? 0) eqn:Hneg; [apply Z.ltb_lt in Hneg; lia |].
  unfold padString, writePadding. cbn [negb].
  rewrite (runeCount_digits c Hc).
  destruct (zeros_spec (Z.to_nat (width - Z.of_nat (String.length c))))
    as [Hz1 [Hz2 Hz3]].
  eexists. split; [reflexivity |]. split; [exact Hz1 |].
  rewrite Hz2. split; [lia | exact Hz3].
Qed.

(** The text [parseVersion] reads, for components of at most [width]
    digits: digits only, [width] of them per component, and the number
    they write is positional in the components. *)
Lemma versionText_digits (width : Z) (comps : list string) :
  1 <= width <= 1000000 ->
  Forall
    (fun c => allDigits c = true /\ Z.of_nat (String.length c) <= width)
    comps ->
  forall v,
    allDigits v = true ->
    let r := fold_left (fun v value => Sprintf_pad width v value) comps v in
    allDigits r = true
    /\ Z.of_nat (String.length r)
       = Z.of_nat (String.length v) + width * Z.of_nat (List.length comps)
    /\ decimal r 0
       = fold_left (fun acc x => acc * 10 ^ width + x)
           (map component comps) (decimal v 0).
Proof.
  intros Hw Hcomps. induction Hcomps as [| c comps [Hc Hlen] _ IH];
    intros v Hv.
  - simpl. repeat split; [exact Hv | lia].
  - cbn [fold_left map List.length].
    destruct (@Sprintf_pad_digits width v c Hw Hc Hlen)
      as [z [-> [Hz [Hzl Hzd]]]].
    assert (Hv' : allDigits (v ++ z ++ c) = true).
    { rewrite !allDigits_app, Hv, Hz, Hc. reflexivity. }
    destruct (IH _ Hv') as [H1 [H2 H3]]. cbv zeta.
    split; [exact H1 |]. split.
    + rewrite H2, !length_app. lia.
    + rewrite H3. f_equal.
      rewrite !decimal_app, (decimal_shift c), Hzd.
      unfold component. rewrite <- Z.mul_assoc, <- Z.pow_add_r by lia.
      replace (Z.of_nat (String.length z) + Z.of_nat (String.length c))
        with width by lia.
      reflexivity.
Qed.

(** *** Splitting what was joined *)

Lemma allDigits_lacks_dot (s : string) :
  allDigits s = true -> lacks "." s = true.
Proof.
  induction s as [| c s IH]; intros Hs; [reflexivity |].
  simpl in Hs. apply andb_true_iff in Hs. destruct Hs as [Hc Hs].
  simpl. rewrite (IH Hs), andb_true_r. apply negb_true_iff.
  apply Ascii.eqb_neq. intros ->. vm_compute in Hc. discriminate Hc.
Qed.

Lemma Split_single (sep : ascii) (s : string) :
  lacks sep s = true -> Split s sep = [s].
Proof.
  induction s as [| c s IH]; intros Hs; [reflexivity |].
  simpl in Hs. apply andb_true_iff in Hs. destruct Hs as [Hc Hs].
  simpl. apply negb_true_iff in Hc. rewrite Hc, (IH Hs). reflexivity.
Qed.

Lemma Split_cons (sep : ascii) (s rest : string) :
  lacks sep s = true ->
  Split (s ++ String sep rest) sep = s :: Split rest sep.
Proof.
  induction s as [| c s IH]; intros Hs.
  - simpl. rewrite Ascii.eqb_refl. reflexivity.
  - simpl in Hs. apply andb_true_iff in Hs. destruct Hs as [Hc Hs].
    simpl. apply negb_true_iff in Hc. rewrite Hc, (IH Hs). reflexivity.
Qed.

(** Splitting at the dots gives back the components that were joined
    with dots. *)
Lemma Split_concat (comps : list string) :
  comps <> [] -> Forall (fun c => lacks "." c = true) comps ->
  Split (String.concat "." comps) "." = comps.
Proof.
  intros Hne Hall. induction Hall as [| c comps Hc Hall IH].
  - contradiction Hne. reflexivity.
  - destruct comps as [| c' comps'].
    + simpl. apply Split_single. exact Hc.
    + change (String.concat "." (c :: c' :: comps'))
        with (c ++ String "." (String.concat "." (c' :: comps'))).
      rewrite Split_cons by exact Hc. rewrite IH by discriminate.
      reflexivity.
Qed.

(** *** The number of a version *)

Lemma positional_acc (width : Z) (xs : list Z) :
  forall acc,
    fold_left (fun acc x => acc * 10 ^ width + x) xs acc
    = acc * (10 ^ width) ^ Z.of_nat (List.length xs) + positional width xs.
Proof.
  unfold positional. induction xs as [| x xs IH]; intros acc.
  - simpl. lia.
  - cbn [fold_left List.length]. rewrite IH, (IH (0 * 10 ^ width + x)).
    rewrite Nat2Z.inj_succ, Z.pow_succ_r by lia. ring.
Qed.

Lemma positional_cons (width : Z) (x : Z) (xs : list Z) :
  positional width (x :: xs)
  = x * (10 ^ width) ^ Z.of_nat (List.length xs) + positional width xs.
Proof.
  unfold positional at 1. cbn [fold_left]. rewrite positional_acc. ring.
Qed.

Lemma positional_bound (width : Z) (xs : list Z) :
  0 <= width ->
  Forall (fun x => 0 <= x < 10 ^ width) xs ->
  0 <= positional width xs < (10 ^ width) ^ Z.of_nat (List.length xs).
Proof.
  intros Hw. induction 1 as [| x xs Hx _ IH].
  - unfold positional. simpl. lia.
  - rewrite positional_cons. cbn [List.length].
    rewrite Nat2Z.inj_succ, Z.pow_succ_r by lia.
    assert (0 < 10 ^ width) by (apply Z.pow_pos_nonneg; lia).
    nia.
Qed.

(** Lists of the same length, of numbers below [10 ^ width], compare as
    the numbers they write in base [10 ^ width]. *)
Lemma positional_lex (width : Z) (xs : list Z) :
  0 <= width ->
  forall ys,
    List.length xs = List.length ys ->
    Forall (fun x => 0 <= x < 10 ^ width) xs ->
    Forall (fun x => 0 <= x < 10 ^ width) ys ->
    (positional width xs = positional width ys <-> xs = ys)
    /\ (positional width xs < positional width ys <-> lexLt xs ys).
Proof.
  intros Hw. induction xs as [| x xs IH]; intros ys Hlen Hxs Hys.
  - destruct ys; [| discriminate Hlen]. simpl. split; [tauto | lia].
  - destruct ys as [| y ys]; [discriminate Hlen |].
    injection Hlen as Hlen.
    inversion Hxs as [| ? ? Hx Hxs']; subst.
    inversion Hys as [| ? ? Hy Hys']; subst.
    destruct (IH ys Hlen Hxs' Hys') as [IHeq IHlt].
    pose proof (positional_bound Hw Hxs') as Ba.
    pose proof (positional_bound Hw Hys') as Bb.
    rewrite !positional_cons. rewrite <- Hlen in *.
    set (M := (10 ^ width) ^ Z.of_nat (List.length xs)) in *.
    set (pa := positional width xs) in *.
    set (pb := positional width ys) in *.
    cbn [lexLt]. split; split.
    + intros E. assert (x = y) by nia. subst y.
      assert (pa = pb) by lia. f_equal. apply IHeq. assumption.
    + intros E. injection E as -> E. apply IHeq in E. lia.
    + intros L. destruct (Z.lt_trichotomy x y) as [Hlt | [Heq | Hgt]].
      * left. exact Hlt.
      * right. split; [exact Heq |]. apply IHlt. subst y. lia.
      * exfalso. nia.
    + intros [Hlt | [-> Hl]]; [nia |]. apply IHlt in Hl. lia.
Qed.

Lemma component_bound (width : Z) (c : string) :
  allDigits c = true -> Z.of_nat (String.length c) <= width ->
  0 <= component c < 10 ^ width.
Proof.
  intros Hc Hlen. pose proof (decimal_bound c Hc) as [H0 H1].
  unfold component. split; [exact H0 |].
  eapply Z.lt_le_trans; [exact H1 |].
  apply Z.pow_le_mono_r; lia.
Qed.

Lemma components_bound (width : Z) (comps : list string) :
  Forall
    (fun c => allDigits c = true /\ Z.of_nat (String.length c) <= width)
    comps ->
  Forall (fun x => 0 <= x < 10 ^ width) (map component comps).
Proof.
  induction 1 as [| c comps [Hc Hlen] _ IH]; simpl; constructor;
    [apply component_bound; assumption | exact IH].
Qed.

Lemma parseVersion_components :
  forall (width : Z) (comps : list string),
    1 <= width <= 1000000 ->
    comps <> [] ->
    Forall
      (fun c => allDigits c = true /\ Z.of_nat (String.length c) <= width)
      comps ->
    positional width (map component comps) <= maxInt64 ->
    parseVersion (String.concat "." comps) width
    = ([], Returned (positional width (map component comps))).
Proof.
  intros width comps Hw Hne Hcomps Hmax.
  unfold parseVersion.
  rewrite Split_concat; [| exact Hne |].
  2:{ eapply Forall_impl; [| exact Hcomps].
      intros c [Hc _]. apply allDigits_lacks_dot. exact Hc. }
  destruct (@versionText_digits width comps Hw Hcomps "" eq_refl)
    as [Hd [Hl Hv]].
  cbv zeta in *. change (decimal "" 0) with 0 in Hv.
  fold (positional width (map component comps)) in Hv.
  rewrite ParseInt_digits; rewrite ?Hv; try assumption; [reflexivity |].
  intros E. rewrite E in Hl. simpl in Hl.
  destruct comps; [contradiction Hne; reflexivity |].
  simpl List.length in Hl. nia.
Qed.

(** [parseVersion] of components of at most [width] digits joined with
    dots is the number whose digits in base [10 ^ width] are the
    components, as long as that number fits 63 bits: nothing is printed
    and the process goes on. *)
Theorem parseVersion_value :
  forall (width : Z) (comps : list string),
    1 <= width <= 1000000 ->
    comps <> [] ->
    Forall
      (fun c => allDigits c = true /\ Z.of_nat (String.length c) <= width)
      comps ->
    positional width (map component comps) <= maxInt64 ->
    parseVersion (String.concat "." comps) width
    = ([], Returned (positional width (map component comps))).
Proof. exact parseVersion_components. Qed.

Lemma parseVersion_compare :
  forall (width : Z) (count : nat) (xs ys : list string),
    1 <= width -> width * Z.of_nat count <= 18 ->
    wellFormed width count xs -> wellFormed width count ys ->
    List.length xs = List.length ys ->
    exists x y,
      parseVersion (String.concat "." xs) width = ([], Returned x)
      /\ parseVersion (String.concat "." ys) width = ([], Returned y)
      /\ (x = y <-> map component xs = map component ys)
      /\ (x < y <-> lexLt (map component xs) (map component ys)).
Proof.
  intros width count xs ys Hw Hcount [Hxne [Hxc Hxs]] [Hyne [Hyc Hys]] Hlen.
  assert (Hfits :
            forall comps,
              (List.length comps <= count)%nat ->
              Forall
                (fun c =>
                   allDigits c = true /\ Z.of_nat (String.length c) <= width)
                comps ->
              positional width (map component comps) <= maxInt64).
  { intros comps Hc Hall.
    pose proof (@positional_bound width (map component comps) ltac:(lia)
                  (components_bound Hall)) as [_ Hb].
    rewrite length_map, <- Z.pow_mul_r in Hb by lia.
    assert (10 ^ (width * Z.of_nat (List.length comps)) <= 10 ^ 18)
      by (apply Z.pow_le_mono_r; nia).
    unfold maxInt64. lia. }
  assert (Hw' : 1 <= width <= 1000000).
  { destruct xs; [contradiction Hxne; reflexivity |].
    simpl in Hxc. nia. }
  exists (positional width (map component xs)),
         (positional width (map component ys)).
  split; [apply parseVersion_components; auto |].
  split; [apply parseVersion_components; auto |].
  apply positional_lex; try lia.
  - rewrite !length_map. exact Hlen.
  - apply components_bound. exact Hxs.
  - apply components_bound. exact Hys.
Qed.

(** Two versions of the same number of components (at most [count], of
    at most [width] digits, with [width * count <= 18]) parse to equal
    numbers exactly when their components are equal as numbers, leading
    zeros aside, and to a smaller number exactly when the components come
    first in the lexicographic order. *)
Theorem parseVersion_compares_componentwise :
  forall (width : Z) (count : nat) (xs ys : list string),
    1 <= width -> width * Z.of_nat count <= 18 ->
    wellFormed width count xs -> wellFormed width count ys ->
    List.length xs = List.length ys ->
    exists x y,
      parseVersion (String.concat "." xs) width = ([], Returned x)
      /\ parseVersion (String.concat "." ys) width = ([], Returned y)
      /\ (x = y <-> map component xs = map component ys)
      /\ (x < y <-> lexLt (map component xs) (map component ys)).
Proof. exact parseVersion_compare. Qed.

(** *** Versions that end the process *)

Lemma occurs_app (c : ascii) (s t : string) :
  occurs c (s ++ t) = occurs c s || occurs c t.
Proof.
  induction s as [| c' s IH]; simpl; [reflexivity |].
  rewrite IH. apply orb_assoc.
Qed.

Lemma occurs_Sprintf_pad (c : ascii) (width : Z) (v value : string) :
  occurs c v = true \/ occurs c value = true ->
  occurs c (Sprintf_pad width v value) = true.
Proof.
  intros H. unfold Sprintf_pad, padString.
  destruct (Z.abs width ÷ 10 >? 1000000);
    [| destruct (width =? 0); [| destruct (width <? 0)]];
    cbn [negb]; rewrite !occurs_app;
    destruct H as [-> | ->]; rewrite ?orb_true_r; reflexivity.
Qed.

Lemma occurs_versionText (c : ascii) (width : Z) (comps : list string) :
  forall v,
    occurs c v = true \/ Exists (fun p => occurs c p = true) comps ->
    occurs c (fold_left (fun v value => Sprintf_pad width v value) comps v)
    = true.
Proof.
  induction comps as [| p comps IH]; intros v H; simpl.
  - destruct H as [H | H]; [exact H | inversion H].
  - apply IH. destruct H as [H | H].
    + left. apply occurs_Sprintf_pad. left. exact H.
    + inversion H as [? ? Hp | ? ? Hrest]; subst.
      * left. apply occurs_Sprintf_pad. right. exact Hp.
      * right. exact Hrest.
Qed.

Lemma occurs_Split (c sep : ascii) (s : string) :
  occurs c s = true -> c <> sep ->
  Exists (fun p => occurs c p = true) (Split s sep).
Proof.
  intros H Hsep. induction s as [| c' s IH]; [discriminate H |].
  simpl in H. simpl. destruct (Ascii.eqb c' sep) eqn:Hc'.
  - apply Ascii.eqb_eq in Hc'. subst c'.
    destruct (Ascii.eqb sep c) eqn:E.
    + apply Ascii.eqb_eq in E. congruence.
    + apply Exists_cons_tl. apply IH. exact H.
  - destruct (Split s sep) as [| w ws] eqn:HS.
    + apply Exists_cons_hd. simpl. rewrite orb_false_r.
      destruct (Ascii.eqb c' c); [reflexivity |].
      simpl in H. specialize (IH H). inversion IH.
    + destruct (Ascii.eqb c' c) eqn:E.
      * apply Exists_cons_hd. simpl. rewrite E. reflexivity.
      * simpl in H. specialize (IH H).
        inversion IH as [? ? Hw | ? ? Hws]; subst.
        -- apply Exists_cons_hd. simpl. rewrite E. exact Hw.
        -- apply Exists_cons_tl. exact Hws.
Qed.

Lemma allDigits_occurs (c : ascii) (s : string) :
  allDigits s = true -> occurs c s = true -> isDigit c = true.
Proof.
  induction s as [| c' s IH]; intros Hs Ho; [discriminate Ho |].
  simpl in Hs, Ho. apply andb_true_iff in Hs. destruct Hs as [Hc' Hs].
  destruct (Ascii.eqb c' c) eqn:E.
  - apply Ascii.eqb_eq in E. subst. exact Hc'.
  - apply IH; assumption.
Qed.

Lemma ParseInt_other_byte (c : ascii) (v : string) :
  occurs c v = true -> isDigit c = false ->
  c <> "+"%char -> c <> "-"%char ->
  exists k, ParseInt v = inl k.
Proof.
  intros Ho Hc Hplus Hminus.
  destruct v as [| c0 rest]; [discriminate Ho |].
  unfold ParseInt.
  set (body := if isPlus c0 || isMinus c0 then rest else String c0 rest).
  assert (Hbody : occurs c body = true).
  { subst body. destruct (isPlus c0 || isMinus c0) eqn:Hs; [| exact Ho].
    simpl in Ho. destruct (Ascii.eqb c0 c) eqn:E; [| exact Ho].
    apply Ascii.eqb_eq in E. subst c0. unfold isPlus, isMinus in Hs.
    apply orb_true_iff in Hs.
    destruct Hs as [Hs | Hs]; apply Ascii.eqb_eq in Hs; congruence. }
  unfold ParseUint.
  destruct body as [| b0 brest] eqn:Eb; [discriminate Hbody |].
  destruct (scanUint (String b0 brest) 0) as [n | |] eqn:Hscan; eauto.
  apply scanUint_ok_digits in Hscan.
  rewrite (allDigits_occurs c _ Hscan Hbody) in Hc. discriminate Hc.
Qed.

(** A version with a byte that is neither a digit, nor a dot, nor a sign
    ends the process with status 1, after one message, whatever the
    width. *)
Theorem parseVersion_exits_on_other_bytes :
  forall (s : string) (width : Z) (c : ascii),
    occurs c s = true -> isDigit c = false ->
    c <> "."%char -> c <> "+"%char -> c <> "-"%char ->
    exists v k,
      parseVersion s width
      = ([Printf "Failed to parse version %s, error is: %s"
            [Str v; Err (NumError "ParseInt" v k)]],
         Exited 1).
Proof.
  intros s width c Ho Hc Hdot Hplus Hminus.
  unfold parseVersion.
  set (v := fold_left (fun v value => Sprintf_pad width v value)
              (Split s ".") "").
  assert (Hv : occurs c v = true).
  { apply occurs_versionText. right. apply occurs_Split; assumption. }
  destruct (@ParseInt_other_byte c v Hv Hc Hplus Hminus) as [k Hk].
  exists v, k. rewrite Hk. reflexivity.
Qed.

(** *** [getCurrentVersion] *)

Section CurrentVersion.
Variable FS : Type.
Variable host : Host FS.
Variable fs : FS.

(** A first run (the local release is ["0.0"]): the remote release is
    downloaded and its version returned as it is, without being parsed;
    a failed download gives the empty version and its error.  Nothing is
    printed. *)
Theorem getCurrentVersion_first_run :
  LocalReleaseVersion host = "0.0" ->
  (forall e fs',
      DownloadReleaseImages host (LatestReleaseVersion host) "" fs
      = (Some e, fs') ->
      getCurrentVersion host fs = (([], Returned ("", Some e)), fs'))
  /\ (forall fs',
        DownloadReleaseImages host (LatestReleaseVersion host) "" fs
        = (None, fs') ->
        getCurrentVersion host fs
        = (([], Returned (LatestReleaseVersion host, None)), fs')).
Proof.
  intros Hl. unfold getCurrentVersion. rewrite Hl. cbn [String.eqb].
  change ("0.0" =? "0.0")%string with true. cbv iota.
  split; intros; rewrite H; reflexivity.
Qed.



End CurrentVersion.

End CmdFacts.

(* ================================================================== *)
(** ** The nightly flag ([updateNanosToolsPaths], [MergeToConfig]) *)
(* ================================================================== *)

Module NightlyFacts.
Import cmd.

(** *** The tools paths ([updateNanosToolsPaths], [MergeToConfig]) *)

Section ToolsPaths.
Variable FS : Type.
Variable host : Host FS.
Variable fs : FS.

(** The version the paths are built from. *)
Lemma updateNanosToolsPaths_nightly (c : Config) (v1 v2 : string) :
  NightlyBuild c = true ->
  updateNanosToolsPaths host fs c v1 = updateNanosToolsPaths host fs c v2.
Proof.
  intros Hn. unfold updateNanosToolsPaths. rewrite Hn. reflexivity.
Qed.

(** What [updateNanosToolsPaths] leaves alone when it returns: it prints
    nothing, keeps [NightlyBuild], keeps a kernel path, a boot path and a
    list of name servers that were set, and gives the name server
    ["8.8.8.8"] to a configuration that had none; [UefiBoot] is always
    replaced. *)
Theorem updateNanosToolsPaths_keeps_what_is_set :
  forall (c c' : Config) (version : string) (out : list Output),
    updateNanosToolsPaths host fs c version = (out, Returned c') ->
    out = []
    /\ NightlyBuild c' = NightlyBuild c
    /\ (Kernel c <> "" -> Kernel c' = Kernel c)
    /\ (Boot c <> "" -> Boot c' = Boot c)
    /\ (NameServers c <> [] -> NameServers c' = NameServers c)
    /\ (NameServers c = [] -> NameServers c' = ["8.8.8.8"])
    /\ UefiBoot c'
       = GetUefiBoot host fs (if NightlyBuild c then "nightly" else version).
Proof.
  intros c c' version out H. unfold updateNanosToolsPaths in H.
  destruct c as [nb boot uefi kernel ns]. cbn [NightlyBuild Boot UefiBoot
    Kernel NameServers setBoot setUefiBoot setKernel setNameServers] in *.
  assert (Hns : forall l : list string,
             (len l =? 0) = true <-> l = []).
  { intros l. unfold len. destruct l; simpl; split; intros E;
      try reflexivity; discriminate E. }
  repeat
    match type of H with
    | context [if ?b then _ else _] => destruct b eqn:?
    | context [match Stat host fs ?p with _ => _ end] =>
        destruct (Stat host fs p) eqn:?
    end;
    cbn [NightlyBuild Boot UefiBoot Kernel NameServers setBoot setUefiBoot
           setKernel setNameServers] in *;
    try discriminate H; injection H as <- <-;
    cbn [NightlyBuild Boot UefiBoot Kernel NameServers];
    repeat split; try reflexivity; intros E;
    repeat
      match goal with
      | Hb : (?s =? "")%string = true |- _ => apply String.eqb_eq in Hb
      | Hb : (?s =? "")%string = false |- _ => apply String.eqb_neq in Hb
      | Hb : (len ?l =? 0) = true |- _ => apply Hns in Hb
      | Hb : (len ?l =? 0) = false |- _ =>
          assert (l <> []) by (intros E'; apply Hns in E'; congruence);
          clear Hb
      end;
    subst; try congruence; try reflexivity.
Qed.

(** [updateNanosToolsPaths] in terms of the paths it settles on. *)
Lemma updateNanosToolsPaths_run (fs0 : FS) (c : Config) (version : string) :
  updateNanosToolsPaths host fs0 c version
  = let k := kernelPath host c version in
    let b := bootPath host fs0 c version in
    if notExist host (Stat host fs0 k) then
      ([Fatalf ("error: %v: %v" ++ newline)
          [Str k;
           match Stat host fs0 k with Some e => Err e | None => Str "" end]],
       Exited 1)
    else if negb (String.eqb b "") && notExist host (Stat host fs0 b) then
      ([Fatalf ("error: boot file '%v' not found" ++ newline) [Str b]],
       Exited 1)
    else
      let c1 :=
        {| NightlyBuild := NightlyBuild c; Boot := b;
           UefiBoot := GetUefiBoot host fs0 (toolsVersion c version);
           Kernel := k; NameServers := NameServers c |} in
      ([],
       Returned
         (if len (NameServers c) =? 0 then setNameServers ["8.8.8.8"] c1
          else c1)).
Proof.
  unfold updateNanosToolsPaths, kernelPath, bootPath, toolsVersion.
  destruct c as [nb boot uefi kernel ns].
  cbn [NightlyBuild Boot UefiBoot Kernel NameServers].
  destruct (boot =? "")%string eqn:Hb;
    [destruct (Stat host fs0
                 (Join host
                    [GetOpsHome host; if nb then "nightly" else version;
                     "boot.img"])) as [eb |] eqn:Hsb |];
    destruct (kernel =? "")%string eqn:Hk;
    try (apply String.eqb_eq in Hb; subst boot);
    try (apply String.eqb_eq in Hk; subst kernel);
    repeat
      (progress
         (cbn [NightlyBuild Boot UefiBoot Kernel NameServers setBoot
                 setUefiBoot setKernel String.eqb notExist negb andb];
          rewrite ?Hb, ?Hk, ?Hsb, ?andb_false_r));
    reflexivity.
Qed.

(** [updateNanosToolsPaths] ends the process exactly when an image it
    settled on is missing: the kernel, set or default, or a boot image
    that is set (a default boot image that is missing is only left
    out).  Otherwise it returns, with these paths in the
    configuration. *)
Theorem updateNanosToolsPaths_exits_when_an_image_is_missing :
  forall (c : Config) (version : string),
    let k := kernelPath host c version in
    let b := bootPath host fs c version in
    (forall e,
        Stat host fs k = Some e -> IsNotExist host e = true ->
        updateNanosToolsPaths host fs c version
        = ([Fatalf ("error: %v: %v" ++ newline) [Str k; Err e]], Exited 1))
    /\ (notExist host (Stat host fs k) = false ->
        b <> "" -> notExist host (Stat host fs b) = true ->
        updateNanosToolsPaths host fs c version
        = ([Fatalf ("error: boot file '%v' not found" ++ newline) [Str b]],
           Exited 1))
    /\ (notExist host (Stat host fs k) = false ->
        b = "" \/ notExist host (Stat host fs b) = false ->
        exists c',
          updateNanosToolsPaths host fs c version = ([], Returned c')
          /\ Kernel c' = k /\ Boot c' = b).
Proof.
  intros c version k b. rewrite updateNanosToolsPaths_run.
  fold k. fold b. cbv zeta. split; [| split].
  - intros e Hs He. rewrite Hs. cbn [notExist]. rewrite He. reflexivity.
  - intros Hk Hb Hbn. rewrite Hk, Hbn.
    apply String.eqb_neq in Hb. rewrite Hb. reflexivity.
  - intros Hk Hb. rewrite Hk.
    assert (Hcheck :
              negb (b =? "")%string && notExist host (Stat host fs b)
              = false).
    { destruct Hb as [-> | ->]; [reflexivity | apply andb_false_r]. }
    rewrite Hcheck. eexists. split; [reflexivity |].
    destruct (len (NameServers c) =? 0); split; reflexivity.
Qed.

(** [MergeToConfig] without the nightly flag writes [NightlyBuild] and
    nothing else, downloads nothing and checks no file; with the flag, a
    failed download is returned as its error before any path is looked
    at, and a successful one is followed by [updateNanosToolsPaths] on
    what the download left: the paths are then the nightly ones, whatever
    the download did to [NightlyBuild]. *)
Theorem MergeToConfig_cases :
  forall (flags : NightlyCommandFlags) (config : Config),
    (Nightly flags = false ->
     MergeToConfig host flags config fs
     = (([], Returned (setNightlyBuild false config, None)), fs))
    /\ (forall c1 e fs1,
          Nightly flags = true ->
          DownloadNightlyImages host (setNightlyBuild true config) fs
          = ((c1, Some e), fs1) ->
          MergeToConfig host flags config fs
          = (([], Returned (c1, Some e)), fs1))
    /\ (forall c1 fs1,
          Nightly flags = true ->
          DownloadNightlyImages host (setNightlyBuild true config) fs
          = ((c1, None), fs1) ->
          (forall out c2,
              updateNanosToolsPaths host fs1 c1 "nightly"
              = (out, Returned c2) ->
              MergeToConfig host flags config fs
              = (([], Returned (c2, None)), fs1)
              /\ UefiBoot c2 = GetUefiBoot host fs1 "nightly"
              /\ (Kernel c1 = "" ->
                  Kernel c2
                  = Join host [GetOpsHome host; "nightly"; "kernel.img"]))
          /\ (forall out status,
                updateNanosToolsPaths host fs1 c1 "nightly"
                = (out, Exited status) ->
                MergeToConfig host flags config fs
                = ((out, Exited status), fs1))).
Proof.
  intros flags config. unfold MergeToConfig, downloadNightlyImages.
  cbn [NightlyBuild setNightlyBuild].
  split; [| split].
  - intros ->. reflexivity.
  - intros c1 e fs1 -> HD. rewrite HD. reflexivity.
  - intros c1 fs1 -> HD. rewrite HD. split.
    + intros out c2 HU. rewrite HU.
      rewrite updateNanosToolsPaths_run in HU. cbv zeta in HU.
      assert (Hv : toolsVersion c1 "nightly" = "nightly")
        by (unfold toolsVersion; destruct (NightlyBuild c1); reflexivity).
      assert (Hk : Kernel c1 = "" ->
                   kernelPath host c1 "nightly"
                   = Join host [GetOpsHome host; "nightly"; "kernel.img"]).
      { intros E. unfold kernelPath. rewrite E. cbn [String.eqb].
        fold (toolsVersion c1 "nightly"). rewrite Hv. reflexivity. }
      rewrite Hv in HU.
      destruct (notExist host (Stat host fs1 (kernelPath host c1 "nightly")));
        [discriminate HU |].
      destruct (negb (bootPath host fs1 c1 "nightly" =? "")%string
                && notExist host
                     (Stat host fs1 (bootPath host fs1 c1 "nightly")));
        [discriminate HU |].
      injection HU as <- <-.
      destruct (len (NameServers c1) =? 0); auto.
    + intros out status HU. rewrite HU. reflexivity.
Qed.

End ToolsPaths.
End NightlyFacts.

(* ================================================================== *)
(** ** The properties of [cmd] on the simulated host *)
(* ================================================================== *)

(** The version ["0.1.17"] reads as 10017. *)
Lemma parseVersion_value_witness :
  cmd.parseVersion "0.1.17" 4 = ([], cmd.Returned 10017).
Proof.
  refine
    (@CmdFacts.parseVersion_value 4 ["0"; "1"; "17"] ltac:(lia)
       ltac:(discriminate) _ _).
  - repeat constructor; simpl; lia.
  - vm_compute. discriminate.
Defined.

(** ["1.02"] and ["1.2"] read as the same number; ["0.9"] comes before
    ["0.10"]. *)
Lemma parseVersion_compares_componentwise_witness :
  (exists x y,
      cmd.parseVersion "1.02" 4 = ([], cmd.Returned x)
      /\ cmd.parseVersion "1.2" 4 = ([], cmd.Returned y)
      /\ x = y)
  /\ exists x y,
      cmd.parseVersion "0.9" 4 = ([], cmd.Returned x)
      /\ cmd.parseVersion "0.10" 4 = ([], cmd.Returned y)
      /\ x < y.
Proof.
  assert (Hwf :
            forall a b : string,
              cmd.allDigits a = true -> cmd.allDigits b = true ->
              Z.of_nat (String.length a) <= 4 ->
              Z.of_nat (String.length b) <= 4 ->
              cmd.wellFormed 4 4 [a; b]).
  { intros a b Ha Hb Hla Hlb. split; [discriminate |].
    split; [simpl; lia |]. repeat constructor; assumption. }
  split.
  - destruct
      (@CmdFacts.parseVersion_compares_componentwise 4 4%nat
         ["1"; "02"] ["1"; "2"] ltac:(lia) ltac:(lia)
         (Hwf "1" "02" eq_refl eq_refl ltac:(simpl; lia) ltac:(simpl; lia))
         (Hwf "1" "2" eq_refl eq_refl ltac:(simpl; lia) ltac:(simpl; lia))
         eq_refl)
      as [x [y [Hx [Hy [Heq _]]]]].
    exists x, y. split; [exact Hx |]. split; [exact Hy |].
    apply Heq. reflexivity.
  - destruct
      (@CmdFacts.parseVersion_compares_componentwise 4 4%nat
         ["0"; "9"] ["0"; "10"] ltac:(lia) ltac:(lia)
         (Hwf "0" "9" eq_refl eq_refl ltac:(simpl; lia) ltac:(simpl; lia))
         (Hwf "0" "10" eq_refl eq_refl ltac:(simpl; lia) ltac:(simpl; lia))
         eq_refl)
      as [x [y [Hx [Hy [_ Hlt]]]]].
    exists x, y. split; [exact Hx |]. split; [exact Hy |].
    apply Hlt. simpl. right. split; [reflexivity |]. left.
    vm_compute. reflexivity.
Defined.

(** The version ["1.2-rc"] ends the process. *)
Lemma parseVersion_exits_on_other_bytes_witness :
  exists v k,
    cmd.parseVersion "1.2-rc" 4
    = ([cmd.Printf "Failed to parse version %s, error is: %s"
          [cmd.Str v; cmd.Err (NumError "ParseInt" v k)]],
       cmd.Exited 1).
Proof.
  refine
    (@CmdFacts.parseVersion_exits_on_other_bytes "1.2-rc" 4 "r"%char
       eq_refl eq_refl _ _ _);
    discriminate.
Defined.

(** A first run that downloads the release ["0.1.17"]. *)
Lemma getCurrentVersion_first_run_witness :
  cmd.getCurrentVersion (SimHost.host "0.0" "0.1.17" None) []
  = (([], cmd.Returned ("0.1.17", None)),
     ["/home/ops/.ops/0.1.17/kernel.img"]).
Proof.
  exact
    (proj2
       (@CmdFacts.getCurrentVersion_first_run _
          (SimHost.host "0.0" "0.1.17" None) [] eq_refl)
       _ eq_refl).
Defined.


(** A configuration with its own paths, all of which exist. *)
Lemma updateNanosToolsPaths_keeps_what_is_set_witness :
  cmd.updateNanosToolsPaths (SimHost.host "0.1.17" "0.1.17" None)
    ["/opt/kernel.img"; "/opt/boot.img"] SimHost.custom "0.1.17"
  = ([],
     cmd.Returned
       {| cmd.NightlyBuild := false; cmd.Boot := "/opt/boot.img";
          cmd.UefiBoot := ""; cmd.Kernel := "/opt/kernel.img";
          cmd.NameServers := ["1.1.1.1"] |})
  /\ cmd.Kernel SimHost.custom = "/opt/kernel.img".
Proof.
  split; [reflexivity |].
  destruct
    (@NightlyFacts.updateNanosToolsPaths_keeps_what_is_set _
       (SimHost.host "0.1.17" "0.1.17" None)
       ["/opt/kernel.img"; "/opt/boot.img"] SimHost.custom _ "0.1.17" _
       eq_refl)
    as [_ [_ [Hk _]]].
  symmetry. apply Hk. discriminate.
Defined.

(** The default kernel of the release is missing; then the kernel is
    there and no boot image is; then the boot image that is set is
    missing. *)
Lemma updateNanosToolsPaths_exits_when_an_image_is_missing_witness :
  snd
    (cmd.updateNanosToolsPaths (SimHost.host "0.1.17" "0.1.17" None) []
       SimHost.blank "0.1.17")
  = cmd.Exited 1
  /\ (exists c',
         cmd.updateNanosToolsPaths (SimHost.host "0.1.17" "0.1.17" None)
           ["/home/ops/.ops/0.1.17/kernel.img"] SimHost.blank "0.1.17"
         = ([], cmd.Returned c')
         /\ cmd.Kernel c' = "/home/ops/.ops/0.1.17/kernel.img"
         /\ cmd.Boot c' = "")
  /\ snd
       (cmd.updateNanosToolsPaths (SimHost.host "0.1.17" "0.1.17" None)
          ["/opt/kernel.img"] SimHost.custom "0.1.17")
     = cmd.Exited 1.
Proof.
  split; [| split].
  - rewrite
      (proj1
         (@NightlyFacts.updateNanosToolsPaths_exits_when_an_image_is_missing
            _ (SimHost.host "0.1.17" "0.1.17" None) [] SimHost.blank
            "0.1.17")
         SimHost.noSuchFile eq_refl eq_refl).
    reflexivity.
  - exact
      (proj2
         (proj2
            (@NightlyFacts.updateNanosToolsPaths_exits_when_an_image_is_missing
               _ (SimHost.host "0.1.17" "0.1.17" None)
               ["/home/ops/.ops/0.1.17/kernel.img"] SimHost.blank "0.1.17"))
         eq_refl (or_introl eq_refl)).
  - rewrite
      (proj1
         (proj2
            (@NightlyFacts.updateNanosToolsPaths_exits_when_an_image_is_missing
               _ (SimHost.host "0.1.17" "0.1.17" None) ["/opt/kernel.img"]
               SimHost.custom "0.1.17"))
         eq_refl ltac:(discriminate) eq_refl).
    reflexivity.
Defined.

(** The flag is off; the flag is on and the download fails; the flag is
    on and the download brings the nightly images. *)
Lemma MergeToConfig_cases_witness :
  cmd.MergeToConfig (SimHost.host "0.1.17" "0.1.17" None)
    {| cmd.Nightly := false |} SimHost.custom []
  = (([], cmd.Returned (SimHost.custom, None)), [])
  /\ cmd.MergeToConfig
       (SimHost.host "0.1.17" "0.1.17" (Some SimHost.noSuchFile))
       {| cmd.Nightly := true |} SimHost.blank []
     = (([],
         cmd.Returned
           (cmd.setNightlyBuild true SimHost.blank, Some SimHost.noSuchFile)),
        [])
  /\ exists c2,
      fst
        (cmd.MergeToConfig (SimHost.host "0.1.17" "0.1.17" None)
           {| cmd.Nightly := true |} SimHost.blank [])
      = ([], cmd.Returned (c2, None))
      /\ cmd.Kernel c2 = "/home/ops/.ops/nightly/kernel.img".
Proof.
  split; [| split].
  - exact
      (proj1
         (@NightlyFacts.MergeToConfig_cases _
            (SimHost.host "0.1.17" "0.1.17" None) []
            {| cmd.Nightly := false |} SimHost.custom)
         eq_refl).
  - exact
      (proj1
         (proj2
            (@NightlyFacts.MergeToConfig_cases _
               (SimHost.host "0.1.17" "0.1.17" (Some SimHost.noSuchFile)) []
               {| cmd.Nightly := true |} SimHost.blank))
         _ _ _ eq_refl eq_refl).
  - eexists. split.
    + rewrite
        (proj1
           (proj1
              (proj2
                 (proj2
                    (@NightlyFacts.MergeToConfig_cases _
                       (SimHost.host "0.1.17" "0.1.17" None) []
                       {| cmd.Nightly := true |} SimHost.blank))
                 _ _ eq_refl eq_refl)
              _ _ eq_refl)).
      reflexivity.
    + reflexivity.
Defined.
